(** * tobler.harmonize: a shallow embedding of [harmonize] and its properties

    The development follows src/tobler/harmonize.py.  The function is a
    coordination layer over pandas / geopandas tables and three external
    interpolation primitives, so the embedding has three layers:

    - [Pandas]: the table operations the function uses (construction from an
      array, column selection, boolean row selection, [unique],
      [reset_index], column assignment with index alignment, [concat] along
      both axes, the [GeoDataFrame] constructor);
    - [Py]: a state-and-exception monad over a heap of table objects, so that
      the objects handed to the primitives by reference are really shared;
    - [Harmonize]: the function itself, statement by statement, with the
      primitives as the methods of a class [Primitives]. *)

From Stdlib Require Import ZArith String List Bool Lia OrderedTypeEx Sorted.
From stdpp Require Import base tactics option list strings sorting.

Set Default Proof Using "Type".

(** ** Cells, exceptions, tables *)

(** A table cell.  [Num] stands for every numeric payload (identifiers, years,
    interpolated attribute values): [harmonize] moves numbers around and
    compares period values for equality, it never computes with them.
    [NaN] is the missing value pandas fills in. *)
Inductive cell :=
  | NaN
  | Num (z : Z)
  | Str (s : string)
  | Geom (g : Z).

#[global] Instance cell_eq_dec : EqDecision cell.
Proof. solve_decision. Defined.

(** Python [==] on scalars, as used by [dfs[time_col] == target_year]: a
    missing value equals nothing, not even itself. *)
Definition cell_eqb (a b : cell) : bool :=
  match a, b with
  | NaN, _ | _, NaN => false
  | _, _ => bool_decide (a = b)
  end.

(** The identity used by index look-ups: missing values are one value. *)
Definition cell_same (a b : cell) : bool := bool_decide (a = b).

(** The exceptions that can leave [harmonize]. *)
Inductive exn :=
  | TypeError (msg : string)
  | KeyError (msg : string)
  | ValueError (msg : string)
  | IndexError (msg : string)
  | AttributeError (msg : string)
  | UnboundLocalError (var : string)
  | InvalidIndexError (msg : string)
  | MissingCRSError
  | SystemError (msg : string)
  | PrimitiveError (msg : string).

Inductive outcome (A : Type) :=
  | Return (a : A)
  | Raise (e : exn).
Arguments Return {A} a.
Arguments Raise {A} e.

Definition obind {A B} (o : outcome A) (k : A -> outcome B) : outcome B :=
  match o with
  | Return a => k a
  | Raise e => Raise e
  end.

Notation "'let?' x := o 'in' k" := (obind o (fun x => k))
  (at level 10, x name, o at level 100, k at level 200, only parsing).

(** The class of a table object: a plain pandas [DataFrame] has no [crs]
    attribute, a [GeoDataFrame] has one. *)
Inductive frame_class :=
  | PandasFrame
  | GeoFrame.

(** A table: column labels in order (pandas allows duplicates), the name of
    the row index, the rows, each with its index label, and the tag of the
    geometry column.  The coordinate reference system is kept by the array
    of geometries, not by the table: [geometry_crs] is [Some c] when the
    column labelled "geometry" is a geometry column, [c] being its
    coordinate reference system, possibly [None]; it is read only where
    that column exists ([column_crs]).  Only this column is followed: it is
    the one line 181 copies and the one the constructor of line 187 looks
    for. *)
Record DataFrame := mkFrame {
  klass : frame_class;
  columns : list string;
  index_name : option string;
  body : list (cell * list cell);
  geometry_crs : option (option string)
}.

(** A column taken out of a table: (index label, value) pairs. *)
Definition Series := list (cell * cell).

(** A two-dimensional numpy array.  Being a function of the position it is
    rectangular by construction, like the arrays it stands for. *)
Record ndarray := mkArray {
  shape0 : nat;
  shape1 : nat;
  item : nat -> nat -> cell
}.

Definition nrows (df : DataFrame) : nat := length (body df).

(** A table whose rows all have one cell per column. *)
Definition rectangular (df : DataFrame) : Prop :=
  Forall (fun r => length r.2 = length (columns df)) (body df).

(** The labels of the rows. *)
Definition row_index (df : DataFrame) : list cell := fst <$> body df.

(** The tag that the column [c] of a table carries: that of a geometry
    column, or none. *)
Definition column_crs (df : DataFrame) (c : string) : option (option string) :=
  if bool_decide (c = "geometry"%string /\ c ∈ columns df) then geometry_crs df
  else None.

Module Pandas.

(** [RangeIndex(n)]: the labels 0 .. n-1. *)
Definition RangeIndex (n : nat) : list cell :=
  (fun k => Num (Z.of_nat k)) <$> seq 0 n.

(** [pd.DataFrame(a, columns=cols)] for a two-dimensional array. *)
Definition DataFrame_of (a : ndarray) (cols : list string) : outcome DataFrame :=
  if bool_decide (shape1 a = length cols) then
    Return {| klass := PandasFrame;
              columns := cols;
              index_name := None;
              body := (fun r => (Num (Z.of_nat r), item a r <$> seq 0 (shape1 a)))
                      <$> seq 0 (shape0 a);
              geometry_crs := None |}
  else Raise (ValueError "Shape of passed values does not match the columns").

(** Position of the first column labelled [c], and how many there are. *)
Fixpoint find_col (c : string) (cols : list string) : option nat :=
  match cols with
  | [] => None
  | c' :: cols' =>
      if bool_decide (c' = c) then Some 0 else S <$> find_col c cols'
  end.

Definition count_col (c : string) (cols : list string) : nat :=
  length (filter (fun c' => c' = c) cols).

(** The cell a row holds under the first column labelled [c]. *)
Definition cell_of (cols : list string) (row : list cell) (c : string) : option cell :=
  match find_col c cols with
  | Some k => Some (nth k row NaN)
  | None => None
  end.

(** [df[c]] where a single column is meant: a missing label is a
    [KeyError]; with a duplicated label pandas returns a sub-table, on
    which the uses in [harmonize] fail ([dup] is the exception of the use
    site). *)
Definition getitem (dup : exn) (df : DataFrame) (c : string) : outcome Series :=
  match count_col c (columns df), find_col c (columns df) with
  | 1, Some k => Return ((fun r => (r.1, nth k r.2 NaN)) <$> body df)
  | 0, _ | _, None => Raise (KeyError c)
  | _, _ => Raise dup
  end.

(** Distinct values in order of first appearance, as [unique] and the
    union of indexes give them. *)
Fixpoint first_occurrences {A} `{EqDecision A} (seen l : list A) : list A :=
  match l with
  | [] => []
  | x :: l' =>
      if bool_decide (x ∈ seen) then first_occurrences seen l'
      else x :: first_occurrences (x :: seen) l'
  end.

(** [s.unique()]; missing values count as one value. *)
Definition unique (s : Series) : list cell := first_occurrences [] (snd <$> s).

(** [s == v]: the element-wise comparison, and [df[mask]]: boolean row
    selection, a new table of the same class. *)
Definition eq_mask (s : Series) (v : cell) : list bool :=
  (fun p => cell_eqb p.2 v) <$> s.

Definition select_rows (df : DataFrame) (mask : list bool) : DataFrame :=
  {| klass := klass df;
     columns := columns df;
     index_name := index_name df;
     body := snd <$> filter (fun p => p.1 = true) (zip mask (body df));
     geometry_crs := geometry_crs df |}.

(** [df.reset_index()] with its default [drop=False]: the old index becomes
    the first column, named after the index, or "index" (or "level_0" when
    "index" is taken); the rows are relabelled 0 .. n-1. *)
Definition index_label (df : DataFrame) : string :=
  match index_name df with
  | Some n => n
  | None => if bool_decide ("index"%string ∈ columns df)
            then "level_0"%string else "index"%string
  end.

Definition reset_index (df : DataFrame) : outcome DataFrame :=
  let name := index_label df in
  if bool_decide (name ∈ columns df) then
    Raise (ValueError "cannot insert, already exists")
  else
    Return {| klass := klass df;
              columns := name :: columns df;
              index_name := None;
              body := imap (fun k r => (Num (Z.of_nat k), r.1 :: r.2)) (body df);
              geometry_crs := column_crs df "geometry" |}.

(** Writing [vals] under label [c]: every column labelled [c] is replaced,
    a new label is appended. *)
Fixpoint replace_cells (c : string) (v : cell) (cols : list string) (row : list cell)
  : list cell :=
  match cols, row with
  | c' :: cols', x :: row' =>
      (if bool_decide (c' = c) then v else x) :: replace_cells c v cols' row'
  | _, _ => row
  end.

Definition set_cell (c : string) (v : cell) (cols : list string) (row : list cell)
  : list cell :=
  if bool_decide (c ∈ cols) then replace_cells c v cols row else row ++ [v].

Definition with_column (c : string) (cols : list string) : list string :=
  if bool_decide (c ∈ cols) then cols else cols ++ [c].

Definition set_column (df : DataFrame) (c : string) (vals : list cell) : DataFrame :=
  {| klass := klass df;
     columns := with_column c (columns df);
     index_name := index_name df;
     body := zip_with (fun r v => (r.1, set_cell c v (columns df) r.2)) (body df) vals;
     geometry_crs := geometry_crs df |}.

(** A table with another tag on its geometry column. *)
Definition with_tag (df : DataFrame) (tag : option (option string)) : DataFrame :=
  {| klass := klass df;
     columns := columns df;
     index_name := index_name df;
     body := body df;
     geometry_crs := tag |}.

(** The tag of the geometry column after an assignment to the column [c]
    of values that carry [tag]: the column "geometry" takes the tag of
    what is assigned to it, an assignment to another column leaves it
    alone. *)
Definition retag (df : DataFrame) (c : string) (tag : option (option string))
  : DataFrame :=
  if bool_decide (c = "geometry"%string) then with_tag df tag else df.

(** Index alignment of a series with the labels of the table it is
    assigned to: equal indexes are taken as they are; otherwise each label
    is looked up, a label the series lacks gives a missing value, and a
    series with duplicated labels cannot be re-indexed. *)
Definition lookup_label (s : Series) (l : cell) : cell :=
  match find (fun p => cell_same p.1 l) s with
  | Some p => p.2
  | None => NaN
  end.

Definition align (labels : list cell) (s : Series) : outcome (list cell) :=
  if bool_decide (fst <$> s = labels) then Return (snd <$> s)
  else if bool_decide (NoDup (fst <$> s)) then Return (lookup_label s <$> labels)
  else Raise (ValueError "cannot reindex on an axis with duplicate labels").

(** A table without rows takes the index of a non-empty series that is
    assigned to it; the columns it has are filled with missing values. *)
Definition ensure_valid_index (df : DataFrame) (s : Series) : DataFrame :=
  match body df, s with
  | [], _ :: _ =>
      {| klass := klass df;
         columns := columns df;
         index_name := index_name df;
         body := (fun p => (p.1, replicate (length (columns df)) NaN)) <$> s;
         geometry_crs := geometry_crs df |}
  | _, _ => df
  end.

(** [df[c] = s] for a series [s] that carries [tag] (a series taken out of
    a geometry column is a series of geometries with the tag of the
    column). *)
Definition setitem_series (df : DataFrame) (c : string) (s : Series)
    (tag : option (option string)) : outcome DataFrame :=
  let df := ensure_valid_index df s in
  obind (align (row_index df) s) (fun vals => Return (retag (set_column df c vals) c tag)).

(** [df[c] = v] for a scalar [v], which carries no tag. *)
Definition setitem_scalar (df : DataFrame) (c : string) (v : cell) : DataFrame :=
  retag (set_column df c (replicate (nrows df) v)) c None.

(** Sorting of labels, for [sort=True]. *)
Fixpoint insert_sorted (x : string) (l : list string) : list string :=
  match l with
  | [] => [x]
  | y :: l' => if String.leb x y then x :: l else y :: insert_sorted x l'
  end.

Definition sort_labels (l : list string) : list string := foldr insert_sorted [] l.

(** The combined column index of [pd.concat(objs)] along the rows: the
    common index when all tables agree, else the distinct labels in order
    of first appearance; sorted when asked. *)
Definition union_columns (objs : list DataFrame) : list string :=
  match objs with
  | [] => []
  | o :: rest =>
      if forallb (fun o' => bool_decide (columns o' = columns o)) rest
      then columns o
      else first_occurrences [] (concat (columns <$> objs))
  end.

Definition combined_columns (objs : list DataFrame) (sort : bool) : list string :=
  if sort then sort_labels (union_columns objs) else union_columns objs.

(** Re-indexing of one table to the combined columns. *)
Definition reindex_row (cols new_cols : list string) (row : list cell) : list cell :=
  (fun c => default NaN (cell_of cols row c)) <$> new_cols.

Definition reindex_columns (new_cols : list string) (df : DataFrame)
  : outcome (list (cell * list cell)) :=
  if bool_decide (columns df = new_cols) then Return (body df)
  else if bool_decide (NoDup (columns df)) then
    Return ((fun r => (r.1, reindex_row (columns df) new_cols r.2)) <$> body df)
  else Raise (InvalidIndexError "Reindexing only valid with uniquely valued Index objects").

Fixpoint concat_bodies (new_cols : list string) (objs : list DataFrame)
  : outcome (list (cell * list cell)) :=
  match objs with
  | [] => Return []
  | o :: rest =>
      obind (reindex_columns new_cols o) (fun b =>
      obind (concat_bodies new_cols rest) (fun bs => Return (b ++ bs)))
  end.

(** The tag of the column "geometry" of the concatenation.  The tables
    that lack the column do not count.  If the column of some table is
    not a geometry column, the result is a column of plain objects.
    Otherwise the arrays of geometries are joined, and geopandas asks for
    one coordinate reference system: none if no array has one, the one
    that the arrays with one share, and an error if they have several
    (the message goes on with the names of the systems). *)
Definition no_common_crs : exn :=
  ValueError "Cannot determine common CRS for concatenation inputs".

Definition geometry_tags (objs : list DataFrame) : list (option (option string)) :=
  geometry_crs <$> filter (fun o => "geometry"%string ∈ columns o) objs.

Definition common_crs (tags : list (option (option string)))
  : outcome (option (option string)) :=
  if bool_decide (None ∈ tags) then Return None
  else
    match remove_dups (omap (fun t : option (option string) => mjoin t) tags) with
    | [] => Return (Some None)
    | [c] => Return (Some (Some c))
    | _ => Raise no_common_crs
    end.

(** [pd.concat(objs, sort=sort)]: rows appended, columns united (outer
    join), labels kept, class and metadata of the first table. *)
Definition pd_concat (objs : list DataFrame) (sort : bool) : outcome DataFrame :=
  match objs with
  | [] => Raise (ValueError "No objects to concatenate")
  | o :: rest =>
      let new_cols := combined_columns objs sort in
      obind (concat_bodies new_cols objs) (fun b =>
      obind (common_crs (geometry_tags objs)) (fun tag =>
        Return {| klass := klass o;
                  columns := new_cols;
                  index_name :=
                    if forallb (fun o' => bool_decide (index_name o' = index_name o)) rest
                    then index_name o else None;
                  body := b;
                  geometry_crs := tag |}))
  end.

(** [pd.concat(objs, axis=1)] for tables that carry the default 0-based
    index, as the two built from the arrays of one interpolation do:
    columns appended (duplicates kept), rows joined by position, a table
    with fewer rows padded with missing values; the tag of the column
    "geometry" is that of the first table that has the column. *)
Definition row_or_nan (o : DataFrame) (k : nat) : list cell :=
  match body o !! k with
  | Some r => r.2
  | None => replicate (length (columns o)) NaN
  end.

Definition concat_axis1 (objs : list DataFrame) : outcome DataFrame :=
  match objs with
  | [] => Raise (ValueError "No objects to concatenate")
  | o :: _ =>
      Return {| klass := klass o;
                columns := concat (columns <$> objs);
                index_name := None;
                body := (fun k => (Num (Z.of_nat k),
                                   concat ((fun o' => row_or_nan o' k) <$> objs)))
                        <$> seq 0 (max_list_with nrows objs);
                geometry_crs :=
                  default None (head (geometry_tags objs)) |}
  end.

(** [gpd.GeoDataFrame(df, crs=crs)]: the table as a geometry-aware one.
    The column "geometry", if there is one, is its geometry column: an
    array of geometries keeps the coordinate reference system it has,
    and takes the [crs] argument, whose default is [None], if it has
    none; a column of plain objects becomes an array of geometries with
    [crs]. *)
Definition GeoDataFrame (df : DataFrame) (crs : option string) : DataFrame :=
  {| klass := GeoFrame;
     columns := columns df;
     index_name := index_name df;
     body := body df;
     geometry_crs :=
       if bool_decide ("geometry"%string ∈ columns df) then
         match geometry_crs df with
         | Some (Some c) => Some (Some c)
         | _ => Some crs
         end
       else None |}.

End Pandas.

(** ** Python objects: a heap of tables, exceptions, and a log of the calls
    made to the external primitives *)

Module Py.

(** References are positions in the heap. *)
Abbreviation ref := nat (only parsing).

Inductive primitive :=
  | AreaInterpolateBinning
  | AreaTablesRaster
  | AreaInterpolate.

(** One call of a primitive, with the objects it was handed as source and
    as target table. *)
Record call := mkCall {
  callee : primitive;
  source_arg : ref;
  target_arg : ref
}.

Record state := mkState {
  heap : list DataFrame;
  calls : list call
}.

Definition M (A : Type) : Type := state -> outcome A * state.

Definition ret {A} (a : A) : M A := fun st => (Return a, st).

Definition raise {A} (e : exn) : M A := fun st => (Raise e, st).

Definition bind {A B} (m : M A) (k : A -> M B) : M B :=
  fun st =>
    match m st with
    | (Return a, st') => k a st'
    | (Raise e, st') => (Raise e, st')
    end.

Definition lift {A} (o : outcome A) : M A := fun st => (o, st).

(** A new object. *)
Definition new (df : DataFrame) : M ref :=
  fun st => (Return (length (heap st)),
             {| heap := heap st ++ [df]; calls := calls st |}).

(** The table behind a reference. *)
Definition read (r : ref) : M DataFrame :=
  fun st =>
    match heap st !! r with
    | Some df => (Return df, st)
    | None => (Raise (SystemError "dangling reference"), st)
    end.

(** A call of an external primitive on two table objects.  The primitive
    reaches the two tables through the references it is given, so what it
    does to them stays in the heap, whether it returns or raises; the call
    is logged. *)
Definition invoke {A} (who : primitive)
    (f : DataFrame -> DataFrame -> outcome A * DataFrame * DataFrame)
    (source target : ref) : M A :=
  fun st =>
    match heap st !! source, heap st !! target with
    | Some s, Some t =>
        let '(r, s', t') := f s t in
        (r, {| heap := <[target := t']> (<[source := s']> (heap st));
               calls := calls st ++ [mkCall who source target] |})
    | _, _ => (Raise (SystemError "dangling reference"), st)
    end.

(** [for x in l: s = body x s]. *)
Fixpoint for_in {A S} (l : list A) (body : A -> S -> M S) (s : S) : M S :=
  match l with
  | [] => ret s
  | x :: l' => bind (body x s) (for_in l' body)
  end.

(** [l[k]] on a Python list. *)
Definition list_item {A} (l : list A) (k : nat) : M A :=
  match l !! k with
  | Some x => ret x
  | None => raise (IndexError "list index out of range")
  end.

(** [len(v)] for an argument that is a list or [None]. *)
Definition len_of_None : exn := TypeError "object of type 'NoneType' has no len()".

Definition len {A} (v : option (list A)) : outcome nat :=
  match v with
  | Some l => Return (length l)
  | None => Raise len_of_None
  end.

(** [raise s] for a string [s]: Python 3 refuses to raise what is not an
    exception, and raises this instead; the string is lost. *)
Definition raise_of_str : exn := TypeError "exceptions must derive from BaseException".

(** The value of a local variable; reading it before any assignment
    raises. *)
Definition local {A} (name : string) (v : option A) : outcome A :=
  match v with
  | Some a => Return a
  | None => Raise (UnboundLocalError name)
  end.

(** Python finds a dictionary key by identity first and by [==] second:
    a key that is a missing value is found again when it is the very
    object that was stored, as [None] always is and [np.nan] is where it
    was written as such, and it is not found when it is another [nan].
    A cell does not record which object a missing value is, so the
    answer is a parameter of the model. *)
Class Objects := { same_object : bool }.

Definition key_eqb {O : Objects} (a b : cell) : bool :=
  cell_eqb a b || (bool_decide (a = NaN) && bool_decide (b = NaN) && same_object).

(** A dictionary in insertion order: assigning to a key that is present
    replaces the value in place, a new key goes last. *)
Fixpoint dict_set {O : Objects} {V} (k : cell) (v : V) (d : list (cell * V))
  : list (cell * V) :=
  match d with
  | [] => [(k, v)]
  | (k', v') :: d' =>
      if key_eqb k' k then (k', v) :: d' else (k', v') :: dict_set k v d'
  end.

Definition dict_values {V} (d : list (cell * V)) : list V := snd <$> d.

(** A computation that leaves the heap and the call log alone, whatever
    its outcome. *)
Definition readonly {A} (m : M A) : Prop := forall st, (m st).2 = st.

(** A computation that leaves the [n] oldest objects alone, whatever its
    outcome, and whose result, if any, satisfies [post]. *)
Definition keeps_older {A} (n : nat) (m : M A) (post : A -> Prop) : Prop :=
  forall st, n <= length (heap st) ->
    n <= length (heap (m st).2) /\
    take n (heap (m st).2) = take n (heap st) /\
    forall a, (m st).1 = Return a -> post a.

End Py.

Notation "'let*' x := m 'in' k" := (Py.bind m (fun x => k))
  (at level 10, x name, m at level 100, k at level 200, only parsing).

(** ** The function *)

Module Harmonize.
Import Pandas Py.

(** The external collaborators (tobler.area_weighted).  Each receives the
    source and the target table by reference: besides its result it gives
    the two tables as it leaves them. *)
Class Primitives := {
  Tables : Type;
  area_interpolate_binning :
    DataFrame -> DataFrame -> option (list string) -> option (list string) -> bool ->
    outcome (ndarray * ndarray) * DataFrame * DataFrame;
  area_tables_raster :
    DataFrame -> DataFrame -> option string -> list Z -> bool ->
    outcome Tables * DataFrame * DataFrame;
  area_interpolate :
    DataFrame -> DataFrame -> option (list string) -> option (list string) -> bool ->
    Tables -> outcome (ndarray * ndarray) * DataFrame * DataFrame
}.

(** The local variables that live across the iterations of the loop. *)
Record locals := mkLocals {
  interpolation : option (ndarray * ndarray);
  interpolated_dfs : list (cell * DataFrame)
}.

(** The coordinate reference system of a collection, if it has one: that
    of the geometry column of a geometry-aware table. *)
Definition crs_of (df : DataFrame) : option string :=
  match klass df with
  | GeoFrame => mjoin (column_crs df "geometry")
  | PandasFrame => None
  end.

(** [i.crs]: a geometry-aware table answers with the coordinate reference
    system of its geometry column. *)
Definition crs_attr (i : ref) : M (option string) :=
  let* df := read i in
  match klass df with
  | GeoFrame =>
      match column_crs df "geometry" with
      | Some c => ret c
      | None => raise (AttributeError "The CRS attribute of a GeoDataFrame without an active geometry column is not defined. Use GeoDataFrame.set_geometry to set the active geometry column.")
      end
  | PandasFrame => raise (AttributeError "'DataFrame' object has no attribute 'crs'")
  end.

(** Modelled from the spec: [_check_presence_of_crs] of tobler.util.util is
    not part of the sources at hand.  It fails with the reference-system
    error if the collection lacks a defined coordinate reference system,
    and has no other effect. *)
Definition _check_presence_of_crs (i : ref) : M unit :=
  let* df := read i in
  match crs_of df with
  | Some _ => ret tt
  | None => raise MissingCRSError
  end.

(** The error of lines 122-126. *)
Definition crs_mismatch : exn :=
  ValueError "There is, at least, one pairwise difference in the Coordinate Reference System (CRS) of the GeoDataFrames of raw_community. All of them must be the same.".

(** With a duplicated label, [df[c]] is a table, not a column: it has no
    [unique] (line 130), and it cannot be assigned to one column (lines
    181-182). *)
Definition no_unique : exn :=
  AttributeError "'DataFrame' object has no attribute 'unique'".

Definition not_one_column : exn :=
  ValueError "Cannot set a DataFrame with multiple columns to a single column".

(** The list behind a variable-name argument that [len] has accepted. *)
Definition names (v : option (list string)) : list string := default [] v.

Section harmonize.
Context {P : Primitives} {O : Objects}.
Variables (raw_community : list ref) (target_year : cell)
          (weights_method : string)
          (extensive_variables intensive_variables : option (list string))
          (allocate_total : bool) (raster_path : option string)
          (codes : list Z) (force_crs_match : bool)
          (index time_col : string).

(** Lines 113-116.  The statement [raise ("You must pass a set of
    extensive and/or intensive variables to interpolate")] raises a
    string, which Python 3 answers with a [TypeError]; [and] does not
    evaluate its second operand when the first is false. *)
Definition check_variables : M unit :=
  let* n_e := lift (len extensive_variables) in
  let* both_empty := (if bool_decide (n_e = 0)
                 then let* n_i := lift (len intensive_variables) in
                      ret (bool_decide (n_i = 0))
                 else ret false) in
  if both_empty : bool
  then raise raise_of_str
  else ret tt.

(** Lines 118-119. *)
Definition check_crs_presence : M unit :=
  for_in raw_community (fun i _ => _check_presence_of_crs i) tt.

(** Line 121: [all(i.crs == raw_community[0].crs for i in raw_community)]. *)
Fixpoint all_crs_equal (l : list ref) : M bool :=
  match l with
  | [] => ret true
  | i :: l' =>
      let* c := crs_attr i in
      let* first := list_item raw_community 0 in
      let* c0 := crs_attr first in
      if bool_decide (c = c0) then all_crs_equal l' else ret false
  end.

(** Lines 121-126. *)
Definition check_crs_equal : M unit :=
  let* same := all_crs_equal raw_community in
  if same : bool then ret tt
  else raise crs_mismatch.

(** Lines 171-180: the table of one period.  Both arrays are wrapped
    with [columns=extensive_variables]. *)
Definition build_profile (interp : option (ndarray * ndarray)) : outcome DataFrame :=
  let? n_e := len extensive_variables in
  let? profiles := (if bool_decide (0 < n_e) then
                 let? it := local "interpolation" interp in
                 let? profile := DataFrame_of it.1 (names extensive_variables) in
                 Return [profile]
               else Return []) in
  let? n_i := len intensive_variables in
  let? profiles := (if bool_decide (0 < n_i) then
                 let? it := local "interpolation" interp in
                 let? profile := DataFrame_of it.2 (names extensive_variables) in
                 Return (profiles ++ [profile])
               else Return profiles) in
  concat_axis1 profiles.

(** Lines 181-183, on the target table as it stands. *)
Definition attach (profile t : DataFrame) (i : cell) : outcome DataFrame :=
  let? g := getitem not_one_column t "geometry" in
  let? profile := setitem_series profile "geometry" g (column_crs t "geometry") in
  let? ident := getitem not_one_column t index in
  let? profile := setitem_series profile index ident (column_crs t index) in
  Return (setitem_scalar profile time_col i).

(** Lines 138-185: one iteration of the loop.  [dfs[...]] and
    [target_df.copy()] are new objects each time; line 164 passes
    [target_df] itself.  [interpolation] keeps the value of the iteration
    before when no branch assigns it. *)
Definition interpolate_period (dfs target_df : ref) (i : cell) (loc : locals) : M locals :=
  let* d := read dfs in
  let* s := lift (getitem no_unique d time_col) in
  let* source_df := new (select_rows d (eq_mask s i)) in
  let* interp := (if bool_decide (weights_method = "area"%string) then
               let* t := read target_df in
               let* target_copy := new t in
               let* r := invoke AreaInterpolateBinning
                      (fun src tgt => area_interpolate_binning src tgt
                         extensive_variables intensive_variables allocate_total)
                      source_df target_copy in
               ret (Some r)
             else ret (interpolation loc)) in
  let* interp := (if bool_decide (weights_method = "land_type_area"%string) then
               let* t := read target_df in
               let* target_copy := new t in
               let* area_tables_raster_fitted :=
                 invoke AreaTablesRaster
                   (fun src tgt => area_tables_raster src tgt raster_path codes
                                     force_crs_match)
                   source_df target_copy in
               let* r := invoke AreaInterpolate
                      (fun src tgt => area_interpolate src tgt
                         extensive_variables intensive_variables allocate_total
                         area_tables_raster_fitted)
                      source_df target_df in
               ret (Some r)
             else ret interp) in
  let* profile := lift (build_profile interp) in
  let* t := read target_df in
  let* profile := lift (attach profile t i) in
  ret {| interpolation := interp;
         interpolated_dfs := dict_set i profile (interpolated_dfs loc) |}.

(** Lines 187-191.  The constructor is called without [crs]. *)
Definition assemble (loc : locals) : M DataFrame :=
  let* harmonized := lift (pd_concat (dict_values (interpolated_dfs loc)) true) in
  ret (GeoDataFrame harmonized None).

(** Lines 113-126: the input validator. *)
Definition validate : M unit :=
  let* _ := check_variables in
  let* _ := check_crs_presence in
  check_crs_equal.

(** Line 129: the tables behind [raw_community], for [pd.concat]. *)
Definition read_all (l : list ref) : M (list DataFrame) :=
  for_in l (fun i acc => let* df := read i in ret (acc ++ [df])) [].

(** Lines 127-135: the period partitioner.  It gives the objects [dfs]
    and [target_df], the periods, and the locals the loop starts from:
    [interpolation] not yet assigned, the dictionary seeded with a copy
    of the target table. *)
Definition partition : M (ref * list cell * ref * locals) :=
  (* store the input crs so we can reassign it at the end *)
  let* first := list_item raw_community 0 in
  let* crs := crs_attr first in
  let* frames := read_all raw_community in
  let* d := lift (pd_concat frames false) in
  let* dfs := new d in
  let* s := lift (getitem no_unique d time_col) in
  let times := unique s in
  let* t := lift (reset_index (select_rows d (eq_mask s target_year))) in
  let* target_df := new t in
  let* t0 := read target_df in
  ret (dfs, times, target_df,
       {| interpolation := None;
          interpolated_dfs := dict_set target_year t0 [] |}).

Definition harmonize : M DataFrame :=
  let* _ := validate in
  let* p := partition in
  let '(dfs, times, target_df, loc) := p in
  let* loc := for_in times (interpolate_period dfs target_df) loc in
  assemble loc.

End harmonize.

(** A call from outside: the collections are the objects of the heap, the
    list [raw_community] refers to them in order. *)
Definition call_harmonize {P : Primitives} {O : Objects} (collections : list DataFrame)
    (target_year : cell) (weights_method : string)
    (extensive_variables intensive_variables : option (list string))
    (allocate_total : bool) (raster_path : option string)
    (codes : list Z) (force_crs_match : bool) (index time_col : string)
  : outcome DataFrame * state :=
  harmonize (seq 0 (length collections)) target_year weights_method
    extensive_variables intensive_variables allocate_total raster_path codes
    force_crs_match index time_col
    {| heap := collections; calls := [] |}.

(** The call with every optional argument left at its default. *)
Definition call_with_defaults {P : Primitives} {O : Objects} (collections : list DataFrame)
    (target_year : cell) : outcome DataFrame * state :=
  call_harmonize collections target_year "area" None None true None
    [21; 22; 23; 24]%Z true "geoid" "year".

(** The period partitioner as a function of the tables behind
    [raw_community] (lines 129-132). *)
Record partitioning := mkPartitioning {
  dfs_of : DataFrame;
  times_of : list cell;
  target_of : DataFrame
}.

Definition period_partition (collections : list DataFrame) (time_col : string)
    (target_year : cell) : outcome partitioning :=
  let? d := pd_concat collections false in
  let? s := getitem no_unique d time_col in
  let? t := reset_index (select_rows d (eq_mask s target_year)) in
  Return {| dfs_of := d; times_of := unique s; target_of := t |}.

(** The target period occurs among the period values, in the sense of the
    comparison [dfs[time_col] == target_year]. *)
Definition period_present (target_year : cell) (times : list cell) : Prop :=
  exists p, p ∈ times /\ cell_eqb p target_year = true.

(** The variable lists that pass the check of lines 113-116: the first is
    a non-empty list, or it is empty and the second is a non-empty list. *)
Definition variables_given (extensive_variables intensive_variables : option (list string))
  : Prop :=
  exists ev, extensive_variables = Some ev /\
    (ev <> [] \/ exists iv, intensive_variables = Some iv /\ iv <> []).

(** Row [r'] of a table with columns [cols] carries the label, the
    geometry and the identifier of row [r] of the target table (columns
    [tcols]), and the period [p]. *)
Definition carries (index time_col : string) (tcols cols : list string)
    (p : cell) (r r' : cell * list cell) : Prop :=
  r'.1 = r.1 /\
  is_Some (cell_of tcols r.2 "geometry") /\
  cell_of cols r'.2 "geometry" = cell_of tcols r.2 "geometry" /\
  is_Some (cell_of tcols r.2 index) /\
  cell_of cols r'.2 index = cell_of tcols r.2 index /\
  cell_of cols r'.2 time_col = Some p.

(** The order of the period groups in the combined table: the dictionary
    was seeded with the target period, the other periods follow as the
    loop meets them. *)
Definition period_order (target_year : cell) (times : list cell) : list cell :=
  target_year :: filter (fun p => cell_eqb target_year p = false) times.

(** The outcome of validation (lines 118-126) as a function of the
    collections, for variable lists that pass the first check. *)
Definition has_crs (c : DataFrame) : bool := bool_decide (is_Some (crs_of c)).

Definition first_crs (collections : list DataFrame) : option string :=
  default None (crs_of <$> head collections).

Definition validate_outcome (collections : list DataFrame) : outcome unit :=
  if forallb has_crs collections then
    if forallb (fun c => bool_decide (crs_of c = first_crs collections)) collections
    then Return tt else Raise crs_mismatch
  else Raise MissingCRSError.

(** Invariants of the loop.  [aligned]: the arrays of the requested
    variable groups have one row per target polygon.  [period_table]: a
    table built from aligned arrays and the target table [t].
    [period_columns]: a table with no column beyond those of a period
    table.  [dict_inv]: the dictionary after the periods [done], the
    seeded key first, holding the seed until the target period comes by,
    then the other periods in order. *)
Definition aligned (extensive_variables intensive_variables : option (list string))
    (t : DataFrame) (interp : option (ndarray * ndarray)) : Prop :=
  match interp with
  | None => True
  | Some it =>
      (names extensive_variables <> [] -> shape0 it.1 = nrows t) /\
      (names intensive_variables <> [] -> shape0 it.2 = nrows t)
  end.

(** The tag of the geometry column of the table of a period: that of the
    target table as it stands, unless the period goes into the column
    "geometry". *)
Definition period_tag (time_col : string) (t : DataFrame) : option (option string) :=
  if bool_decide (time_col = "geometry"%string) then None
  else column_crs t "geometry".

Definition period_table (extensive_variables intensive_variables : option (list string))
    (index time_col : string) (t : DataFrame) (i : cell) (v : DataFrame) : Prop :=
  exists interp p0,
    aligned extensive_variables intensive_variables t interp /\
    build_profile extensive_variables intensive_variables interp = Return p0 /\
    attach index time_col p0 t i = Return v.

Definition period_columns (extensive_variables : option (list string))
    (index time_col : string) (i : cell) (v : DataFrame) : Prop :=
  forall c, c ∈ columns v ->
    (c ∈ names extensive_variables) \/ c = "geometry"%string \/
    c = index \/ c = time_col.

Definition dict_inv {O : Objects} {V} (Q : cell -> V -> Prop) (target_year : cell)
    (seed : V) (done : list cell) (d : list (cell * V)) : Prop :=
  exists v0 rest,
    d = (target_year, v0) :: rest /\
    fst <$> rest = filter (fun p => key_eqb target_year p = false) done /\
    Forall (fun kv => Q kv.1 kv.2) rest /\
    (if existsb (key_eqb target_year) done then Q target_year v0 else v0 = seed).

(** What the collaborators promise (spec, section 6; the comments of
    lines 142 and 161): the arrays of a requested variable group are
    row-aligned with the target table they were handed. *)
Class Contract {P : Primitives} : Prop := {
  binning_aligned s t e i a r s' t' :
    area_interpolate_binning s t e i a = (Return r, s', t') ->
    (names e <> [] -> shape0 r.1 = nrows t) /\
    (names i <> [] -> shape0 r.2 = nrows t);
  interpolate_aligned s t e i a tb r s' t' :
    area_interpolate s t e i a tb = (Return r, s', t') ->
    (names e <> [] -> shape0 r.1 = nrows t) /\
    (names i <> [] -> shape0 r.2 = nrows t)
}.

(** [area_interpolate] gives the target table back as it found it.  No
    collaborator promises this; it is what line 164, which hands over
    [target_df] itself where lines 145 and 155 hand over a copy, would
    need. *)
Definition keeps_target {P : Primitives} : Prop :=
  forall s t e i a tb r s' t',
    area_interpolate s t e i a tb = (Return r, s', t') -> t' = t.

(** The collaborators as far as a run under [weights_method] relies on
    them beyond their contract: only "land_type_area" reaches line 164. *)
Definition target_kept {P : Primitives} (weights_method : string) : Prop :=
  weights_method = "land_type_area"%string -> keeps_target.

(** The table of period [i] under "area": built from what the binning
    primitive returns on the rows of the period and the target table. *)
Definition area_table {P : Primitives}
    (extensive_variables intensive_variables : option (list string))
    (allocate_total : bool) (index time_col : string) (d t : DataFrame)
    (i : cell) (v : DataFrame) : Prop :=
  exists s r src' tgt' p0,
    getitem no_unique d time_col = Return s /\
    area_interpolate_binning (select_rows d (eq_mask s i)) t
      extensive_variables intensive_variables allocate_total
    = (Return r, src', tgt') /\
    build_profile extensive_variables intensive_variables (Some r) = Return p0 /\
    attach index time_col p0 t i = Return v.

(** The table of period [i] under "land_type_area": the raster primitive
    is called on the rows of the period and the target table, the
    interpolation on these rows as the raster primitive left them, on the
    target table and on the tables the raster primitive returned; the
    table is built from what the interpolation returns and from the target
    table as the interpolation left it. *)
Definition land_type_area_table {P : Primitives}
    (extensive_variables intensive_variables : option (list string))
    (allocate_total : bool) (raster_path : option string) (codes : list Z)
    (force_crs_match : bool) (index time_col : string) (d t : DataFrame)
    (i : cell) (v : DataFrame) : Prop :=
  exists s tb src1 tgt1 r src2 tgt2 p0,
    getitem no_unique d time_col = Return s /\
    area_tables_raster (select_rows d (eq_mask s i)) t raster_path codes
      force_crs_match = (Return tb, src1, tgt1) /\
    area_interpolate src1 t extensive_variables intensive_variables
      allocate_total tb = (Return r, src2, tgt2) /\
    build_profile extensive_variables intensive_variables (Some r) = Return p0 /\
    attach index time_col p0 tgt2 i = Return v.

(** The calls of a run over [periods] periods on [n] collections.  The
    objects [0 .. n-1] are the collections, [n] is [dfs], [n + 1] is
    [target_df]; every iteration makes two new objects, the rows of the
    period and a copy of the target table. *)
Definition area_calls (n periods : nat) : list call :=
  (fun j => mkCall AreaInterpolateBinning (n + 2 + 2 * j) (n + 3 + 2 * j))
  <$> seq 0 periods.

Definition land_type_area_calls (n periods : nat) : list call :=
  concat ((fun j => [mkCall AreaTablesRaster (n + 2 + 2 * j) (n + 3 + 2 * j);
                     mkCall AreaInterpolate (n + 2 + 2 * j) (n + 1)])
          <$> seq 0 periods).

(** Collaborators that return one array column for every variable of a
    group, as lines 173 and 177 expect of the first array. *)
Definition column_per_variable {P : Primitives} : Prop :=
  (forall s t e i a r s' t',
      area_interpolate_binning s t e i a = (Return r, s', t') ->
      shape1 r.1 = length (names e) /\ shape1 r.2 = length (names i)) /\
  (forall s t e i a tb r s' t',
      area_interpolate s t e i a tb = (Return r, s', t') ->
      shape1 r.1 = length (names e) /\ shape1 r.2 = length (names i)).

End Harmonize.

(** ** Sample collaborators and sample collections *)

Module Samples.
Import Pandas Py Harmonize.

(** An array of the asked shape; the values stand for interpolated
    numbers. *)
Definition estimates (n m : nat) : ndarray :=
  mkArray n m (fun r c => Num (Z.of_nat (10 * r + c))).

(** Missing values that are different objects wherever they occur, as
    those read out of an array of floats are. *)
#[local] Instance distinct_objects : Objects := {| same_object := false |}.

(** Collaborators that keep to the contract and leave their arguments
    alone. *)
Definition pure_primitives : Primitives := {|
  Tables := unit;
  area_interpolate_binning s t e i _ :=
    (Return (estimates (nrows t) (length (names e)),
             estimates (nrows t) (length (names i))), s, t);
  area_tables_raster s t _ _ _ := (Return tt, s, t);
  area_interpolate s t e i _ _ :=
    (Return (estimates (nrows t) (length (names e)),
             estimates (nrows t) (length (names i))), s, t)
|}.

(** Re-projection of a table in place: every geometry is replaced by its
    image. *)
Definition reproject_cell (c : cell) : cell :=
  match c with
  | Geom g => Geom (g + 1000)
  | _ => c
  end.

Definition reproject (df : DataFrame) : DataFrame :=
  {| klass := klass df;
     columns := columns df;
     index_name := index_name df;
     body := (fun r : cell * list cell => (r.1, reproject_cell <$> r.2)) <$> body df;
     geometry_crs := geometry_crs df |}.

(** Collaborators whose interpolation re-projects the target table it is
    handed before it computes. *)
Definition reprojecting_primitives : Primitives := {|
  Tables := unit;
  area_interpolate_binning s t e i _ :=
    (Return (estimates (nrows t) (length (names e)),
             estimates (nrows t) (length (names i))), s, reproject t);
  area_tables_raster s t _ _ _ := (Return tt, s, reproject t);
  area_interpolate s t e i _ _ :=
    (Return (estimates (nrows t) (length (names e)),
             estimates (nrows t) (length (names i))), s, reproject t)
|}.

(** Collaborators whose interpolation clips the target table it is handed
    to the extent of the raster, after it has computed: the arrays are
    row-aligned with the table as it was handed over, and the table loses
    its last row. *)
Definition clip (df : DataFrame) : DataFrame :=
  {| klass := klass df;
     columns := columns df;
     index_name := index_name df;
     body := take (nrows df - 1) (body df);
     geometry_crs := geometry_crs df |}.

Definition clipping_primitives : Primitives := {|
  Tables := unit;
  area_interpolate_binning s t e i _ :=
    (Return (estimates (nrows t) (length (names e)),
             estimates (nrows t) (length (names i))), s, clip t);
  area_tables_raster s t _ _ _ := (Return tt, s, clip t);
  area_interpolate s t e i _ _ :=
    (Return (estimates (nrows t) (length (names e)),
             estimates (nrows t) (length (names i))), s, clip t)
|}.

(** Collaborators whose interpolation brings the target table it is
    handed to the coordinate reference system of the raster, in place:
    the geometries are re-projected and the geometry column is tagged
    with that system. *)
Definition web_mercator : option string := Some "EPSG:3857"%string.

Definition to_raster_crs (df : DataFrame) : DataFrame :=
  if bool_decide (geometry_crs df = Some web_mercator) then df
  else {| klass := klass df;
          columns := columns df;
          index_name := index_name df;
          body := body (reproject df);
          geometry_crs := Some web_mercator |}.

Definition warping_primitives : Primitives := {|
  Tables := unit;
  area_interpolate_binning s t e i _ :=
    (Return (estimates (nrows t) (length (names e)),
             estimates (nrows t) (length (names i))), s, to_raster_crs t);
  area_tables_raster s t _ _ _ := (Return tt, s, to_raster_crs t);
  area_interpolate s t e i _ _ :=
    (Return (estimates (nrows t) (length (names e)),
             estimates (nrows t) (length (names i))), s, to_raster_crs t)
|}.

(** Three tracts of one year; their row labels start at [l0], [g0]
    numbers their geometries. *)
Definition tracts (crs : option string) (year : string) (l0 g0 : Z) : DataFrame :=
  {| klass := GeoFrame;
     columns := ["geoid"; "year"; "pop"; "geometry"]%string;
     index_name := None;
     body := [ (Num l0, [Str "a"; Str year; Num 10; Geom g0]);
               (Num (l0 + 1), [Str "b"; Str year; Num 20; Geom (g0 + 1)]);
               (Num (l0 + 2), [Str "c"; Str year; Num 30; Geom (g0 + 2)]) ];
     geometry_crs := Some crs |}.

Definition wgs84 : option string := Some "EPSG:4326"%string.

(** The scenario of the spec: years "2000" and "2010", three polygons
    each, the extensive variable "pop". *)
Definition two_censuses : list DataFrame :=
  [tracts wgs84 "2000" 0 100; tracts wgs84 "2010" 40 200].

(** A collection without rows. *)
Definition no_tracts : DataFrame :=
  {| klass := GeoFrame;
     columns := ["geoid"; "year"; "pop"; "geometry"]%string;
     index_name := None;
     body := [];
     geometry_crs := Some wgs84 |}.

Definition nlcd_codes : list Z := [21; 22; 23; 24]%Z.

(** The call of the scenario, with the well-behaved collaborators, and
    what it gives. *)
Definition census_call : outcome DataFrame * state :=
  call_harmonize (P := pure_primitives) two_censuses (Str "2010") "area"
    (Some ["pop"%string]) (Some []) true None nlcd_codes true "geoid" "year".

Definition empty_table : DataFrame :=
  {| klass := PandasFrame; columns := []; index_name := None; body := [];
     geometry_crs := None |}.

Definition census_table : DataFrame := Eval vm_compute in
  match census_call.1 with Return df => df | Raise _ => empty_table end.

Definition census_state : state := Eval vm_compute in census_call.2.

Definition census_partition : partitioning := Eval vm_compute in
  match period_partition two_censuses "year" (Str "2010") with
  | Return part => part
  | Raise _ => {| dfs_of := empty_table; times_of := []; target_of := empty_table |}
  end.

(** The scenario with a first collection that has no coordinate reference
    system, and with one in another system. *)
Definition unreferenced_censuses : list DataFrame :=
  [tracts None "2000" 0 100; tracts wgs84 "2010" 40 200].

Definition mixed_censuses : list DataFrame :=
  [tracts wgs84 "2000" 0 100; tracts (Some "EPSG:3857"%string) "2010" 40 200].

(** The geometries and the periods of a combined table, row by row. *)
Definition geometries (o : outcome DataFrame) : outcome (list cell) :=
  let? df := o in
  let? s := getitem (KeyError "geometry") df "geometry" in
  Return (snd <$> s).


(** The tracts of one year with the identifier as the name of the row
    index and as a column. *)
Definition tracts_by_geoid (year : string) (l0 g0 : Z) : DataFrame :=
  {| klass := GeoFrame;
     columns := columns (tracts wgs84 year l0 g0);
     index_name := Some "geoid"%string;
     body := body (tracts wgs84 year l0 g0);
     geometry_crs := Some wgs84 |}.

(** The call of the scenario for a year that no collection has. *)
Definition call_1990 : outcome DataFrame * state :=
  call_harmonize (P := pure_primitives) two_censuses (Str "1990") "area"
    (Some ["pop"%string]) (Some []) true None nlcd_codes true "geoid" "year".

Definition table_1990 : DataFrame := Eval vm_compute in
  match call_1990.1 with Return df => df | Raise _ => empty_table end.

Definition state_1990 : state := Eval vm_compute in call_1990.2.

Definition partition_1990 : partitioning := Eval vm_compute in
  match period_partition two_censuses "year" (Str "1990") with
  | Return part => part
  | Raise _ => {| dfs_of := empty_table; times_of := []; target_of := empty_table |}
  end.

(** The scenario under "land_type_area". *)
Definition land_call : outcome DataFrame * state :=
  call_harmonize (P := pure_primitives) two_censuses (Str "2010") "land_type_area"
    (Some ["pop"%string]) (Some []) true (Some "nlcd.tif"%string) nlcd_codes true
    "geoid" "year".

Definition land_table : DataFrame := Eval vm_compute in
  match land_call.1 with Return df => df | Raise _ => empty_table end.

Definition land_state : state := Eval vm_compute in land_call.2.

(** The scenario under "land_type_area" with the collaborators that clip
    the target table, and with those that bring it to the coordinate
    reference system of the raster. *)
Definition clipped_call : outcome DataFrame * state :=
  call_harmonize (P := clipping_primitives) two_censuses (Str "2010")
    "land_type_area" (Some ["pop"%string]) (Some []) true (Some "nlcd.tif"%string)
    nlcd_codes true "geoid" "year".

Definition clipped_table : DataFrame := Eval vm_compute in
  match clipped_call.1 with Return df => df | Raise _ => empty_table end.

Definition clipped_state : state := Eval vm_compute in clipped_call.2.

Definition warped_call : outcome DataFrame * state :=
  call_harmonize (P := warping_primitives) two_censuses (Str "2010")
    "land_type_area" (Some ["pop"%string]) (Some []) true (Some "nlcd.tif"%string)
    nlcd_codes true "geoid" "year".

Definition warped_table : DataFrame := Eval vm_compute in
  match warped_call.1 with Return df => df | Raise _ => empty_table end.

Definition warped_state : state := Eval vm_compute in warped_call.2.

(** The scenario with collections indexed by the identifier. *)
Definition geoid_censuses : list DataFrame :=
  [tracts_by_geoid "2000" 0 100; tracts_by_geoid "2010" 40 200].

(** The partition of a collection without rows. *)
Definition empty_partition : partitioning := Eval vm_compute in
  match period_partition [no_tracts] "year" (Str "2010") with
  | Return part => part
  | Raise _ => {| dfs_of := empty_table; times_of := []; target_of := empty_table |}
  end.

End Samples.

(** * Facts about the table operations *)

Module PandasFacts.
Import Pandas Py Harmonize Samples.

Lemma cell_eqb_eq a b : cell_eqb a b = true -> a = b.
Proof.
  destruct a, b; simpl; try discriminate; intros Hb;
    by apply bool_decide_eq_true in Hb.
Qed.

Lemma find_col_Some c cols k :
  find_col c cols = Some k -> cols !! k = Some c.
Proof.
  revert k. induction cols as [|c' cols IH]; intros k; simpl; [done|].
  case_bool_decide; subst.
  - by intros [= <-].
  - destruct (find_col c cols) as [k'|]; simpl; [|done].
    intros [= <-]. simpl. by apply IH.
Qed.

Lemma find_col_is_Some c cols : c ∈ cols <-> is_Some (find_col c cols).
Proof.
  induction cols as [|c' cols IH]; simpl.
  - split; [by intros ?%elem_of_nil | by intros [? ?]].
  - case_bool_decide; subst.
    + split; [by eexists | left].
    + rewrite elem_of_cons, IH. split.
      * intros [->|[k Hk]]; [done|]. rewrite Hk. by eexists.
      * intros [k Hk]. right. destruct (find_col c cols); [by eexists | done].
Qed.

Lemma find_col_None c cols : c ∉ cols <-> find_col c cols = None.
Proof.
  rewrite find_col_is_Some, eq_None_not_Some. done.
Qed.

Lemma find_col_app_l c cols cols' k :
  find_col c cols = Some k -> find_col c (cols ++ cols') = Some k.
Proof.
  revert k. induction cols as [|c' cols IH]; intros k; simpl; [done|].
  case_bool_decide; [done|].
  destruct (find_col c cols) as [k'|]; simpl; [|done].
  intros [= <-]. by rewrite (IH k').
Qed.

Lemma find_col_app_r c cols :
  c ∉ cols -> find_col c (cols ++ [c]) = Some (length cols).
Proof.
  induction cols as [|c' cols IH]; simpl; intros Hc.
  - by rewrite bool_decide_eq_true_2.
  - apply not_elem_of_cons in Hc as [Hne Hc].
    rewrite bool_decide_eq_false_2 by done. by rewrite IH.
Qed.

Lemma find_col_lt c cols k : find_col c cols = Some k -> k < length cols.
Proof. intros ?%find_col_Some. by eapply lookup_lt_Some. Qed.

(** A cell read from a row that was computed label by label. *)
Lemma cell_of_map (f : string -> cell) cols c :
  c ∈ cols -> cell_of cols (f <$> cols) c = Some (f c).
Proof.
  intros [k Hk]%find_col_is_Some. unfold cell_of. rewrite Hk.
  f_equal. apply find_col_Some in Hk.
  apply nth_lookup_Some with (d := NaN).
  by rewrite list_lookup_fmap, Hk.
Qed.

(** ** Construction from an array *)

Lemma DataFrame_of_Return a cols df :
  DataFrame_of a cols = Return df ->
  klass df = PandasFrame /\ columns df = cols /\ nrows df = shape0 a /\
  row_index df = RangeIndex (shape0 a) /\ rectangular df.
Proof.
  unfold DataFrame_of. case_bool_decide as Hs; [|done].
  intros [= <-]. unfold nrows, row_index, rectangular, RangeIndex; simpl.
  rewrite length_fmap, length_seq, <- list_fmap_compose. repeat split; try done.
  apply Forall_forall. intros r [k [-> _]]%list_elem_of_fmap. simpl.
  by rewrite length_fmap, length_seq.
Qed.

Lemma DataFrame_of_lookup a cols df k :
  DataFrame_of a cols = Return df -> k < shape0 a ->
  shape1 a = length cols /\
  body df !! k = Some (Num (Z.of_nat k), item a k <$> seq 0 (shape1 a)).
Proof.
  unfold DataFrame_of. case_bool_decide as Hs; [|done].
  intros [= <-] Hk. split; [done|]. cbn [body].
  by rewrite list_lookup_fmap, lookup_seq_lt.
Qed.

(** ** Concatenation of columns *)

Lemma row_or_nan_length o k :
  rectangular o -> length (row_or_nan o k) = length (columns o).
Proof.
  intros Ho. unfold row_or_nan. destruct (body o !! k) as [r|] eqn:Hr.
  - eapply Forall_lookup_1 in Ho; eauto.
  - by rewrite length_replicate.
Qed.

Lemma concat_rows_length (objs : list DataFrame) k :
  Forall rectangular objs ->
  length (concat ((fun o => row_or_nan o k) <$> objs))
  = length (concat (columns <$> objs)).
Proof.
  induction 1 as [|o objs Ho _ IH]; [done|].
  rewrite !fmap_cons. simpl concat.
  by rewrite !length_app, row_or_nan_length, IH.
Qed.

Lemma concat_axis1_Return objs df :
  concat_axis1 objs = Return df ->
  columns df = concat (columns <$> objs) /\
  nrows df = max_list_with nrows objs /\
  row_index df = RangeIndex (max_list_with nrows objs) /\
  (Forall rectangular objs -> rectangular df).
Proof.
  unfold concat_axis1. destruct objs as [|o objs]; [done|].
  intros [= <-]. unfold nrows, row_index, rectangular, RangeIndex. simpl columns.
  cbn [body]. rewrite length_fmap, length_seq, <- list_fmap_compose. repeat split; try done.
  intros Hrect. apply Forall_forall.
  intros r [k [-> _]]%list_elem_of_fmap. cbn [snd].
  by apply (concat_rows_length (o :: objs)).
Qed.

Lemma concat_axis1_lookup objs df k :
  concat_axis1 objs = Return df -> k < max_list_with nrows objs ->
  body df !! k
  = Some (Num (Z.of_nat k), concat ((fun o => row_or_nan o k) <$> objs)).
Proof.
  unfold concat_axis1. destruct objs as [|o objs]; [done|].
  intros [= <-] Hk. cbn [body].
  by rewrite list_lookup_fmap, lookup_seq_lt.
Qed.

Lemma concat_axis1_klass o objs df :
  concat_axis1 (o :: objs) = Return df -> klass df = klass o.
Proof. by intros [= <-]. Qed.

(** ** Column assignment *)

Lemma columns_set_column df c vals :
  columns (set_column df c vals) = with_column c (columns df).
Proof. done. Qed.

Lemma elem_of_with_column c' c cols :
  c' ∈ with_column c cols <-> c' = c \/ c' ∈ cols.
Proof.
  unfold with_column. case_bool_decide.
  - split; [by right | by intros [->|?]].
  - rewrite elem_of_app, list_elem_of_singleton. tauto.
Qed.

Lemma replace_cells_length c v cols row :
  length (replace_cells c v cols row) = length row.
Proof.
  revert row. induction cols as [|c' cols IH]; intros [|x row]; simpl; auto.
Qed.

Lemma set_cell_length c v cols row :
  length row = length cols ->
  length (set_cell c v cols row) = length (with_column c cols).
Proof.
  intros Hlen. unfold set_cell, with_column. case_bool_decide.
  - by rewrite replace_cells_length.
  - rewrite !length_app. simpl. lia.
Qed.

Lemma nth_replace_cells_eq c v cols row k :
  find_col c cols = Some k -> k < length row ->
  nth k (replace_cells c v cols row) NaN = v.
Proof.
  revert row k. induction cols as [|c' cols IH]; intros row k; simpl; [done|].
  destruct row as [|x row]; simpl; [lia|].
  case_bool_decide.
  - by intros [= <-].
  - destruct (find_col c cols) as [k'|] eqn:Hk; simpl; [|done].
    intros [= <-] Hlt. simpl. apply IH; [done | lia].
Qed.

Lemma nth_replace_cells_ne c c' v cols row k :
  c' <> c -> find_col c' cols = Some k ->
  nth k (replace_cells c v cols row) NaN = nth k row NaN.
Proof.
  intros Hne. revert row k.
  induction cols as [|c'' cols IH]; intros row k; simpl; [done|].
  destruct row as [|x row]; simpl; [done|].
  case_bool_decide as Hc.
  - intros [= <-]. simpl. subst c''. by rewrite bool_decide_eq_false_2.
  - destruct (find_col c' cols) as [k'|] eqn:Hk; simpl; [|done].
    intros [= <-]. simpl. by apply IH.
Qed.

Lemma cell_of_set_cell_eq c v cols row :
  length row = length cols ->
  cell_of (with_column c cols) (set_cell c v cols row) c = Some v.
Proof.
  intros Hlen. unfold cell_of, set_cell, with_column. case_bool_decide as Hc.
  - apply find_col_is_Some in Hc as [k Hk]. rewrite Hk. f_equal.
    apply nth_replace_cells_eq; [done|].
    apply find_col_lt in Hk. lia.
  - rewrite find_col_app_r by done. f_equal.
    rewrite <- Hlen. rewrite nth_lookup, list_lookup_middle; done.
Qed.

Lemma cell_of_set_cell_ne c c' v cols row :
  c' <> c -> length row = length cols ->
  cell_of (with_column c cols) (set_cell c v cols row) c' = cell_of cols row c'.
Proof.
  intros Hne Hlen. unfold cell_of, set_cell, with_column. case_bool_decide as Hc.
  - destruct (find_col c' cols) as [k|] eqn:Hk; [|done].
    f_equal. by eapply nth_replace_cells_ne.
  - destruct (find_col c' cols) as [k|] eqn:Hk.
    + rewrite (find_col_app_l _ _ _ _ Hk). f_equal.
      apply find_col_lt in Hk.
      rewrite !nth_lookup, lookup_app_l; [done | lia].
    + apply find_col_None in Hk.
      assert (c' ∉ cols ++ [c]) as ->%find_col_None; [|done].
      rewrite elem_of_app, list_elem_of_singleton. tauto.
Qed.

Lemma lookup_set_column df c vals k r' :
  body (set_column df c vals) !! k = Some r' <->
  exists r v, body df !! k = Some r /\ vals !! k = Some v /\
              r' = (r.1, set_cell c v (columns df) r.2).
Proof.
  unfold set_column; simpl. rewrite lookup_zip_with_Some. split.
  - intros (r & v & -> & Hr & Hv). eauto.
  - intros (r & v & Hr & Hv & ->). eauto.
Qed.

Lemma nrows_set_column df c vals :
  length vals = nrows df -> nrows (set_column df c vals) = nrows df.
Proof.
  intros Hlen. unfold nrows, set_column; simpl.
  rewrite length_zip_with. unfold nrows in Hlen. lia.
Qed.

Lemma row_index_set_column df c vals :
  length vals = nrows df -> row_index (set_column df c vals) = row_index df.
Proof.
  intros Hlen. unfold row_index, set_column; simpl.
  unfold nrows in Hlen. revert vals Hlen.
  induction (body df) as [|r b IH]; intros [|v vals] Hlen; simpl in *; try done.
  f_equal. apply IH. lia.
Qed.

Lemma rectangular_set_column df c vals :
  rectangular df -> rectangular (set_column df c vals).
Proof.
  intros Hrect. unfold rectangular. rewrite columns_set_column.
  apply Forall_lookup. intros k r' (r & v & Hr & Hv & ->)%lookup_set_column.
  simpl. apply set_cell_length. by eapply (Forall_lookup_1 _ _ _ _ Hrect).
Qed.

(** ** The tag of the geometry column *)

Lemma with_tag_same df : with_tag df (geometry_crs df) = df.
Proof. by destruct df. Qed.

Lemma with_tag_twice df a b : with_tag (with_tag df a) b = with_tag df b.
Proof. done. Qed.

Lemma retag_with_tag df c tag :
  retag df c tag
  = with_tag df (if bool_decide (c = "geometry"%string) then tag else geometry_crs df).
Proof. unfold retag. case_bool_decide; [done | by rewrite with_tag_same]. Qed.

Lemma set_column_with_tag df tag c vals :
  set_column (with_tag df tag) c vals = with_tag (set_column df c vals) tag.
Proof. done. Qed.

Lemma columns_with_tag df tag : columns (with_tag df tag) = columns df.
Proof. done. Qed.

Lemma body_with_tag df tag : body (with_tag df tag) = body df.
Proof. done. Qed.

Lemma klass_with_tag df tag : klass (with_tag df tag) = klass df.
Proof. done. Qed.

Lemma nrows_with_tag df tag : nrows (with_tag df tag) = nrows df.
Proof. done. Qed.

Lemma row_index_with_tag df tag : row_index (with_tag df tag) = row_index df.
Proof. done. Qed.

Lemma rectangular_with_tag df tag : rectangular (with_tag df tag) <-> rectangular df.
Proof. done. Qed.

Lemma columns_retag df c tag : columns (retag df c tag) = columns df.
Proof. by rewrite retag_with_tag. Qed.

Lemma body_retag df c tag : body (retag df c tag) = body df.
Proof. by rewrite retag_with_tag. Qed.

Lemma klass_retag df c tag : klass (retag df c tag) = klass df.
Proof. by rewrite retag_with_tag. Qed.

Lemma column_crs_geometry df :
  "geometry"%string ∈ columns df -> column_crs df "geometry" = geometry_crs df.
Proof. intros Hin. unfold column_crs. by rewrite bool_decide_eq_true_2. Qed.

Lemma column_crs_other df c : c <> "geometry"%string -> column_crs df c = None.
Proof.
  intros Hne. unfold column_crs. rewrite bool_decide_eq_false_2; [done|].
  by intros [? _].
Qed.

(** ** Column selection and alignment *)

Lemma getitem_Return dup df c s :
  getitem dup df c = Return s ->
  exists k, find_col c (columns df) = Some k /\
            s = (fun r => (r.1, nth k r.2 NaN)) <$> body df.
Proof.
  unfold getitem.
  destruct (count_col c (columns df)) as [|[|n]] eqn:Hn,
           (find_col c (columns df)) as [k|] eqn:Hk; try done.
  intros [= <-]. eauto.
Qed.

Lemma getitem_index dup df c s :
  getitem dup df c = Return s -> fst <$> s = row_index df.
Proof.
  intros (k & _ & ->)%getitem_Return. unfold row_index.
  rewrite <- list_fmap_compose. done.
Qed.

Lemma getitem_length dup df c s :
  getitem dup df c = Return s -> length s = nrows df.
Proof.
  intros (k & _ & ->)%getitem_Return. by rewrite length_fmap.
Qed.

Lemma getitem_lookup dup df c s k r :
  getitem dup df c = Return s -> body df !! k = Some r ->
  exists v, cell_of (columns df) r.2 c = Some v /\ (snd <$> s) !! k = Some v.
Proof.
  intros (kc & Hkc & ->)%getitem_Return Hr. unfold cell_of. rewrite Hkc.
  eexists; split; [done|].
  by rewrite <- list_fmap_compose, list_lookup_fmap, Hr.
Qed.

Lemma ensure_valid_index_same df s :
  fst <$> s = row_index df -> ensure_valid_index df s = df.
Proof.
  unfold ensure_valid_index, row_index. destruct (body df), s; done.
Qed.

Lemma columns_ensure_valid_index df s :
  columns (ensure_valid_index df s) = columns df.
Proof. unfold ensure_valid_index. by destruct (body df), s. Qed.

Lemma align_same labels s :
  fst <$> s = labels -> align labels s = Return (snd <$> s).
Proof. intros Hs. unfold align. by rewrite bool_decide_eq_true_2. Qed.

End PandasFacts.

(** * The table of one period *)

Module ProfileFacts.
Import Pandas Py Harmonize Samples PandasFacts.

Lemma obind_Return {A B} (o : outcome A) (k : A -> outcome B) b :
  obind o k = Return b -> exists a, o = Return a /\ k a = Return b.
Proof. destruct o as [a|e]; simpl; [eauto | done]. Qed.

Ltac inv_obind H :=
  repeat match type of H with
  | obind _ _ = Return _ =>
      let a := fresh "a" in let Ha := fresh "Ha" in
      apply obind_Return in H as (a & Ha & H)
  end.

Lemma row_index_length df : length (row_index df) = nrows df.
Proof. unfold row_index, nrows. by rewrite length_fmap. Qed.

Lemma same_index_nrows a b : row_index a = row_index b -> nrows a = nrows b.
Proof. intros Hi. by rewrite <- !row_index_length, Hi. Qed.

Section attach.
Variables (index time_col : string).

Lemma attach_Return p0 t i v :
  row_index p0 = row_index t ->
  attach index time_col p0 t i = Return v ->
  exists dup g ident,
    getitem dup t "geometry" = Return g /\
    getitem dup t index = Return ident /\
    v = with_tag
          (set_column
             (set_column (set_column p0 "geometry" (snd <$> g)) index (snd <$> ident))
             time_col (replicate (nrows p0) i))
          (period_tag time_col t).
Proof.
  intros Hidx. unfold attach. intros H.
  apply obind_Return in H as (g & Hg & H).
  apply obind_Return in H as (p1 & Hp1 & H).
  apply obind_Return in H as (ident & Hident & H).
  apply obind_Return in H as (p2 & Hp2 & H).
  injection H as <-.
  unfold setitem_series in Hp1.
  rewrite ensure_valid_index_same, align_same in Hp1
    by (by rewrite (getitem_index _ _ _ _ Hg)).
  simpl in Hp1. injection Hp1 as <-.
  assert (length (snd <$> g) = nrows p0) as Hlen1.
  { rewrite length_fmap, (getitem_length _ _ _ _ Hg).
    symmetry. by apply same_index_nrows. }
  rewrite retag_with_tag in Hp2.
  unfold setitem_series in Hp2.
  rewrite ensure_valid_index_same, align_same in Hp2
    by (by rewrite (getitem_index _ _ _ _ Hident), row_index_with_tag,
          row_index_set_column).
  simpl in Hp2. injection Hp2 as <-.
  assert (length (snd <$> ident) = nrows p0) as Hlen2.
  { rewrite length_fmap, (getitem_length _ _ _ _ Hident).
    rewrite length_fmap, (getitem_length _ _ _ _ Hg) in Hlen1. done. }
  unfold setitem_scalar.
  rewrite !retag_with_tag, !set_column_with_tag, !with_tag_twice, nrows_with_tag.
  rewrite !nrows_set_column; [| done | by rewrite nrows_set_column].
  exists not_one_column, g, ident. split; [done|]. split; [done|].
  f_equal. cbn [geometry_crs with_tag]. unfold period_tag.
  repeat case_bool_decide; subst; done.
Qed.

Lemma attach_shape p0 t i v :
  row_index p0 = row_index t ->
  attach index time_col p0 t i = Return v ->
  nrows v = nrows t /\ row_index v = row_index t /\
  klass v = klass p0 /\
  columns v
  = with_column time_col (with_column index (with_column "geometry" (columns p0))) /\
  (rectangular p0 -> rectangular v).
Proof.
  intros Hidx Hv.
  destruct (attach_Return _ _ _ _ Hidx Hv) as (dup & g & ident & Hg & Hident & ->).
  assert (nrows p0 = nrows t) as Hn.
    by (by apply same_index_nrows).
  assert (length (snd <$> g) = nrows p0) as Hlen1
    by (by rewrite length_fmap, (getitem_length _ _ _ _ Hg)).
  assert (length (snd <$> ident) = nrows p0) as Hlen2
    by (by rewrite length_fmap, (getitem_length _ _ _ _ Hident)).
  rewrite nrows_with_tag, row_index_with_tag, klass_with_tag, columns_with_tag.
  repeat split.
  - rewrite !nrows_set_column; try done.
    + by rewrite nrows_set_column.
    + by rewrite length_replicate, !nrows_set_column by
        (try done; by rewrite nrows_set_column).
  - rewrite !row_index_set_column; try done.
    + by rewrite nrows_set_column.
    + by rewrite length_replicate, !nrows_set_column by
        (try done; by rewrite nrows_set_column).
  - intros Hrect. apply rectangular_with_tag. by do 3 apply rectangular_set_column.
Qed.

(** The columns after the three assignments, whatever the alignment. *)
Lemma attach_columns p0 t i v :
  attach index time_col p0 t i = Return v ->
  columns v
  = with_column time_col (with_column index (with_column "geometry" (columns p0))).
Proof.
  unfold attach, setitem_series. intros Hv.
  apply obind_Return in Hv as (g & _ & Hv).
  apply obind_Return in Hv as (p1 & Hp1 & Hv).
  apply obind_Return in Hv as (ident & _ & Hv).
  apply obind_Return in Hv as (p2 & Hp2 & [= <-]).
  apply obind_Return in Hp1 as (vals1 & _ & [= <-]).
  apply obind_Return in Hp2 as (vals2 & _ & [= <-]).
  unfold setitem_scalar.
  by repeat first [ rewrite columns_retag | rewrite columns_set_column
                  | rewrite columns_ensure_valid_index ].
Qed.

(** The tag of the geometry column after the three assignments,
    whatever the alignment. *)
Lemma geometry_crs_ensure_valid_index df s :
  geometry_crs (ensure_valid_index df s) = geometry_crs df.
Proof. unfold ensure_valid_index. by destruct (body df), s. Qed.

Lemma attach_tag p0 t i v :
  attach index time_col p0 t i = Return v ->
  geometry_crs v = period_tag time_col t.
Proof.
  unfold attach, setitem_series. intros Hv.
  apply obind_Return in Hv as (g & _ & Hv).
  apply obind_Return in Hv as (p1 & Hp1 & Hv).
  apply obind_Return in Hv as (ident & _ & Hv).
  apply obind_Return in Hv as (p2 & Hp2 & [= <-]).
  apply obind_Return in Hp1 as (vals1 & _ & [= <-]).
  apply obind_Return in Hp2 as (vals2 & _ & [= <-]).
  unfold setitem_scalar, period_tag. rewrite !retag_with_tag.
  cbn [geometry_crs with_tag set_column].
  rewrite !geometry_crs_ensure_valid_index. cbn [geometry_crs with_tag set_column].
  repeat case_bool_decide; subst; done.
Qed.

(** Row by row, the attached table carries the target table. *)
Lemma attach_carries p0 t i v k r :
  time_col <> "geometry"%string -> time_col <> index ->
  row_index p0 = row_index t -> rectangular p0 ->
  attach index time_col p0 t i = Return v ->
  body t !! k = Some r ->
  exists r', body v !! k = Some r' /\
             carries index time_col (columns t) (columns v) i r r'.
Proof.
  intros Hne1 Hne2 Hidx Hrect Hv Hr.
  destruct (attach_Return _ _ _ _ Hidx Hv) as (dup & g & ident & Hg & Hident & ->).
  destruct (getitem_lookup _ _ _ _ _ _ Hg Hr) as (vg & Hcg & Hvg).
  destruct (getitem_lookup _ _ _ _ _ _ Hident Hr) as (vi & Hci & Hvi).
  assert (nrows p0 = nrows t) as Hn.
    by (by apply same_index_nrows).
  assert (exists r0, body p0 !! k = Some r0 /\ r0.1 = r.1) as (r0 & Hr0 & Hl0).
  { assert (row_index p0 !! k = Some r.1) as Hl
      by (by rewrite Hidx; unfold row_index; rewrite list_lookup_fmap, Hr).
    unfold row_index in Hl. rewrite list_lookup_fmap in Hl.
    destruct (body p0 !! k) as [r0|]; [|done]. injection Hl as Hl. eauto. }
  assert (length r0.2 = length (columns p0)) as Hlen0
    by (by eapply (Forall_lookup_1 _ _ _ _ Hrect)).
  set (c1 := with_column "geometry" (columns p0)).
  set (c2 := with_column index c1).
  set (row1 := set_cell "geometry" vg (columns p0) r0.2).
  set (row2 := set_cell index vi c1 row1).
  set (row3 := set_cell time_col i c2 row2).
  assert (length row1 = length c1) as Hlen1 by (by apply set_cell_length).
  assert (length row2 = length c2) as Hlen2 by (by apply set_cell_length).
  exists (r0.1, row3). split.
  { rewrite body_with_tag. apply lookup_set_column. exists (r0.1, row2), i. split; [|split; [|done]].
    - apply lookup_set_column. exists (r0.1, row1), vi. split; [|done].
      apply lookup_set_column. exists r0, vg. done.
    - apply lookup_replicate_2. rewrite Hn. by eapply lookup_lt_Some. }
  unfold carries. rewrite columns_with_tag, !columns_set_column. fold c1 c2.
  cbn [fst snd]. rewrite Hcg, Hci. subst row3.
  repeat split.
  - done.
  - by eexists.
  - rewrite cell_of_set_cell_ne by done. subst row2.
    destruct (decide (index = "geometry"%string)) as [Heq|Hne].
    + subst c2. rewrite Heq in *. rewrite cell_of_set_cell_eq by done. congruence.
    + subst c2. rewrite cell_of_set_cell_ne by congruence. subst row1 c1.
      by rewrite cell_of_set_cell_eq.
  - by eexists.
  - rewrite cell_of_set_cell_ne by congruence. subst row2 c2.
    by rewrite cell_of_set_cell_eq.
  - by rewrite cell_of_set_cell_eq.
Qed.

(** Row by row, the attached table has the labels of the target table
    and the period in the period column, whatever the names of the
    columns. *)
Lemma attach_period p0 t i v k r :
  row_index p0 = row_index t -> rectangular p0 ->
  attach index time_col p0 t i = Return v ->
  body t !! k = Some r ->
  exists r', body v !! k = Some r' /\ r'.1 = r.1 /\
             cell_of (columns v) r'.2 time_col = Some i.
Proof.
  intros Hidx Hrect Hv Hr.
  destruct (attach_Return _ _ _ _ Hidx Hv) as (dup & g & ident & Hg & Hident & ->).
  destruct (getitem_lookup _ _ _ _ _ _ Hg Hr) as (vg & Hcg & Hvg).
  destruct (getitem_lookup _ _ _ _ _ _ Hident Hr) as (vi & Hci & Hvi).
  assert (nrows p0 = nrows t) as Hn.
    by (by apply same_index_nrows).
  assert (exists r0, body p0 !! k = Some r0 /\ r0.1 = r.1) as (r0 & Hr0 & Hl0).
  { assert (row_index p0 !! k = Some r.1) as Hl
      by (by rewrite Hidx; unfold row_index; rewrite list_lookup_fmap, Hr).
    unfold row_index in Hl. rewrite list_lookup_fmap in Hl.
    destruct (body p0 !! k) as [r0|]; [|done]. injection Hl as Hl. eauto. }
  assert (length r0.2 = length (columns p0)) as Hlen0
    by (by eapply (Forall_lookup_1 _ _ _ _ Hrect)).
  set (c1 := with_column "geometry" (columns p0)).
  set (c2 := with_column index c1).
  set (row1 := set_cell "geometry" vg (columns p0) r0.2).
  set (row2 := set_cell index vi c1 row1).
  set (row3 := set_cell time_col i c2 row2).
  assert (length row1 = length c1) as Hlen1 by (by apply set_cell_length).
  assert (length row2 = length c2) as Hlen2 by (by apply set_cell_length).
  exists (r0.1, row3). split; [|split; [done|]].
  { rewrite body_with_tag. apply lookup_set_column.
    exists (r0.1, row2), i. split; [|split; [|done]].
    - apply lookup_set_column. exists (r0.1, row1), vi. split; [|done].
      apply lookup_set_column. exists r0, vg. done.
    - apply lookup_replicate_2. rewrite Hn. by eapply lookup_lt_Some. }
  rewrite columns_with_tag, !columns_set_column. fold c1 c2.
  cbn [snd]. subst row3. by rewrite cell_of_set_cell_eq.
Qed.

End attach.

(** The three ways [build_profile] returns. *)
Lemma build_profile_Return ext int interp p :
  build_profile ext int interp = Return p ->
  exists ev iv a0 a1,
    ext = Some ev /\ int = Some iv /\ interp = Some (a0, a1) /\
    ((ev <> [] /\ iv = [] /\ exists e,
        DataFrame_of a0 ev = Return e /\ concat_axis1 [e] = Return p) \/
     (ev = [] /\ iv <> [] /\ exists w,
        DataFrame_of a1 ev = Return w /\ concat_axis1 [w] = Return p) \/
     (ev <> [] /\ iv <> [] /\ exists e w,
        DataFrame_of a0 ev = Return e /\ DataFrame_of a1 ev = Return w /\
        concat_axis1 [e; w] = Return p)).
Proof.
  unfold build_profile. destruct ext as [ev|]; [|done].
  destruct int as [iv|]; simpl.
  2: { destruct (bool_decide (0 < length ev)); [|done].
       destruct interp as [it|]; simpl; [|done].
       by destruct (DataFrame_of it.1 ev). }
  destruct ev as [|x ev], iv as [|y iv]; simpl.
  - done.
  - destruct interp as [[a0 a1]|]; simpl; [|done].
    destruct (DataFrame_of a1 []) as [w|] eqn:Hw; simpl; [|done].
    intros Hp. exists [], (y :: iv), a0, a1. repeat split.
    right; left. repeat split; [done|]. eauto.
  - destruct interp as [[a0 a1]|]; simpl; [|done].
    destruct (DataFrame_of a0 (x :: ev)) as [e|] eqn:He; simpl; [|done].
    intros Hp. exists (x :: ev), [], a0, a1. repeat split.
    left. repeat split; [done|]. eauto.
  - destruct interp as [[a0 a1]|]; simpl; [|done].
    destruct (DataFrame_of a0 (x :: ev)) as [e|] eqn:He; simpl; [|done].
    destruct (DataFrame_of a1 (x :: ev)) as [w|] eqn:Hw; simpl; [|done].
    intros Hp. exists (x :: ev), (y :: iv), a0, a1. repeat split.
    right; right. repeat split; [done..|]. eauto.
Qed.

(** Shape of the table of one period before the target columns are
    attached. *)
Lemma build_profile_shape ext int interp p :
  build_profile ext int interp = Return p ->
  klass p = PandasFrame /\ rectangular p /\
  row_index p = RangeIndex (nrows p) /\
  (forall c, c ∈ columns p -> c ∈ names ext) /\
  exists a0 a1, interp = Some (a0, a1) /\
    forall n, (names ext <> [] -> shape0 a0 = n) ->
              (names int <> [] -> shape0 a1 = n) -> nrows p = n.
Proof.
  intros (ev & iv & a0 & a1 & -> & -> & -> & Hcase)%build_profile_Return.
  simpl.
  destruct Hcase as [(Hev & -> & e & He & Hp)|[(-> & Hiv & w & Hw & Hp)|
                     (Hev & Hiv & e & w & He & Hw & Hp)]].
  - apply DataFrame_of_Return in He as (Hk & Hc & Hn & Hi & Hr).
    pose proof (concat_axis1_klass _ _ _ Hp) as Hpk.
    apply concat_axis1_Return in Hp as (Hpc & Hpn & Hpi & Hpr).
    simpl in *. rewrite Nat.max_0_r in *. repeat split.
    + congruence.
    + apply Hpr. by repeat constructor.
    + by rewrite Hpi, Hpn.
    + intros c. rewrite Hpc, app_nil_r, Hc. done.
    + exists a0, a1. split; [done|]. intros n Hn0 _. rewrite <- (Hn0 Hev). congruence.
  - apply DataFrame_of_Return in Hw as (Hk & Hc & Hn & Hi & Hr).
    pose proof (concat_axis1_klass _ _ _ Hp) as Hpk.
    apply concat_axis1_Return in Hp as (Hpc & Hpn & Hpi & Hpr).
    simpl in *. rewrite Nat.max_0_r in *. repeat split.
    + congruence.
    + apply Hpr. by repeat constructor.
    + by rewrite Hpi, Hpn.
    + intros c. rewrite Hpc, app_nil_r, Hc. done.
    + exists a0, a1. split; [done|]. intros n _ Hn1. rewrite <- (Hn1 Hiv). congruence.
  - apply DataFrame_of_Return in He as (Hk & Hc & Hn & Hi & Hr).
    apply DataFrame_of_Return in Hw as (Hk' & Hc' & Hn' & Hi' & Hr').
    pose proof (concat_axis1_klass _ _ _ Hp) as Hpk.
    apply concat_axis1_Return in Hp as (Hpc & Hpn & Hpi & Hpr).
    simpl in *. rewrite Nat.max_0_r in *. repeat split.
    + congruence.
    + apply Hpr. by repeat constructor.
    + by rewrite Hpi, Hpn.
    + intros c. rewrite Hpc, app_nil_r, Hc, Hc', elem_of_app. tauto.
    + exists a0, a1. split; [done|]. intros n Hn0 Hn1.
      specialize (Hn0 Hev). specialize (Hn1 Hiv). lia.
Qed.

End ProfileFacts.

(** * Running the monad *)

Module PyFacts.
Import Pandas Py Harmonize Samples PandasFacts ProfileFacts.

Lemma bind_Return {A B} (m : M A) (k : A -> M B) st b st' :
  bind m k st = (Return b, st') ->
  exists a st1, m st = (Return a, st1) /\ k a st1 = (Return b, st').
Proof.
  unfold bind. destruct (m st) as [[a|e] st1]; [eauto | done].
Qed.

Lemma ret_Return {A} (a b : A) st st' :
  ret a st = (Return b, st') -> b = a /\ st' = st.
Proof. by intros [= <- <-]. Qed.

Lemma lift_Return {A} (o : outcome A) a st st' :
  lift o st = (Return a, st') -> o = Return a /\ st' = st.
Proof. by intros [= -> <-]. Qed.

Lemma read_Return r df st st' :
  read r st = (Return df, st') -> heap st !! r = Some df /\ st' = st.
Proof.
  unfold read. destruct (heap st !! r); [|done]. by intros [= <- <-].
Qed.

Lemma new_Return df r st st' :
  new df st = (Return r, st') ->
  r = length (heap st) /\
  st' = {| heap := heap st ++ [df]; calls := calls st |}.
Proof. by intros [= <- <-]. Qed.

Lemma invoke_Return {A} who
    (f : DataFrame -> DataFrame -> outcome A * DataFrame * DataFrame)
    source target a st st' :
  invoke who f source target st = (Return a, st') ->
  exists s t s' t',
    heap st !! source = Some s /\ heap st !! target = Some t /\
    f s t = (Return a, s', t') /\
    st' = {| heap := <[target := t']> (<[source := s']> (heap st));
             calls := calls st ++ [mkCall who source target] |}.
Proof.
  unfold invoke.
  destruct (heap st !! source) as [s|]; [|done].
  destruct (heap st !! target) as [t|]; [|done].
  destruct (f s t) as [[r s'] t'] eqn:Hf.
  intros [= -> <-]. eauto 10.
Qed.

(** Running a computation forward. *)
Lemma bind_Return_eq {A B} (m : M A) (k : A -> M B) st a st' :
  m st = (Return a, st') -> bind m k st = k a st'.
Proof. unfold bind. by intros ->. Qed.

Lemma bind_Raise_eq {A B} (m : M A) (k : A -> M B) st e st' :
  m st = (Raise e, st') -> bind m k st = (Raise e, st').
Proof. unfold bind. by intros ->. Qed.

Lemma read_eq r df st : heap st !! r = Some df -> read r st = (Return df, st).
Proof. unfold read. by intros ->. Qed.

Lemma lift_eq {A} (o : outcome A) st : lift o st = (o, st).
Proof. done. Qed.

Lemma new_eq df st :
  new df st = (Return (length (heap st)),
               {| heap := heap st ++ [df]; calls := calls st |}).
Proof. done. Qed.

(** [forward tac]: run the first computation of a sequence, [tac] proving
    what it returns. *)
Ltac forward tac := erewrite bind_Return_eq; [|solve [tac]].

(** Stepping through a computation that returned. *)
Ltac step H :=
  match type of H with
  | bind _ _ _ = (Return _, _) =>
      let a := fresh "a" in let st := fresh "st" in let Hm := fresh "Hm" in
      apply bind_Return in H as (a & st & Hm & H)
  | ret _ _ = (Return _, _) =>
      apply ret_Return in H as [? ?]; subst
  | lift _ _ = (Return _, _) =>
      apply lift_Return in H as [H ?]; subst
  | read _ _ = (Return _, _) =>
      apply read_Return in H as [H ?]; subst
  | new _ _ = (Return _, _) =>
      apply new_Return in H as [? ?]; subst
  | raise _ _ = (Return _, _) => discriminate H
  end.

Ltac steps :=
  repeat match goal with
  | H : bind _ _ _ = (Return _, _) |- _ =>
      let Hm := fresh "Hm" in apply bind_Return in H as (? & ? & Hm & H)
  | H : ret _ _ = (Return _, _) |- _ => apply ret_Return in H as [? ?]; subst
  | H : lift _ _ = (Return _, _) |- _ => apply lift_Return in H as [H ?]; subst
  | H : read _ _ = (Return _, _) |- _ => apply read_Return in H as [H ?]; subst
  | H : new _ _ = (Return _, _) |- _ => apply new_Return in H as [? ?]; subst
  | H : raise _ _ = (Return _, _) |- _ => discriminate H
  | H : invoke _ _ _ _ _ = (Return _, _) |- _ =>
      let Hf := fresh "Hcall" in
      apply invoke_Return in H as (? & ? & ? & ? & ? & ? & Hf & ?); subst
  end.

(** Look-ups in a heap that grew and was written to. *)
Ltac heap_side := rewrite ?length_insert, ?length_app; simpl; first [done | lia].

Ltac heap_norm :=
  repeat match goal with
  | H : context [ <[_ := _]> _ !! _ ] |- _ =>
      first [ rewrite list_lookup_insert_ne in H by heap_side
            | rewrite list_lookup_insert_eq in H by heap_side ]
  | H : context [ (_ ++ [_]) !! _ ] |- _ =>
      first [ rewrite lookup_app_l in H by heap_side
            | rewrite list_lookup_middle in H by heap_side ]
  | |- context [ <[_ := _]> _ !! _ ] =>
      first [ rewrite list_lookup_insert_ne by heap_side
            | rewrite list_lookup_insert_eq by heap_side ]
  | |- context [ (_ ++ [_]) !! _ ] =>
      first [ rewrite lookup_app_l by heap_side
            | rewrite list_lookup_middle by heap_side ]
  end.

Ltac same_lookups :=
  repeat match goal with
  | H : Some ?x = Some ?y |- _ =>
      injection H as H; first [subst y | subst x | idtac]
  | H : ?x = ?x |- _ => clear H
  | H1 : ?a = Some ?x, H2 : ?a = Some ?y |- _ => rewrite H1 in H2
  end.

(** An invariant carried through a loop that returned. *)
Lemma for_in_invariant {A S} (I : list A -> S -> state -> Prop)
    (body : A -> S -> M S) total :
  (forall done x rest s st s' st',
      total = done ++ x :: rest ->
      I done s st -> body x s st = (Return s', st') -> I (done ++ [x]) s' st') ->
  forall l done s st s' st',
    total = done ++ l ->
    I done s st -> for_in l body s st = (Return s', st') -> I total s' st'.
Proof.
  intros Hbody. induction l as [|x l IH]; intros done s st s' st' Htot HI; simpl.
  - intros [-> ->]%ret_Return. by rewrite Htot, app_nil_r.
  - intros (s1 & st1 & Hx & Hl)%bind_Return.
    eapply (IH (done ++ [x])); [|by eapply Hbody|done].
    by rewrite Htot, <- app_assoc.
Qed.

End PyFacts.

(** * One iteration of the loop *)

Module LoopFacts.
Import Pandas Py Harmonize Samples PandasFacts ProfileFacts PyFacts.

Section iteration.
Context {P : Primitives} {O : Objects}.
Variables (weights_method : string)
          (extensive_variables intensive_variables : option (list string))
          (allocate_total : bool) (raster_path : option string)
          (codes : list Z) (force_crs_match : bool)
          (index time_col : string).

Abbreviation interpolate_period :=
  (interpolate_period weights_method extensive_variables intensive_variables
     allocate_total raster_path codes force_crs_match index time_col).

Abbreviation aligned := (aligned extensive_variables intensive_variables).

(** What an iteration that returned has done to the locals. *)
Lemma interpolate_period_Return dfs target_df i loc st loc' st' :
  interpolate_period dfs target_df i loc st = (Return loc', st') ->
  exists t' p0 v,
    heap st' !! target_df = Some t' /\
    build_profile extensive_variables intensive_variables (interpolation loc')
      = Return p0 /\
    attach index time_col p0 t' i = Return v /\
    interpolated_dfs loc' = dict_set i v (interpolated_dfs loc).
Proof.
  unfold interpolate_period. intros Hrun.
  steps. eauto 10.
Qed.

(** Under the contract of the collaborators, and with an interpolation
    that gives back the target table it was handed at line 164, an
    iteration leaves [dfs] and [target_df] as they were, and its arrays
    are row-aligned. *)
Lemma interpolate_period_contract {C : Contract} dfs target_df d t i loc st loc' st' :
  target_kept weights_method ->
  dfs <> target_df ->
  heap st !! dfs = Some d -> heap st !! target_df = Some t ->
  aligned t (interpolation loc) ->
  interpolate_period dfs target_df i loc st = (Return loc', st') ->
  heap st' !! dfs = Some d /\ heap st' !! target_df = Some t /\
  aligned t (interpolation loc') /\
  exists p0 v,
    build_profile extensive_variables intensive_variables (interpolation loc')
      = Return p0 /\
    attach index time_col p0 t i = Return v /\
    interpolated_dfs loc' = dict_set i v (interpolated_dfs loc).
Proof.
  intros Hkeep Hne Hd Ht Hal. unfold interpolate_period. intros Hrun.
  pose proof (lookup_lt_Some _ _ _ Hd) as Hdlt.
  pose proof (lookup_lt_Some _ _ _ Ht) as Htlt.
  destruct (decide (weights_method = "area"%string)) as [Ha|Ha];
    destruct (decide (weights_method = "land_type_area"%string)) as [Hl|Hl].
  - congruence.
  - rewrite (bool_decide_eq_true_2 _ Ha), (bool_decide_eq_false_2 _ Hl) in Hrun.
    steps. simpl in *. heap_norm. same_lookups.
    apply binning_aligned in Hcall as [Hf1 Hf2].
    repeat split; eauto.
  - rewrite (bool_decide_eq_false_2 _ Ha), (bool_decide_eq_true_2 _ Hl) in Hrun.
    pose proof (Hkeep Hl) as Hkept.
    steps. simpl in *. heap_norm. same_lookups.
    pose proof (Hkept _ _ _ _ _ _ _ _ _ Hcall) as ->.
    apply interpolate_aligned in Hcall as [Hf1 Hf2].
    repeat split; eauto.
  - rewrite (bool_decide_eq_false_2 _ Ha), (bool_decide_eq_false_2 _ Hl) in Hrun.
    steps. simpl in *. heap_norm. same_lookups.
    repeat split; eauto.
Qed.

(** The same without the contract: an iteration whose interpolation
    gives back the target table it was handed at line 164 leaves [dfs]
    and [target_df] as they were. *)
Lemma interpolate_period_kept dfs target_df d t i loc st loc' st' :
  target_kept weights_method ->
  dfs <> target_df ->
  heap st !! dfs = Some d -> heap st !! target_df = Some t ->
  interpolate_period dfs target_df i loc st = (Return loc', st') ->
  heap st' !! dfs = Some d /\ heap st' !! target_df = Some t /\
  exists p0 v,
    build_profile extensive_variables intensive_variables (interpolation loc')
      = Return p0 /\
    attach index time_col p0 t i = Return v /\
    interpolated_dfs loc' = dict_set i v (interpolated_dfs loc).
Proof.
  intros Hkeep Hne Hd Ht. unfold interpolate_period. intros Hrun.
  pose proof (lookup_lt_Some _ _ _ Hd) as Hdlt.
  pose proof (lookup_lt_Some _ _ _ Ht) as Htlt.
  destruct (decide (weights_method = "area"%string)) as [Ha|Ha];
    destruct (decide (weights_method = "land_type_area"%string)) as [Hl|Hl].
  - congruence.
  - rewrite (bool_decide_eq_true_2 _ Ha), (bool_decide_eq_false_2 _ Hl) in Hrun.
    steps. simpl in *. heap_norm. same_lookups.
    repeat split; eauto.
  - rewrite (bool_decide_eq_false_2 _ Ha), (bool_decide_eq_true_2 _ Hl) in Hrun.
    pose proof (Hkeep Hl) as Hkept.
    steps. simpl in *. heap_norm. same_lookups.
    pose proof (Hkept _ _ _ _ _ _ _ _ _ Hcall) as ->.
    repeat split; eauto.
  - rewrite (bool_decide_eq_false_2 _ Ha), (bool_decide_eq_false_2 _ Hl) in Hrun.
    steps. simpl in *. heap_norm. same_lookups.
    repeat split; eauto.
Qed.

End iteration.

End LoopFacts.

(** * The dictionary of period tables *)

Module DictFacts.
Import Pandas Py Harmonize Samples PandasFacts ProfileFacts PyFacts LoopFacts.

Lemma cell_eqb_sym a b : cell_eqb a b = cell_eqb b a.
Proof.
  destruct a, b; simpl; try done;
    apply bool_decide_ext; split; congruence.
Qed.

Lemma first_occurrences_spec {A} `{EqDecision A} (seen l : list A) :
  NoDup (first_occurrences seen l) /\
  forall x, x ∈ first_occurrences seen l <-> x ∈ l /\ x ∉ seen.
Proof.
  revert seen. induction l as [|y l IH]; intros seen; simpl.
  - split; [constructor|]. intros x. rewrite elem_of_nil. tauto.
  - case_bool_decide as Hy.
    + destruct (IH seen) as [Hnd Hin]. split; [done|].
      intros x. rewrite Hin, elem_of_cons.
      split; [tauto|]. intros [[->|?] ?]; tauto.
    + destruct (IH (y :: seen)) as [Hnd Hin]. split.
      * constructor; [|done]. rewrite Hin, elem_of_cons. tauto.
      * intros x. rewrite !elem_of_cons, Hin, elem_of_cons.
        destruct (decide (x = y)) as [->|]; tauto.
Qed.

Lemma NoDup_unique s : NoDup (unique s).
Proof. apply first_occurrences_spec. Qed.

(** Keys that match are one value; a key that is not a missing value is
    matched by [==]. *)
Lemma key_eqb_eq {O : Objects} a b : key_eqb a b = true -> a = b.
Proof.
  unfold key_eqb. intros [H|H]%orb_true_iff; [by apply cell_eqb_eq|].
  apply andb_true_iff in H as [[Ha Hb]%andb_true_iff _].
  apply bool_decide_eq_true in Ha, Hb. congruence.
Qed.

Lemma key_eqb_not_missing {O : Objects} a b : a <> NaN -> key_eqb a b = cell_eqb a b.
Proof.
  intros Ha. unfold key_eqb. rewrite (bool_decide_eq_false_2 _ Ha). simpl.
  apply orb_false_r.
Qed.

Lemma cell_eqb_not_missing a b : cell_eqb a b = true -> a <> NaN /\ b <> NaN.
Proof. by destruct a, b. Qed.

Section dict.
Context {O : Objects} {V : Type}.
Variables (Q : cell -> V -> Prop) (target_year : cell) (seed : V).

Abbreviation dict_inv := (dict_inv Q target_year seed).

Lemma dict_inv_init : dict_inv [] (dict_set target_year seed []).
Proof. exists seed, []. by repeat split. Qed.

Lemma dict_set_fresh i v (d : list (cell * V)) :
  (forall k, k ∈ fst <$> d -> key_eqb k i = false) ->
  dict_set i v d = d ++ [(i, v)].
Proof.
  induction d as [|[k w] d IH]; simpl; intros Hk; [done|].
  rewrite (Hk k) by left. f_equal. apply IH.
  intros k' Hk'. apply Hk. by right.
Qed.

Lemma dict_inv_step done i v d :
  NoDup (done ++ [i]) -> dict_inv done d -> Q i v ->
  dict_inv (done ++ [i]) (dict_set i v d).
Proof.
  intros Hnd (v0 & rest & -> & Hkeys & Hrest & Hv0) Hv.
  apply NoDup_app in Hnd as (_ & Hfresh & _).
  simpl. destruct (key_eqb target_year i) eqn:Hi.
  - exists v, rest. repeat split; [|done|].
    + rewrite filter_app, Hkeys, filter_cons_False, filter_nil, app_nil_r; [done|].
      by rewrite Hi.
    + rewrite existsb_app. simpl. rewrite Hi, orb_true_r.
      by apply key_eqb_eq in Hi as ->.
  - exists v0, (rest ++ [(i, v)]). repeat split.
    + f_equal. apply dict_set_fresh. intros k Hk.
      destruct (key_eqb k i) eqn:Hki; [|done].
      apply key_eqb_eq in Hki as ->.
      rewrite Hkeys in Hk. apply list_elem_of_filter in Hk as [_ Hk].
      exfalso. eapply Hfresh; [done|]. left.
    + by rewrite fmap_app, filter_app, Hkeys, filter_cons_True, filter_nil.
    + apply Forall_app. split; [done|]. by repeat constructor.
    + rewrite existsb_app. simpl. by rewrite Hi, !orb_false_r.
Qed.

(** Exactly one period of a duplicate-free list is the target. *)
Lemma length_others (times : list cell) :
  NoDup times -> (exists p, p ∈ times /\ cell_eqb p target_year = true) ->
  S (length (filter (fun p => cell_eqb target_year p = false) times))
  = length times.
Proof.
  intros Hnd (p & Hp & Heq).
  assert (cell_eqb p p = true) as Hpp
    by (destruct p; simpl in *; try done; by apply bool_decide_eq_true).
  apply cell_eqb_eq in Heq as <-.
  revert Hnd Hp. induction times as [|q times IH]; intros Hnd Hp.
  - by apply elem_of_nil in Hp.
  - apply NoDup_cons in Hnd as [Hq Hnd]. simpl length.
    destruct (decide (q = p)) as [->|Hne].
    + rewrite filter_cons_False by (by rewrite Hpp). f_equal.
      clear IH Hp. induction times as [|q times IH]; [done|].
      apply not_elem_of_cons in Hq as [Hne Hq].
      apply NoDup_cons in Hnd as [_ Hnd].
      rewrite filter_cons_True; [simpl; f_equal; by apply IH|].
      destruct (cell_eqb p q) eqn:E; [|done]. by apply cell_eqb_eq in E.
    + rewrite filter_cons_True.
      * simpl. f_equal. apply IH; [done|].
        apply elem_of_cons in Hp as [->|]; done.
      * destruct (cell_eqb p q) eqn:E; [|done]. by apply cell_eqb_eq in E.
Qed.

(** When the target period is among the periods, it is no missing
    value, and the keys are told apart by [==]. *)
Lemma filter_keys (times : list cell) :
  (exists p, p ∈ times /\ cell_eqb p target_year = true) ->
  filter (fun p => key_eqb target_year p = false) times
  = filter (fun p => cell_eqb target_year p = false) times /\
  existsb (key_eqb target_year) times = true.
Proof.
  intros (p & Hp & Heq).
  destruct (cell_eqb_not_missing _ _ Heq) as [_ Hty].
  split.
  - apply list_filter_iff. intros q. by rewrite key_eqb_not_missing.
  - apply existsb_exists. exists p. split; [by apply list_elem_of_In|].
    rewrite key_eqb_not_missing by done. by rewrite cell_eqb_sym.
Qed.

End dict.

End DictFacts.

(** * Concatenation of rows *)

Module ConcatFacts.
Import Pandas Py Harmonize Samples PandasFacts ProfileFacts PyFacts LoopFacts DictFacts.

Lemma insert_sorted_perm x l : insert_sorted x l ≡ₚ x :: l.
Proof.
  induction l as [|y l IH]; simpl; [done|].
  destruct (String.leb x y); [done|].
  by rewrite IH, Permutation_swap.
Qed.

Lemma sort_labels_perm l : sort_labels l ≡ₚ l.
Proof.
  induction l as [|x l IH]; simpl; [done|].
  by rewrite insert_sorted_perm, IH.
Qed.

Lemma elem_of_union_columns objs c :
  c ∈ union_columns objs <-> exists o, o ∈ objs /\ c ∈ columns o.
Proof.
  unfold union_columns. destruct objs as [|o rest].
  { split; [by intros ?%elem_of_nil | by intros (? & ?%elem_of_nil & _)]. }
  destruct (forallb _ rest) eqn:Hall.
  - split.
    + intros Hc. exists o. split; [left | done].
    + intros (o' & [->|Ho']%elem_of_cons & Hc); [done|].
      rewrite forallb_forall in Hall.
      apply list_elem_of_In, Hall, bool_decide_eq_true in Ho'. congruence.
  - rewrite (proj2 (first_occurrences_spec [] _)), list_elem_of_In, in_concat.
    split.
    + intros [(cols & Hcols & Hc) _].
      apply list_elem_of_In, list_elem_of_fmap in Hcols as (o' & -> & Ho').
      exists o'. split; [done | by apply list_elem_of_In].
    + intros (o' & Ho' & Hc). split; [|by intros ?%elem_of_nil].
      exists (columns o'). split.
      * by apply list_elem_of_In, list_elem_of_fmap_2.
      * by apply list_elem_of_In.
Qed.

Lemma elem_of_combined_columns objs sort c :
  c ∈ combined_columns objs sort <-> exists o, o ∈ objs /\ c ∈ columns o.
Proof.
  unfold combined_columns. destruct sort; [|apply elem_of_union_columns].
  by rewrite sort_labels_perm, elem_of_union_columns.
Qed.

Lemma reindex_columns_Return new_cols o b :
  reindex_columns new_cols o = Return b ->
  length b = nrows o /\
  forall k r, body o !! k = Some r ->
    exists r', b !! k = Some r' /\ r'.1 = r.1 /\
      forall c, c ∈ columns o -> c ∈ new_cols ->
                cell_of new_cols r'.2 c = cell_of (columns o) r.2 c.
Proof.
  unfold reindex_columns. case_bool_decide as Hsame.
  - intros [= <-]. split; [done|]. intros k r Hr. exists r. by rewrite Hsame.
  - case_bool_decide; [|done]. intros [= <-]. split; [by rewrite length_fmap|].
    intros k r Hr. eexists. rewrite list_lookup_fmap, Hr. cbn [fmap option_fmap option_map fst snd].
    split; [done|]. split; [done|]. intros c Hc Hnew.
    unfold reindex_row. cbn [snd]. rewrite cell_of_map by done.
    apply find_col_is_Some in Hc as [kc Hkc]. unfold cell_of. by rewrite Hkc.
Qed.

(** A column of the union that a table lacks is filled with missing
    values. *)
Lemma reindex_columns_missing new_cols o b k r' c :
  reindex_columns new_cols o = Return b ->
  b !! k = Some r' -> c ∈ new_cols -> c ∉ columns o ->
  cell_of new_cols r'.2 c = Some NaN.
Proof.
  unfold reindex_columns. case_bool_decide as Hsame.
  { intros _ _ Hc Hnc. by rewrite Hsame in Hnc. }
  case_bool_decide; [|done]. intros [= <-] Hr' Hc Hnc.
  rewrite list_lookup_fmap in Hr'.
  destruct (body o !! k) as [r|]; [|done]. injection Hr' as <-. cbn [snd].
  unfold reindex_row. rewrite cell_of_map by done.
  apply find_col_None in Hnc. unfold cell_of. by rewrite Hnc.
Qed.

Lemma concat_bodies_Return new_cols objs b :
  concat_bodies new_cols objs = Return b ->
  exists bs, Forall2 (fun o b' => reindex_columns new_cols o = Return b') objs bs /\
             b = concat bs.
Proof.
  revert b. induction objs as [|o objs IH]; intros b; simpl.
  - intros [= <-]. exists []. by split.
  - intros (b1 & Hb1 & (bs & Hbs & [= <-])%obind_Return)%obind_Return.
    apply IH in Hbs as (bs' & Hbs' & ->).
    exists (b1 :: bs'). split; [by constructor | done].
Qed.

Lemma pd_concat_Return objs sort df :
  pd_concat objs sort = Return df ->
  columns df = combined_columns objs sort /\
  exists bs,
    Forall2 (fun o b => reindex_columns (columns df) o = Return b) objs bs /\
    body df = concat bs.
Proof.
  unfold pd_concat. destruct objs as [|o rest]; [done|].
  intros (b & Hb & (tag & _ & [= <-])%obind_Return)%obind_Return. simpl.
  split; [done|]. by apply concat_bodies_Return.
Qed.

(** The class and the tag of a concatenation. *)
Lemma pd_concat_tag o objs sort df :
  pd_concat (o :: objs) sort = Return df ->
  klass df = klass o /\
  common_crs (geometry_tags (o :: objs)) = Return (geometry_crs df).
Proof.
  unfold pd_concat.
  by intros (b & Hb & (tag & Htag & [= <-])%obind_Return)%obind_Return.
Qed.

(** Tables whose geometry columns carry one tag have a common one. *)
Lemma common_crs_same tag tags :
  Forall (fun t => t = tag) tags ->
  common_crs tags = Return (match tags with [] => Some None | _ => tag end).
Proof.
  intros Hall. unfold common_crs. destruct tags as [|t tags]; [done|].
  apply Forall_cons in Hall as [-> Hall].
  destruct tag as [c|].
  - rewrite bool_decide_eq_false_2.
    2: { intros [?|Hin]%elem_of_cons; [done|].
         by rewrite Forall_forall in Hall; apply Hall in Hin. }
    assert (forall l : list (option (option string)),
               Forall (fun t => t = Some c) l ->
               omap (fun t : option (option string) => mjoin t) l
               = match c with Some x => replicate (length l) x | None => [] end)
      as Hom.
    { induction 1 as [|? l -> _ IH]; [by destruct c|].
      cbn. destruct c as [x|]; simpl; [by rewrite IH | done]. }
    rewrite (Hom (Some c :: tags)) by (by constructor).
    destruct c as [x|]; [|done].
    assert (forall n, remove_dups (x :: replicate n x) = [x]) as Hrd.
    { induction n as [|n IH]; [done|].
      change (replicate (S n) x) with (x :: replicate n x).
      transitivity (remove_dups (x :: replicate n x)); [|done].
      assert (x ∈ x :: replicate n x) as Hin by left.
      revert Hin. generalize (x :: replicate n x). intros l Hin.
      cbn [remove_dups]. destruct (decide_rel elem_of x l); done. }
    cbn [length replicate]. by rewrite Hrd.
  - by rewrite bool_decide_eq_true_2 by left.
Qed.

(** Look-up in a concatenation of blocks of one length. *)
Lemma lookup_concat_uniform {A} (bs : list (list A)) n j k b :
  Forall (fun b' => length b' = n) bs ->
  bs !! j = Some b -> k < n ->
  concat bs !! (j * n + k) = b !! k.
Proof.
  intros Hlen. revert j. induction Hlen as [|b' bs Hb' _ IH]; intros j; [done|].
  destruct j as [|j]; simpl.
  - intros [= ->] Hk. by rewrite lookup_app_l by lia.
  - intros Hj Hk. rewrite lookup_app_r by lia.
    replace (n + j * n + k - length b') with (j * n + k) by lia. by apply IH.
Qed.

Lemma length_concat_uniform {A} (bs : list (list A)) n :
  Forall (fun b' => length b' = n) bs -> length (concat bs) = length bs * n.
Proof.
  induction 1 as [|b bs Hb _ IH]; simpl; [done|].
  rewrite length_app, IH, Hb. done.
Qed.

End ConcatFacts.

(** * Validation and partition *)

Module PrologueFacts.
Import Pandas Py Harmonize Samples PandasFacts ProfileFacts PyFacts LoopFacts DictFacts ConcatFacts.

Lemma readonly_ret {A} (a : A) : readonly (ret a).
Proof. done. Qed.

Lemma readonly_raise {A} e : readonly (@raise A e).
Proof. done. Qed.

Lemma readonly_lift {A} (o : outcome A) : readonly (lift o).
Proof. done. Qed.

Lemma readonly_read r : readonly (read r).
Proof. intros st. unfold read. by destruct (heap st !! r). Qed.

Lemma readonly_bind {A B} (m : M A) (k : A -> M B) :
  readonly m -> (forall a, readonly (k a)) -> readonly (bind m k).
Proof.
  intros Hm Hk st. unfold bind. specialize (Hm st).
  destruct (m st) as [[a|e] st1]; simpl in *; subst; [apply Hk | done].
Qed.

Lemma readonly_for_in {A S} (l : list A) (body : A -> S -> M S) s :
  (forall x s', readonly (body x s')) -> readonly (for_in l body s).
Proof.
  intros Hbody. revert s. induction l as [|x l IH]; intros s; simpl.
  - apply readonly_ret.
  - apply readonly_bind; [apply Hbody | apply IH].
Qed.

Lemma readonly_list_item {A} (l : list A) k : readonly (list_item l k).
Proof. unfold list_item. destruct (l !! k); [apply readonly_ret | apply readonly_raise]. Qed.

Lemma readonly_crs_attr i : readonly (crs_attr i).
Proof.
  apply readonly_bind; [apply readonly_read|]. intros df.
  destruct (klass df); [apply readonly_raise|].
  destruct (column_crs df "geometry"); [apply readonly_ret | apply readonly_raise].
Qed.

Lemma readonly_check_presence i : readonly (_check_presence_of_crs i).
Proof.
  apply readonly_bind; [apply readonly_read|]. intros df.
  destruct (crs_of df); [apply readonly_ret | apply readonly_raise].
Qed.

Lemma readonly_check_variables ext int : readonly (check_variables ext int).
Proof.
  apply readonly_bind; [apply readonly_lift|]. intros n_e.
  apply readonly_bind.
  - case_bool_decide; [|apply readonly_ret].
    apply readonly_bind; [apply readonly_lift|]. intros. apply readonly_ret.
  - intros [|]; [apply readonly_raise | apply readonly_ret].
Qed.

Lemma readonly_all_crs_equal raw l : readonly (all_crs_equal raw l).
Proof.
  induction l as [|i l IH]; simpl; [apply readonly_ret|].
  apply readonly_bind; [apply readonly_crs_attr|]. intros c.
  apply readonly_bind; [apply readonly_list_item|]. intros first.
  apply readonly_bind; [apply readonly_crs_attr|]. intros c0.
  case_bool_decide; [apply IH | apply readonly_ret].
Qed.

Lemma readonly_validate raw ext int : readonly (validate raw ext int).
Proof.
  apply readonly_bind; [apply readonly_check_variables|]. intros _.
  apply readonly_bind.
  { apply readonly_for_in. intros. apply readonly_check_presence. }
  intros _. apply readonly_bind; [apply readonly_all_crs_equal|].
  intros [|]; [apply readonly_ret | apply readonly_raise].
Qed.

Lemma readonly_Return {A} (m : M A) st a st' :
  readonly m -> m st = (Return a, st') -> st' = st.
Proof. intros Hm Hr. specialize (Hm st). by rewrite Hr in Hm. Qed.

(** [pd.concat] gets the tables of all collections, in order. *)
Lemma read_all_seq st k m acc :
  k + m <= length (heap st) ->
  for_in (seq k m) (fun i acc => bind (read i) (fun df => ret (acc ++ [df]))) acc st
  = (Return (acc ++ take m (drop k (heap st))), st).
Proof.
  revert k acc. induction m as [|m IH]; intros k acc Hlen; simpl.
  - by rewrite take_0, app_nil_r.
  - unfold bind at 1. unfold bind at 1. unfold read.
    destruct (heap st !! k) as [df|] eqn:Hk.
    2: { apply lookup_ge_None in Hk. lia. }
    simpl. rewrite IH by lia. rewrite <- app_assoc. do 3 f_equal.
    rewrite (drop_S _ _ _ Hk). done.
Qed.

Lemma read_all_collections collections calls0 :
  read_all (seq 0 (length collections)) {| heap := collections; calls := calls0 |}
  = (Return collections, {| heap := collections; calls := calls0 |}).
Proof.
  unfold read_all. rewrite read_all_seq by (simpl; lia).
  simpl. by rewrite drop_0, firstn_all.
Qed.

(** The partition that returned, in terms of [period_partition]. *)
Lemma partition_Return {O : Objects} collections calls0 target_year time_col dfs times target_df loc st' :
  partition (seq 0 (length collections)) target_year time_col
    {| heap := collections; calls := calls0 |}
  = (Return (dfs, times, target_df, loc), st') ->
  exists part,
    period_partition collections time_col target_year = Return part /\
    times = times_of part /\
    dfs = length collections /\ target_df = S (length collections) /\
    st' = {| heap := collections ++ [dfs_of part; target_of part]; calls := calls0 |} /\
    loc = {| interpolation := None;
             interpolated_dfs := dict_set target_year (target_of part) [] |}.
Proof.
  unfold partition. intros Hrun.
  apply bind_Return in Hrun as (first & st0 & Hfirst & Hrun).
  pose proof (readonly_Return _ _ _ _ (readonly_list_item _ _) Hfirst) as ->.
  apply bind_Return in Hrun as (crs & st0 & Hcrs & Hrun).
  pose proof (readonly_Return _ _ _ _ (readonly_crs_attr _) Hcrs) as ->.
  apply bind_Return in Hrun as (frames & st0 & Hframes & Hrun).
  rewrite read_all_collections in Hframes. injection Hframes as <- <-.
  steps. simpl in *. heap_norm. same_lookups.
  match goal with
  | Hc : pd_concat _ _ = _, Hg : getitem _ _ _ = _, Hr : reset_index _ = _,
    He : (_, _, _, _) = _ |- _ =>
      unfold period_partition; rewrite Hc; simpl; rewrite Hg; simpl;
      rewrite Hr; simpl; injection He as -> -> -> ->
  end.
  eexists. split; [done|]. simpl. repeat split.
  - by rewrite length_app, Nat.add_1_r.
  - by rewrite <- app_assoc.
Qed.

(** ** What validation answers *)

Lemma check_variables_given ext int st :
  variables_given ext int -> check_variables ext int st = (Return tt, st).
Proof.
  intros (ev & -> & Hev). unfold check_variables, bind, lift. simpl.
  destruct ev as [|x ev]; simpl; [|done].
  destruct Hev as [?|(iv & -> & Hiv)]; [done|]. simpl.
  by destruct iv.
Qed.

Lemma check_variables_Return ext int st st' :
  check_variables ext int st = (Return tt, st') -> variables_given ext int.
Proof.
  unfold check_variables, bind, lift, variables_given.
  destruct ext as [ev|]; simpl; [|done]. intros Hrun. exists ev. split; [done|].
  destruct ev as [|x ev]; [|by left]. right.
  simpl in Hrun. destruct int as [iv|]; simpl in Hrun; [|done].
  destruct iv as [|y iv]; simpl in Hrun; [done|]. by exists (y :: iv).
Qed.

Lemma check_crs_presence_seq st k m u :
  k + m <= length (heap st) ->
  for_in (seq k m) (fun i _ => _check_presence_of_crs i) u st
  = (if forallb has_crs (take m (drop k (heap st)))
     then Return tt else Raise MissingCRSError, st).
Proof.
  revert k u. induction m as [|m IH]; intros k [] Hlen; simpl; [done|].
  destruct (heap st !! k) as [df|] eqn:Hk.
  2: { apply lookup_ge_None in Hk. lia. }
  rewrite (drop_S _ _ _ Hk). simpl.
  unfold bind at 1, _check_presence_of_crs, bind at 1, read. rewrite Hk.
  unfold has_crs at 1.
  destruct (crs_of df) as [c|] eqn:Hc.
  - rewrite bool_decide_eq_true_2 by done. simpl. apply IH. lia.
  - rewrite bool_decide_eq_false_2 by (by intros [? ?]). done.
Qed.

(** A collection with a coordinate reference system is a geometry-aware
    table whose geometry column carries it. *)
Lemma has_crs_geometry df :
  has_crs df = true ->
  klass df = GeoFrame /\ column_crs df "geometry" = Some (crs_of df) /\
  "geometry"%string ∈ columns df /\ geometry_crs df = Some (crs_of df).
Proof.
  unfold has_crs, crs_of. intros [c Hc]%bool_decide_eq_true.
  destruct (klass df); [done|]. unfold column_crs in *.
  case_bool_decide as Hin; [|done]. destruct Hin as [_ Hin].
  destruct (geometry_crs df) as [[c'|]|]; done.
Qed.

Lemma all_crs_equal_seq raw st first f0 k m :
  raw !! 0 = Some first -> heap st !! first = Some f0 -> has_crs f0 = true ->
  k + m <= length (heap st) ->
  forallb has_crs (take m (drop k (heap st))) = true ->
  all_crs_equal raw (seq k m) st
  = (Return (forallb (fun c => bool_decide (crs_of c = crs_of f0))
                     (take m (drop k (heap st)))), st).
Proof.
  intros Hraw Hfirst Hf0.
  destruct (has_crs_geometry _ Hf0) as (Hkl0 & Hcrs0 & _).
  remember (crs_of f0) as cf eqn:Hcf. clear Hcf Hf0.
  revert k. induction m as [|m IH]; intros k Hlen; simpl; [done|].
  destruct (heap st !! k) as [df|] eqn:Hk.
  2: { apply lookup_ge_None in Hk. lia. }
  rewrite (drop_S _ _ _ Hk). simpl. intros [Hdf Hrest]%andb_true_iff.
  destruct (has_crs_geometry _ Hdf) as (Hkl & Hcrs & _).
  unfold bind at 1, crs_attr at 1, bind at 1, read. rewrite Hk, Hkl, Hcrs. simpl.
  unfold bind at 1, list_item. rewrite Hraw. simpl.
  unfold bind at 1, crs_attr at 1, bind at 1, read. rewrite Hfirst, Hkl0, Hcrs0. simpl.
  case_bool_decide; simpl; [|done]. by apply IH; [lia|].
Qed.

Lemma validate_collections collections calls0 ext int :
  variables_given ext int ->
  validate (seq 0 (length collections)) ext int
    {| heap := collections; calls := calls0 |}
  = (validate_outcome collections, {| heap := collections; calls := calls0 |}).
Proof.
  intros Hvars. unfold validate, bind at 1.
  rewrite check_variables_given by done.
  unfold bind at 1, check_crs_presence.
  rewrite check_crs_presence_seq by (simpl; lia).
  simpl. rewrite drop_0, firstn_all. unfold validate_outcome.
  destruct (forallb has_crs collections) eqn:Hall; [|done].
  unfold check_crs_equal, bind.
  destruct collections as [|f0 rest]; [done|].
  rewrite (all_crs_equal_seq _ _ 0 f0); simpl; try done; try lia.
  - rewrite firstn_all. change (first_crs (f0 :: rest)) with (crs_of f0).
    by destruct (bool_decide (crs_of f0 = crs_of f0) && _).
  - simpl in Hall. by apply andb_true_iff in Hall as [? _].
  - by rewrite firstn_all.
Qed.

(** A validation that passed. *)
Lemma validate_Return collections calls0 ext int st' :
  validate (seq 0 (length collections)) ext int
    {| heap := collections; calls := calls0 |} = (Return tt, st') ->
  variables_given ext int /\ validate_outcome collections = Return tt.
Proof.
  intros Hrun.
  assert (variables_given ext int) as Hvars.
  { unfold validate in Hrun.
    apply bind_Return in Hrun as ([] & st0 & Hvars & _).
    by eapply check_variables_Return. }
  split; [done|]. rewrite validate_collections in Hrun by done.
  by injection Hrun as -> _.
Qed.

End PrologueFacts.

(** * The combined table *)

Module HarmonizeFacts.
Import Pandas Py Harmonize Samples PandasFacts ProfileFacts PyFacts LoopFacts DictFacts ConcatFacts PrologueFacts.

Lemma fst_imap_range {A B} (g : A -> B) (b : list A) n :
  fst <$> imap (fun k r => (Num (Z.of_nat (n + k)), g r)) b
  = (fun k => Num (Z.of_nat k)) <$> seq n (length b).
Proof.
  apply list_eq. intros i.
  rewrite !list_lookup_fmap, list_lookup_imap.
  destruct (b !! i) as [r|] eqn:Hr; simpl.
  - rewrite lookup_seq_lt by (by eapply lookup_lt_Some). done.
  - rewrite lookup_seq_ge by (by apply lookup_ge_None). done.
Qed.

Lemma reset_index_Return df t :
  reset_index df = Return t ->
  nrows t = nrows df /\ row_index t = RangeIndex (nrows t) /\
  klass t = klass df /\
  (columns t = index_label df :: columns df /\ (index_label df ∉ columns df)) /\
  (forall k r, body df !! k = Some r ->
               body t !! k = Some (Num (Z.of_nat k), r.1 :: r.2)).
Proof.
  unfold reset_index. case_bool_decide as Hname; [done|]. intros [= <-].
  unfold nrows, row_index, RangeIndex. simpl. rewrite length_imap.
  repeat split.
  - apply (fst_imap_range (fun r => r.1 :: r.2) (body df) 0).
  - done.
  - intros k r Hr. by rewrite list_lookup_imap, Hr.
Qed.

Lemma reset_index_tag df t :
  reset_index df = Return t ->
  geometry_crs t = column_crs df "geometry" /\
  column_crs t "geometry" = column_crs df "geometry".
Proof.
  unfold reset_index. case_bool_decide as Hname; [done|]. intros [= <-].
  split; [done|]. unfold column_crs at 1. cbn [columns geometry_crs].
  case_bool_decide as Hin; [done|]. unfold column_crs.
  rewrite bool_decide_eq_false_2; [done|].
  intros [_ Hg]. apply Hin. split; [done|]. by right.
Qed.

Section tables.
Context {P : Primitives} {O : Objects}.
Variables (extensive_variables intensive_variables : option (list string))
          (index time_col : string) (t : DataFrame).

Abbreviation period_table :=
  (period_table extensive_variables intensive_variables index time_col t).

Hypothesis fresh_index : row_index t = RangeIndex (nrows t).

Lemma period_table_index p0 interp :
  aligned extensive_variables intensive_variables t interp ->
  build_profile extensive_variables intensive_variables interp = Return p0 ->
  rectangular p0 /\ row_index p0 = row_index t.
Proof using fresh_index.
  intros Hal Hp0.
  destruct (build_profile_shape _ _ _ _ Hp0)
    as (_ & Hrect & Hidx & _ & a0 & a1 & -> & Hn).
  split; [done|]. rewrite Hidx, fresh_index. f_equal.
  destruct Hal as [Hal0 Hal1]. by apply Hn.
Qed.

Lemma period_table_nrows i v : period_table i v -> nrows v = nrows t.
Proof using fresh_index.
  intros (interp & p0 & Hal & Hp0 & Hv).
  destruct (period_table_index _ _ Hal Hp0) as [_ Hidx].
  by destruct (attach_shape _ _ _ _ _ _ Hidx Hv) as (? & _).
Qed.

Lemma period_table_has_columns i v c :
  period_table i v -> c = "geometry"%string \/ c = index \/ c = time_col ->
  c ∈ columns v.
Proof using fresh_index.
  intros (interp & p0 & Hal & Hp0 & Hv).
  destruct (period_table_index _ _ Hal Hp0) as [_ Hidx].
  destruct (attach_shape _ _ _ _ _ _ Hidx Hv) as (_ & _ & _ & -> & _).
  rewrite !elem_of_with_column. tauto.
Qed.

Lemma period_table_carries i v k r :
  time_col <> "geometry"%string -> time_col <> index ->
  period_table i v -> body t !! k = Some r ->
  exists r', body v !! k = Some r' /\
             carries index time_col (columns t) (columns v) i r r'.
Proof using fresh_index.
  intros Hne1 Hne2 (interp & p0 & Hal & Hp0 & Hv) Hr.
  destruct (period_table_index _ _ Hal Hp0) as [Hrect Hidx].
  by eapply attach_carries.
Qed.

Lemma period_table_period i v k r :
  period_table i v -> body t !! k = Some r ->
  exists r', body v !! k = Some r' /\ r'.1 = r.1 /\
             cell_of (columns v) r'.2 time_col = Some i.
Proof using fresh_index.
  intros (interp & p0 & Hal & Hp0 & Hv) Hr.
  destruct (period_table_index _ _ Hal Hp0) as [Hrect Hidx].
  by eapply attach_period.
Qed.

End tables.

(** ** The tag of the geometry column *)

(** Tables that all have a geometry column with one tag. *)
Lemma geometry_tags_same tag objs :
  Forall (fun o => "geometry"%string ∈ columns o /\ geometry_crs o = tag) objs ->
  geometry_tags objs = replicate (length objs) tag.
Proof.
  unfold geometry_tags. induction 1 as [|o objs [Hin Htag] _ IH]; [done|].
  rewrite filter_cons_True by done. rewrite fmap_cons, IH, Htag. done.
Qed.

Lemma pd_concat_same_tag tag objs sort h :
  Forall (fun o => "geometry"%string ∈ columns o /\ geometry_crs o = tag) objs ->
  pd_concat objs sort = Return h ->
  "geometry"%string ∈ columns h /\ geometry_crs h = tag.
Proof.
  intros Hall Hh. destruct objs as [|o objs]; [done|].
  pose proof (pd_concat_tag _ _ _ _ Hh) as [_ Htag].
  rewrite (geometry_tags_same tag), (common_crs_same tag) in Htag;
    [| apply Forall_replicate | done ..]; [|done].
  injection Htag as <-.
  apply pd_concat_Return in Hh as [-> _]. split; [|done].
  apply elem_of_combined_columns. exists o. split; [left|].
  by apply Forall_cons in Hall as [[? _] _].
Qed.

(** The collections that pass validation share one coordinate reference
    system, and the geometry column of the target frame carries it. *)
Lemma period_partition_tag collections time_col target_year part :
  validate_outcome collections = Return tt ->
  period_partition collections time_col target_year = Return part ->
  is_Some (first_crs collections) /\
  "geometry"%string ∈ columns (target_of part) /\
  geometry_crs (target_of part) = Some (first_crs collections).
Proof.
  unfold validate_outcome. intros Hval Hpart.
  destruct (forallb has_crs collections) eqn:Hhas; [|done].
  destruct (forallb _ collections) eqn:Hsame in Hval; [|done]. clear Hval.
  rewrite forallb_forall in Hhas. rewrite forallb_forall in Hsame.
  assert (Forall (fun o => "geometry"%string ∈ columns o /\
                           geometry_crs o = Some (first_crs collections))
            collections) as Hall.
  { apply Forall_forall. intros o Ho%list_elem_of_In.
    destruct (has_crs_geometry _ (Hhas _ Ho)) as (_ & _ & Hin & Htag).
    split; [done|]. rewrite Htag. f_equal.
    apply Hsame in Ho. by apply bool_decide_eq_true in Ho. }
  unfold period_partition in Hpart.
  apply obind_Return in Hpart as (d & Hd & Hpart).
  apply obind_Return in Hpart as (s & _ & Hpart).
  apply obind_Return in Hpart as (t & Ht & [= <-]). cbn [target_of].
  split.
  { destruct collections as [|o rest]; [discriminate Hd|].
    assert (In o (o :: rest)) as Ho by apply in_eq.
    apply Hhas in Ho. unfold has_crs in Ho.
    apply bool_decide_eq_true in Ho. exact Ho. }
  destruct (pd_concat_same_tag _ _ _ _ Hall Hd) as [Hin Htag].
  pose proof (reset_index_tag _ _ Ht) as [Ht1 _].
  apply reset_index_Return in Ht as (_ & _ & _ & [Hcols _] & _).
  rewrite Hcols, Ht1. split; [by right|].
  by rewrite column_crs_geometry.
Qed.

(** The run that returned, with an interpolation that gives back the
    target table it was handed and a period column that is not the
    geometry column: the returned table is geometry-aware and tagged with
    the coordinate reference system of the first collection. *)
Lemma harmonize_Return_crs {P : Primitives} {O : Objects}
    collections target_year weights_method extensive_variables
    intensive_variables allocate_total raster_path codes force_crs_match
    index time_col df st' :
  time_col <> "geometry"%string -> target_kept weights_method ->
  call_harmonize collections target_year weights_method extensive_variables
    intensive_variables allocate_total raster_path codes force_crs_match
    index time_col = (Return df, st') ->
  is_Some (first_crs collections) /\ crs_of df = first_crs collections.
Proof.
  unfold call_harmonize, harmonize. intros Htime Hkeep Hrun.
  apply bind_Return in Hrun as ([] & st0 & Hval & Hrun).
  pose proof (readonly_Return _ _ _ _ (readonly_validate _ _ _) Hval) as ->.
  apply validate_Return in Hval as [_ Hval].
  apply bind_Return in Hrun as ([[[dfs times] target_df] loc] & st1 & Hpart & Hrun).
  apply partition_Return in Hpart as (part & Hpart & -> & -> & -> & -> & ->).
  apply bind_Return in Hrun as (loc' & st2 & Hloop & Hrun).
  destruct (period_partition_tag _ _ _ _ Hval Hpart) as (Hsome & Hgeo & Htag).
  split; [done|].
  set (t := target_of part) in *. set (d := dfs_of part) in *.
  set (tag := Some (first_crs collections)) in *.
  set (Q := fun (_ : cell) (v : DataFrame) =>
              "geometry"%string ∈ columns v /\ geometry_crs v = tag).
  assert (NoDup (times_of part)) as Hnd.
  { unfold period_partition in Hpart.
    apply obind_Return in Hpart as (? & _ & Hpart).
    apply obind_Return in Hpart as (? & _ & Hpart).
    apply obind_Return in Hpart as (? & _ & [= <-]). apply NoDup_unique. }
  pose (I := fun (done : list cell) (loc : locals) (st : state) =>
    heap st !! length collections = Some d /\
    heap st !! S (length collections) = Some t /\
    dict_inv Q target_year t done (interpolated_dfs loc)).
  assert (I (times_of part) loc' st2) as (_ & _ & Hdict).
  { eapply (for_in_invariant I _ (times_of part)) with (done := []); [|done| |done].
    - intros done x rest loc0 st loc1 st1 Htot (Hd & Ht & Hdict) Hbody.
      assert (length collections <> S (length collections)) as Hne by lia.
      destruct (interpolate_period_kept _ _ _ _ _ _ _ _ _ _ _ _ _ _ _ _ _ _
                  Hkeep Hne Hd Ht Hbody)
        as (Hd' & Ht' & p0 & v & Hp0 & Hv & Hset).
      repeat split; try done. rewrite Hset.
      apply dict_inv_step; [|done|].
      + rewrite Htot, (cons_middle x), app_assoc in Hnd.
        by apply NoDup_app in Hnd as (? & _).
      + split.
        * rewrite (attach_columns _ _ _ _ _ _ Hv), !elem_of_with_column. tauto.
        * rewrite (attach_tag _ _ _ _ _ _ Hv). unfold period_tag.
          rewrite bool_decide_eq_false_2 by done.
          by rewrite column_crs_geometry.
    - repeat split; simpl.
      + by rewrite lookup_app_r, Nat.sub_diag by lia.
      + rewrite lookup_app_r by lia.
        by replace (S (length collections) - length collections) with 1 by lia.
      + apply dict_inv_init. }
  unfold assemble in Hrun. steps.
  match goal with Hh : pd_concat _ _ = Return ?h |- _ =>
    assert ("geometry"%string ∈ columns h /\ geometry_crs h = tag) as [Hin Hh']
  end.
  { eapply pd_concat_same_tag; [|done].
    destruct Hdict as (v0 & rest & -> & _ & Hrest & Hv0).
    unfold dict_values. rewrite fmap_cons. apply Forall_cons. split.
    - destruct (existsb _ _); [apply Hv0 | by subst v0].
    - apply Forall_fmap. eapply Forall_impl; [exact Hrest|]. by intros [k v]. }
  unfold crs_of, column_crs. cbn [klass columns geometry_crs GeoDataFrame].
  rewrite !bool_decide_eq_true_2 by done. rewrite Hh'. unfold tag.
  by destruct Hsome as [c ->].
Qed.

(** The run that returned, under the contract of the collaborators and
    with an interpolation that gives back the target table it was handed
    at line 164: the dictionary holds a period table for every period,
    and the result is their concatenation. *)
Lemma harmonize_Return_contract {P : Primitives} {O : Objects} {C : Contract}
    collections target_year weights_method extensive_variables
    intensive_variables allocate_total raster_path codes force_crs_match
    index time_col df st' :
  target_kept weights_method ->
  call_harmonize collections target_year weights_method extensive_variables
    intensive_variables allocate_total raster_path codes force_crs_match
    index time_col = (Return df, st') ->
  exists part d h,
    period_partition collections time_col target_year = Return part /\
    dict_inv (period_table extensive_variables intensive_variables index time_col
                (target_of part))
             target_year (target_of part) (times_of part) d /\
    pd_concat (dict_values d) true = Return h /\
    df = GeoDataFrame h None.
Proof.
  unfold call_harmonize, harmonize. intros Hkeep Hrun.
  apply bind_Return in Hrun as ([] & st0 & Hval & Hrun).
  pose proof (readonly_Return _ _ _ _ (readonly_validate _ _ _) Hval) as ->.
  apply bind_Return in Hrun as ([[[dfs times] target_df] loc] & st1 & Hpart & Hrun).
  apply partition_Return in Hpart as (part & Hpart & -> & -> & -> & -> & ->).
  apply bind_Return in Hrun as (loc' & st2 & Hloop & Hrun).
  exists part, (interpolated_dfs loc').
  set (t := target_of part) in *. set (d := dfs_of part) in *.
  set (Q := period_table extensive_variables intensive_variables index time_col t).
  assert (NoDup (times_of part)) as Hnd.
  { unfold period_partition in Hpart.
    apply obind_Return in Hpart as (? & _ & Hpart).
    apply obind_Return in Hpart as (? & _ & Hpart).
    apply obind_Return in Hpart as (? & _ & [= <-]). apply NoDup_unique. }
  pose (I := fun (done : list cell) (loc : locals) (st : state) =>
    heap st !! length collections = Some d /\
    heap st !! S (length collections) = Some t /\
    aligned extensive_variables intensive_variables t (interpolation loc) /\
    dict_inv Q target_year t done (interpolated_dfs loc)).
  assert (I (times_of part) loc' st2) as (_ & _ & _ & Hdict).
  { eapply (for_in_invariant I _ (times_of part)) with (done := []); [|done| |done].
    - intros done x rest loc0 st loc1 st1 Htot (Hd & Ht & Hal & Hdict) Hbody.
      assert (length collections <> S (length collections)) as Hne by lia.
      destruct (interpolate_period_contract _ _ _ _ _ _ _ _ _ _ _ _ _ _ _ _ _ _
                  Hkeep Hne Hd Ht Hal Hbody)
        as (Hd' & Ht' & Hal' & p0 & v & Hp0 & Hv & Hset).
      repeat split; try done. rewrite Hset.
      apply dict_inv_step; [|done|].
      + rewrite Htot, (cons_middle x), app_assoc in Hnd.
        by apply NoDup_app in Hnd as (? & _).
      + by exists (interpolation loc1), p0.
    - repeat split; simpl.
      + by rewrite lookup_app_r, Nat.sub_diag by lia.
      + rewrite lookup_app_r by lia.
        by replace (S (length collections) - length collections) with 1 by lia.
      + apply dict_inv_init. }
  unfold assemble in Hrun. steps. eauto 10.
Qed.

(** The run that returned, with any collaborators: every table of the
    dictionary, the seed apart, has the columns of a period table. *)
Lemma harmonize_Return_columns {P : Primitives} {O : Objects}
    collections target_year weights_method extensive_variables
    intensive_variables allocate_total raster_path codes force_crs_match
    index time_col df st' :
  call_harmonize collections target_year weights_method extensive_variables
    intensive_variables allocate_total raster_path codes force_crs_match
    index time_col = (Return df, st') ->
  exists part d h,
    period_partition collections time_col target_year = Return part /\
    dict_inv (period_columns extensive_variables index time_col)
             target_year (target_of part) (times_of part) d /\
    pd_concat (dict_values d) true = Return h /\
    df = GeoDataFrame h None.
Proof.
  unfold call_harmonize, harmonize. intros Hrun.
  apply bind_Return in Hrun as ([] & st0 & Hval & Hrun).
  pose proof (readonly_Return _ _ _ _ (readonly_validate _ _ _) Hval) as ->.
  apply bind_Return in Hrun as ([[[dfs times] target_df] loc] & st1 & Hpart & Hrun).
  apply partition_Return in Hpart as (part & Hpart & -> & -> & -> & -> & ->).
  apply bind_Return in Hrun as (loc' & st2 & Hloop & Hrun).
  exists part, (interpolated_dfs loc').
  assert (NoDup (times_of part)) as Hnd.
  { unfold period_partition in Hpart.
    apply obind_Return in Hpart as (? & _ & Hpart).
    apply obind_Return in Hpart as (? & _ & Hpart).
    apply obind_Return in Hpart as (? & _ & [= <-]). apply NoDup_unique. }
  set (Q := period_columns extensive_variables index time_col).
  pose (I := fun (done : list cell) (loc : locals) (st : state) =>
    dict_inv Q target_year (target_of part) done (interpolated_dfs loc)).
  assert (I (times_of part) loc' st2) as Hdict.
  { eapply (for_in_invariant I _ (times_of part)) with (done := []); [|done| |done].
    - intros done x rest loc0 st loc1 st1 Htot Hdict Hbody.
      apply interpolate_period_Return in Hbody as (t' & p0 & v & _ & Hp0 & Hv & Hset).
      unfold I. rewrite Hset. apply dict_inv_step; [|done|].
      + rewrite Htot, (cons_middle x), app_assoc in Hnd.
        by apply NoDup_app in Hnd as (? & _).
      + intros c. rewrite (attach_columns _ _ _ _ _ _ Hv), !elem_of_with_column.
        destruct (build_profile_shape _ _ _ _ Hp0) as (_ & _ & _ & Hc & _).
        intros [->|[->|[->|?%Hc]]]; tauto.
    - apply dict_inv_init. }
  unfold assemble in Hrun. steps. eauto 10.
Qed.

End HarmonizeFacts.

Module ErrorFacts.
Import Pandas Py Harmonize Samples PandasFacts ProfileFacts PyFacts LoopFacts DictFacts ConcatFacts PrologueFacts HarmonizeFacts.

Lemma validate_outcome_Return collections :
  validate_outcome collections = Return tt -> forallb has_crs collections = true.
Proof. unfold validate_outcome. by destruct (forallb has_crs collections). Qed.

Lemma pd_concat_nonempty objs sort df : pd_concat objs sort = Return df -> objs <> [].
Proof. by destruct objs. Qed.

(** The partition, run forward. *)
Lemma partition_collections {O : Objects} collections calls0 target_year time_col part :
  forallb has_crs collections = true ->
  period_partition collections time_col target_year = Return part ->
  partition (seq 0 (length collections)) target_year time_col
    {| heap := collections; calls := calls0 |}
  = (Return (length collections, times_of part, S (length collections),
             {| interpolation := None;
                interpolated_dfs := dict_set target_year (target_of part) [] |}),
     {| heap := collections ++ [dfs_of part; target_of part]; calls := calls0 |}).
Proof.
  intros Hcrs Hpart. unfold period_partition in Hpart.
  apply obind_Return in Hpart as (d & Hd & Hpart).
  apply obind_Return in Hpart as (s & Hs & Hpart).
  apply obind_Return in Hpart as (t & Ht & [= <-]). simpl.
  pose proof (pd_concat_nonempty _ _ _ Hd) as Hne.
  destruct collections as [|f0 rest]; [done|].
  simpl in Hcrs. apply andb_true_iff in Hcrs as [Hf0 _].
  destruct (has_crs_geometry _ Hf0) as (Hkl0 & Hcrs0 & _).
  assert (crs_attr 0 {| heap := f0 :: rest; calls := calls0 |}
          = (Return (crs_of f0), {| heap := f0 :: rest; calls := calls0 |})) as Hcrs.
  { unfold crs_attr. forward ltac:(by apply read_eq). by rewrite Hkl0, Hcrs0. }
  unfold partition.
  forward ltac:(reflexivity).
  forward ltac:(apply Hcrs).
  forward ltac:(apply (read_all_collections (f0 :: rest))).
  forward ltac:(rewrite lift_eq, Hd; reflexivity).
  forward ltac:(apply new_eq).
  forward ltac:(rewrite lift_eq, Hs; reflexivity).
  forward ltac:(rewrite lift_eq, Ht; reflexivity).
  forward ltac:(apply new_eq).
  cbn [heap calls].
  forward ltac:(apply read_eq; by apply list_lookup_middle).
  unfold ret. rewrite !length_app. simpl length.
  rewrite <- app_assoc. simpl. do 4 f_equal; lia.
Qed.

Section unsupported.
Context {P : Primitives} {O : Objects}.
Variables (weights_method : string)
          (extensive_variables intensive_variables : option (list string))
          (allocate_total : bool) (raster_path : option string)
          (codes : list Z) (force_crs_match : bool)
          (index time_col : string).

Lemma build_profile_unbound :
  variables_given extensive_variables intensive_variables ->
  build_profile extensive_variables intensive_variables None
  = Raise (UnboundLocalError "interpolation").
Proof.
  intros (ev & -> & Hev). unfold build_profile. simpl.
  destruct ev as [|x ev]; simpl; [|done].
  destruct Hev as [?|(iv & -> & Hiv)]; [done|]. by destruct iv.
Qed.

(** An iteration under a method that is not handled: no primitive is
    called, [interpolation] is read before any assignment. *)
Lemma interpolate_period_unsupported dfs target_df d s i dict st :
  weights_method <> "area"%string -> weights_method <> "land_type_area"%string ->
  variables_given extensive_variables intensive_variables ->
  heap st !! dfs = Some d ->
  getitem no_unique d time_col
    = Return s ->
  interpolate_period weights_method extensive_variables intensive_variables
    allocate_total raster_path codes force_crs_match index time_col
    dfs target_df i {| interpolation := None; interpolated_dfs := dict |} st
  = (Raise (UnboundLocalError "interpolation"),
     {| heap := heap st ++ [select_rows d (eq_mask s i)]; calls := calls st |}).
Proof.
  intros Ha Hl Hvars Hd Hs. unfold interpolate_period.
  forward ltac:(by apply read_eq).
  forward ltac:(rewrite lift_eq, Hs; reflexivity).
  forward ltac:(apply new_eq).
  rewrite (bool_decide_eq_false_2 _ Ha), (bool_decide_eq_false_2 _ Hl).
  forward ltac:(reflexivity).
  forward ltac:(reflexivity).
  apply bind_Raise_eq. unfold lift. cbn [interpolation].
  by rewrite build_profile_unbound.
Qed.

End unsupported.

End ErrorFacts.

(** * What a run leaves alone *)

Module FrameFacts.
Import Pandas Py Harmonize Samples PandasFacts ProfileFacts PyFacts LoopFacts DictFacts ConcatFacts PrologueFacts HarmonizeFacts ErrorFacts.

Lemma keeps_older_readonly {A} n (m : M A) :
  readonly m -> keeps_older n m (fun _ => True).
Proof. intros Hm st Hn. by rewrite (Hm st). Qed.

Lemma keeps_older_ret {A} n (a : A) (Q : A -> Prop) :
  Q a -> keeps_older n (ret a) Q.
Proof. intros HQ st Hn. repeat split; try done. by intros ? [= <-]. Qed.

Lemma keeps_older_new n df : keeps_older n (new df) (fun r => n <= r).
Proof.
  intros st Hn. simpl. rewrite length_app, take_app_le by done.
  repeat split; [lia|]. intros r [= <-]. done.
Qed.

Lemma keeps_older_invoke {A} n who
    (f : DataFrame -> DataFrame -> outcome A * DataFrame * DataFrame) source target :
  n <= source -> n <= target ->
  keeps_older n (invoke who f source target) (fun _ => True).
Proof.
  intros Hs Ht st Hn. unfold invoke.
  destruct (heap st !! source) as [s|]; [|done].
  destruct (heap st !! target) as [t|]; [|done].
  destruct (f s t) as [[r s'] t']. simpl.
  rewrite !length_insert, !take_insert_ge by done. done.
Qed.

Lemma keeps_older_bind {A B} n (m : M A) (k : A -> M B)
    (P : A -> Prop) (Q : B -> Prop) :
  keeps_older n m P -> (forall a, P a -> keeps_older n (k a) Q) ->
  keeps_older n (bind m k) Q.
Proof.
  intros Hm Hk st Hn. unfold bind.
  destruct (Hm st Hn) as (Hlen & Htake & HP).
  destruct (m st) as [[a|e] st1]; simpl in *; [|done].
  destruct (Hk a (HP a eq_refl) st1 Hlen) as (Hlen' & Htake' & HQ).
  rewrite Htake'. done.
Qed.

Lemma keeps_older_for_in {A S} n (l : list A) (body : A -> S -> M S) s :
  (forall x s', keeps_older n (body x s') (fun _ => True)) ->
  keeps_older n (for_in l body s) (fun _ => True).
Proof.
  intros Hbody. revert s. induction l as [|x l IH]; intros s; simpl.
  - by apply keeps_older_ret.
  - eapply keeps_older_bind; [apply Hbody|]. intros. apply IH.
Qed.

Section loop.
Context {P : Primitives} {O : Objects}.
Variables (weights_method : string)
          (extensive_variables intensive_variables : option (list string))
          (allocate_total : bool) (raster_path : option string)
          (codes : list Z) (force_crs_match : bool)
          (index time_col : string).

(** An iteration writes to the objects it makes, and, under
    "land_type_area", to [target_df]. *)
Lemma interpolate_period_keeps_older n dfs target_df i loc :
  (weights_method = "land_type_area"%string -> n <= target_df) ->
  keeps_older n
    (interpolate_period weights_method extensive_variables intensive_variables
       allocate_total raster_path codes force_crs_match index time_col
       dfs target_df i loc)
    (fun _ => True).
Proof.
  intros Hland. unfold interpolate_period.
  eapply keeps_older_bind; [apply keeps_older_readonly, readonly_read|]. intros d _.
  eapply keeps_older_bind; [apply keeps_older_readonly, readonly_lift|]. intros s _.
  eapply keeps_older_bind; [apply keeps_older_new|]. intros source_df Hsrc.
  eapply keeps_older_bind with (P := fun _ => True).
  { case_bool_decide; [|by apply keeps_older_ret].
    eapply keeps_older_bind; [apply keeps_older_readonly, readonly_read|]. intros t _.
    eapply keeps_older_bind; [apply keeps_older_new|]. intros target_copy Hcopy.
    eapply keeps_older_bind; [by apply keeps_older_invoke|]. intros r _.
    by apply keeps_older_ret. }
  intros interp1 _.
  eapply keeps_older_bind with (P := fun _ => True).
  { case_bool_decide as Hl; [|by apply keeps_older_ret].
    eapply keeps_older_bind; [apply keeps_older_readonly, readonly_read|]. intros t _.
    eapply keeps_older_bind; [apply keeps_older_new|]. intros target_copy Hcopy.
    eapply keeps_older_bind; [by apply keeps_older_invoke|]. intros tables _.
    eapply keeps_older_bind; [by apply keeps_older_invoke; [|apply Hland]|].
    intros r _. by apply keeps_older_ret. }
  intros interp2 _.
  eapply keeps_older_bind; [apply keeps_older_readonly, readonly_lift|]. intros p0 _.
  eapply keeps_older_bind; [apply keeps_older_readonly, readonly_read|]. intros t _.
  eapply keeps_older_bind; [apply keeps_older_readonly, readonly_lift|]. intros v _.
  by apply keeps_older_ret.
Qed.

(** Outside "land_type_area" the loop leaves [target_df], and every
    older object, as it found them, whatever the primitives do to the
    tables they are handed. *)
Lemma loop_keeps_target_df dfs target_df times loc st :
  weights_method <> "land_type_area"%string ->
  target_df < length (heap st) ->
  let st' := (for_in times
                (interpolate_period weights_method extensive_variables
                   intensive_variables allocate_total raster_path codes
                   force_crs_match index time_col dfs target_df) loc st).2 in
  heap st' !! target_df = heap st !! target_df.
Proof.
  intros Hl Hlt.
  destruct (keeps_older_for_in (S target_df) times
              (interpolate_period weights_method extensive_variables
                 intensive_variables allocate_total raster_path codes
                 force_crs_match index time_col dfs target_df) loc
              (fun x s' => interpolate_period_keeps_older _ _ _ _ _
                             (fun Heq => False_ind _ (Hl Heq))) st)
    as (_ & Htake & _); [lia|].
  cbv zeta.
  rewrite <- (lookup_take_lt _ (S target_df)), Htake, lookup_take_lt by lia.
  done.
Qed.

(** X7.  [harmonize] never writes to the collections, whatever the
    method, the outcome, and what the primitives do to the tables they
    are handed: these are objects made by [harmonize], the collections
    are only read (line 129). *)
Lemma harmonize_leaves_collections collections target_year :
  take (length collections)
    (heap (call_harmonize collections target_year weights_method
             extensive_variables intensive_variables allocate_total raster_path
             codes force_crs_match index time_col).2)
  = collections.
Proof.
  assert (keeps_older (length collections)
            (harmonize (seq 0 (length collections)) target_year weights_method
               extensive_variables intensive_variables allocate_total raster_path
               codes force_crs_match index time_col) (fun _ => True)) as Hk.
  { unfold harmonize.
    eapply keeps_older_bind; [apply keeps_older_readonly, readonly_validate|].
    intros _ _.
    eapply keeps_older_bind with (P := fun p => length collections <= p.1.2).
    { unfold partition.
      eapply keeps_older_bind; [apply keeps_older_readonly, readonly_list_item|].
      intros first _.
      eapply keeps_older_bind; [apply keeps_older_readonly, readonly_crs_attr|].
      intros crs _.
      eapply keeps_older_bind.
      { apply keeps_older_readonly, readonly_for_in. intros x acc.
        apply readonly_bind; [apply readonly_read|]. intros. apply readonly_ret. }
      intros frames _.
      eapply keeps_older_bind; [apply keeps_older_readonly, readonly_lift|]. intros d _.
      eapply keeps_older_bind; [apply keeps_older_new|]. intros dfs Hdfs.
      eapply keeps_older_bind; [apply keeps_older_readonly, readonly_lift|]. intros s _.
      eapply keeps_older_bind; [apply keeps_older_readonly, readonly_lift|]. intros t _.
      eapply keeps_older_bind; [apply keeps_older_new|]. intros target_df Ht.
      eapply keeps_older_bind; [apply keeps_older_readonly, readonly_read|]. intros t0 _.
      by apply keeps_older_ret. }
    intros [[[dfs times] target_df] loc] Ht. simpl in Ht.
    eapply keeps_older_bind.
    { apply keeps_older_for_in. intros x s'.
      by apply interpolate_period_keeps_older. }
    intros loc' _. unfold assemble.
    eapply keeps_older_bind; [apply keeps_older_readonly, readonly_lift|]. intros h _.
    by apply keeps_older_ret. }
  destruct (Hk {| heap := collections; calls := [] |}) as (_ & Htake & _); [done|].
  unfold call_harmonize. rewrite Htake. simpl. by rewrite firstn_all.
Qed.

End loop.

End FrameFacts.

Module Claims.
Import Pandas Py Harmonize Samples PandasFacts ProfileFacts PyFacts LoopFacts DictFacts ConcatFacts PrologueFacts HarmonizeFacts ErrorFacts FrameFacts.

Lemma dict_inv_final {O : Objects} {V} (Q : cell -> V -> Prop) target_year seed
    times d :
  dict_inv Q target_year seed times d ->
  period_present target_year times ->
  Forall2 Q (period_order target_year times) (dict_values d).
Proof.
  intros (v0 & rest & -> & Hkeys & Hrest & Hv0) Hpresent.
  destruct (filter_keys target_year times Hpresent) as [Hfilter Hex].
  rewrite Hfilter in Hkeys.
  rewrite Hex in Hv0. unfold period_order, dict_values. simpl.
  constructor; [done|]. rewrite <- Hkeys.
  clear Hkeys. induction Hrest as [|[k v] rest Hkv _ IH]; simpl; by constructor.
Qed.

Lemma period_partition_Return collections time_col target_year part :
  period_partition collections time_col target_year = Return part ->
  NoDup (times_of part) /\
  row_index (target_of part) = RangeIndex (nrows (target_of part)).
Proof.
  unfold period_partition. intros Hpart.
  apply obind_Return in Hpart as (d & _ & Hpart).
  apply obind_Return in Hpart as (s & _ & Hpart).
  apply obind_Return in Hpart as (t & Ht & [= <-]). simpl.
  split; [apply NoDup_unique|]. by apply reset_index_Return in Ht as (_ & ? & _).
Qed.

Section claims.
Context {P : Primitives} {O : Objects}.
Variables (collections : list DataFrame) (target_year : cell)
          (weights_method : string)
          (extensive_variables intensive_variables : option (list string))
          (allocate_total : bool) (raster_path : option string)
          (codes : list Z) (force_crs_match : bool)
          (index time_col : string).

Abbreviation run :=
  (call_harmonize collections target_year weights_method extensive_variables
     intensive_variables allocate_total raster_path codes force_crs_match
     index time_col).

(** The period tables behind a combined table, in the order of the
    period groups. *)
Lemma harmonize_tables {C : Contract} df st' part :
  target_kept weights_method ->
  run = (Return df, st') ->
  period_partition collections time_col target_year = Return part ->
  period_present target_year (times_of part) ->
  exists tables h,
    Forall2 (period_table extensive_variables intensive_variables index time_col
               (target_of part))
            (period_order target_year (times_of part)) tables /\
    pd_concat tables true = Return h /\ df = GeoDataFrame h None.
Proof.
  intros Hkeep Hrun Hpart Hpresent.
  apply harmonize_Return_contract in Hrun
    as (part' & d & h & Hpart' & Hdict & Hh & ->); [|done].
  rewrite Hpart in Hpart'. injection Hpart' as <-.
  exists (dict_values d), h. split; [|done]. by eapply dict_inv_final.
Qed.

(** C1.  With row-aligned collaborators, and under "land_type_area"
    with an interpolation that gives back the target table it was
    handed at line 164: whenever the target period occurs among the
    period values of the concatenated collections, the combined table
    that [harmonize] returns has (rows of the target frame) x (distinct
    period values) rows, one for every pair of a target polygon and a
    period: the periods come group by group, as many groups as period
    values, and row [k] of the group of period [p] has the row label of
    row [k] of the target frame and [p] in the period column. *)
Theorem harmonize_row_count {C : Contract} df st' part :
  target_kept weights_method ->
  run = (Return df, st') ->
  period_partition collections time_col target_year = Return part ->
  period_present target_year (times_of part) ->
  let t := target_of part in
  nrows df = nrows t * length (times_of part) /\
  length (period_order target_year (times_of part)) = length (times_of part) /\
  forall j p k r,
    period_order target_year (times_of part) !! j = Some p ->
    body t !! k = Some r ->
    exists r',
      body df !! (j * nrows t + k) = Some r' /\ r'.1 = r.1 /\
      cell_of (columns df) r'.2 time_col = Some p.
Proof.
  intros Hkeep Hrun Hpart Hpresent t.
  destruct (harmonize_tables _ _ _ Hkeep Hrun Hpart Hpresent)
    as (tables & h & Htables & Hh & ->).
  destruct (period_partition_Return _ _ _ _ Hpart) as [Hnd Hidx].
  pose proof Hh as Hcols.
  apply pd_concat_Return in Hcols as (Hcols & bs & Hbs & Hbody).
  assert (Forall (fun b' => length b' = nrows t) bs) as Hblocks.
  { apply Forall_forall. intros b Hb.
    apply list_elem_of_lookup in Hb as [j Hj].
    destruct (Forall2_lookup_r _ _ _ _ _ Hbs Hj) as (v & Hv & Hre).
    destruct (Forall2_lookup_r _ _ _ _ _ Htables Hv) as (p & Hp & Hpv).
    apply reindex_columns_Return in Hre as [-> _].
    by eapply period_table_nrows. }
  assert (length (period_order target_year (times_of part))
          = length (times_of part)) as Hgroups.
  { unfold period_order. simpl length.
    by rewrite (length_others target_year _ Hnd Hpresent). }
  split; [|split; [done|]].
  - unfold nrows at 1. simpl. rewrite Hbody.
    rewrite (length_concat_uniform bs (nrows t)) by done.
    rewrite <- (Forall2_length _ _ _ Hbs), <- (Forall2_length _ _ _ Htables).
    rewrite Hgroups. lia.
  - intros j p k r Hj Hk.
    destruct (Forall2_lookup_l _ _ _ _ _ Htables Hj) as (v & Hv & Hpv).
    destruct (Forall2_lookup_l _ _ _ _ _ Hbs Hv) as (b & Hb & Hre).
    destruct (period_table_period _ _ _ _ _ Hidx _ _ _ _ Hpv Hk)
      as (r1 & Hr1 & Hlab & Hper).
    apply reindex_columns_Return in Hre as [Hlen Hre].
    destruct (Hre _ _ Hr1) as (r' & Hr' & Hlab' & Hcells).
    exists r'. split; [|split; [congruence|]].
    + simpl. rewrite Hbody.
      rewrite (lookup_concat_uniform bs (nrows t) j k b); try done.
      by eapply lookup_lt_Some.
    + cbn [columns GeoDataFrame]. rewrite Hcells; [done| |].
      * eapply period_table_has_columns; [done..|]. tauto.
      * rewrite Hcols. apply elem_of_combined_columns. exists v. split.
        -- by eapply list_elem_of_lookup_2.
        -- eapply period_table_has_columns; [done..|]. tauto.
Qed.

(** C2.  With row-aligned collaborators, under "land_type_area" with an
    interpolation that gives back the target table it was handed at
    line 164, and with a period column that is neither the geometry
    nor the identifier column: the combined table
    is the concatenation of one table per period, in the order of the
    period groups; row k of the table of period p carries the label, the
    geometry and the identifier of row k of the target frame, and the
    period p; and so does row k of the group of p in the combined
    table. *)
Theorem harmonize_rows_carry_target {C : Contract} df st' part :
  target_kept weights_method ->
  time_col <> "geometry"%string -> time_col <> index ->
  run = (Return df, st') ->
  period_partition collections time_col target_year = Return part ->
  period_present target_year (times_of part) ->
  let t := target_of part in
  exists tables h,
    pd_concat tables true = Return h /\ df = GeoDataFrame h None /\
    length tables = length (period_order target_year (times_of part)) /\
    forall j p k r,
      period_order target_year (times_of part) !! j = Some p ->
      body t !! k = Some r ->
      (exists v r1,
          tables !! j = Some v /\ body v !! k = Some r1 /\
          carries index time_col (columns t) (columns v) p r r1) /\
      (exists r',
          body df !! (j * nrows t + k) = Some r' /\
          carries index time_col (columns t) (columns df) p r r').
Proof.
  intros Hkeep Hne1 Hne2 Hrun Hpart Hpresent t.
  destruct (harmonize_tables _ _ _ Hkeep Hrun Hpart Hpresent)
    as (tables & h & Htables & Hh & ->).
  exists tables, h. split; [done|]. split; [done|].
  split; [by rewrite (Forall2_length _ _ _ Htables)|].
  intros j p k r Hj Hk.
  destruct (period_partition_Return _ _ _ _ Hpart) as [Hnd Hidx].
  pose proof Hh as Hcols.
  apply pd_concat_Return in Hcols as (Hcols & bs & Hbs & Hbody).
  destruct (Forall2_lookup_l _ _ _ _ _ Htables Hj) as (v & Hv & Hpv).
  destruct (Forall2_lookup_l _ _ _ _ _ Hbs Hv) as (b & Hb & Hre).
  destruct (period_table_carries _ _ _ _ _ Hidx _ _ _ _ Hne1 Hne2 Hpv Hk)
    as (r1 & Hr1 & Hcar).
  split; [by exists v, r1|].
  apply reindex_columns_Return in Hre as [Hlen Hre].
  destruct (Hre _ _ Hr1) as (r' & Hr' & Hlab & Hcells).
  exists r'. split.
  - simpl. rewrite Hbody.
    rewrite (lookup_concat_uniform bs (nrows t) j k b); try done.
    + apply Forall_forall. intros b' Hb'.
      apply list_elem_of_lookup in Hb' as [j' Hj'].
      destruct (Forall2_lookup_r _ _ _ _ _ Hbs Hj') as (v' & Hv' & Hre').
      destruct (Forall2_lookup_r _ _ _ _ _ Htables Hv') as (p' & Hp' & Hpv').
      apply reindex_columns_Return in Hre' as [-> _].
      by eapply period_table_nrows.
    + by eapply lookup_lt_Some.
  - assert (forall c, c = "geometry"%string \/ c = index \/ c = time_col ->
              cell_of (columns h) r'.2 c = cell_of (columns v) r1.2 c) as Hsame.
    { intros c Hc. apply Hcells.
      - by eapply period_table_has_columns.
      - rewrite Hcols. apply elem_of_combined_columns. exists v. split.
        + by eapply list_elem_of_lookup_2.
        + by eapply period_table_has_columns. }
    destruct Hcar as (Hl & Hg1 & Hg2 & Hi1 & Hi2 & Ht).
    unfold carries. simpl. rewrite !Hsame by tauto.
    repeat split; try done. congruence.
Qed.

(** C3.  With both variable lists empty [harmonize] fails at once, before
    any CRS check and before any call of a primitive; what it raises is
    the [TypeError] Python answers to [raise] of a string, not an error
    that carries the usage message. *)
Theorem harmonize_no_variables_raises_type_error :
  call_harmonize collections target_year weights_method (Some []) (Some [])
    allocate_total raster_path codes force_crs_match index time_col
  = (Raise raise_of_str, {| heap := collections; calls := [] |}).
Proof. reflexivity. Qed.

(** C4 (amended).  When the variable lists pass the first check: if some
    collection lacks a coordinate reference system, [harmonize] fails
    with the missing-CRS error; if all have one and some collection's
    differs from the first collection's, it fails with the CRS-mismatch
    error; in both cases the heap and the (empty) log of primitive calls
    are as at the start. *)
Theorem harmonize_crs_errors :
  variables_given extensive_variables intensive_variables ->
  (Exists (fun c => crs_of c = None) collections ->
   run = (Raise MissingCRSError, {| heap := collections; calls := [] |})) /\
  (Forall (fun c => is_Some (crs_of c)) collections ->
   Exists (fun c => crs_of c <> first_crs collections) collections ->
   run = (Raise crs_mismatch, {| heap := collections; calls := [] |})).
Proof.
  intros Hvars. unfold call_harmonize, harmonize. split.
  - intros Hex. apply bind_Raise_eq. rewrite validate_collections by done.
    unfold validate_outcome.
    assert (forallb has_crs collections = false) as ->; [|done].
    apply not_true_is_false. rewrite forallb_forall. intros Hall.
    apply Exists_exists in Hex as (c & Hc & Hnone).
    apply list_elem_of_In, Hall, bool_decide_eq_true in Hc as [? Hsome].
    congruence.
  - intros Hall Hex. apply bind_Raise_eq. rewrite validate_collections by done.
    unfold validate_outcome.
    assert (forallb has_crs collections = true) as ->.
    { apply forallb_forall. intros c Hc%list_elem_of_In.
      apply bool_decide_eq_true. by eapply Forall_forall in Hall. }
    assert (forallb (fun c => bool_decide (crs_of c = first_crs collections))
              collections = false) as ->; [|done].
    apply not_true_is_false. rewrite forallb_forall. intros Hsame.
    apply Exists_exists in Hex as (c & Hc & Hdiff).
    by apply list_elem_of_In, Hsame, bool_decide_eq_true in Hc.
Qed.

(** C5 (amended).  With a [weights_method] that is neither "area" nor
    "land_type_area", on input that passes validation and partition, no
    primitive is called; if the concatenated input has a period value,
    the first iteration fails with the unbound-local error on
    [interpolation]; if it has none, [harmonize] returns the target
    frame, sorted by column, as the combined table. *)
Theorem harmonize_unsupported_method part :
  weights_method <> "area"%string -> weights_method <> "land_type_area"%string ->
  variables_given extensive_variables intensive_variables ->
  validate_outcome collections = Return tt ->
  period_partition collections time_col target_year = Return part ->
  calls run.2 = [] /\
  (times_of part <> [] -> run.1 = Raise (UnboundLocalError "interpolation")) /\
  (times_of part = [] ->
   run.1 = let? h := pd_concat [target_of part] true in
           Return (GeoDataFrame h None)).
Proof.
  intros Ha Hl Hvars Hval Hpart. unfold call_harmonize, harmonize.
  erewrite bind_Return_eq
    by (rewrite validate_collections, Hval by done; reflexivity).
  erewrite bind_Return_eq
    by (apply partition_collections;
        [by apply validate_outcome_Return | done]).
  pose proof Hpart as Hpart'. unfold period_partition in Hpart'.
  apply obind_Return in Hpart' as (d & Hd & Hpart').
  apply obind_Return in Hpart' as (s & Hs & Hpart').
  apply obind_Return in Hpart' as (t & Ht & [= <-]).
  cbn [times_of target_of dfs_of].
  destruct (unique s) as [|p times] eqn:Htimes.
  - cbn [for_in]. erewrite bind_Return_eq by reflexivity.
    unfold assemble. cbn [interpolated_dfs dict_set].
    change (dict_values [(target_year, t)]) with [t].
    unfold bind, lift. destruct (pd_concat [t] true); by repeat split.
  - cbn [for_in].
    erewrite bind_Raise_eq.
    2: { apply bind_Raise_eq.
         eapply interpolate_period_unsupported; try done.
         cbn [heap]. by apply list_lookup_middle. }
    by repeat split.
Qed.

(** C10 (amended).  [harmonize] fails with the type error of [len(None)]
    at the first check when both variable lists are left at their
    default, when [extensive_variables] is [None], and when it is an
    empty list and [intensive_variables] is [None]; when
    [extensive_variables] is a non-empty list the check passes whatever
    [intensive_variables] is, [None] included, because [and] does not
    evaluate its second operand; and with both lists empty the check
    raises a string, which surfaces as a type error. *)
Theorem harmonize_first_check :
  (call_with_defaults collections target_year
   = (Raise len_of_None, {| heap := collections; calls := [] |})) /\
  (call_harmonize collections target_year weights_method None intensive_variables
     allocate_total raster_path codes force_crs_match index time_col
   = (Raise len_of_None, {| heap := collections; calls := [] |})) /\
  (call_harmonize collections target_year weights_method (Some []) None
     allocate_total raster_path codes force_crs_match index time_col
   = (Raise len_of_None, {| heap := collections; calls := [] |})) /\
  (forall x ev st,
     check_variables (Some (x :: ev)) intensive_variables st = (Return tt, st)) /\
  (call_harmonize collections target_year weights_method (Some []) (Some [])
     allocate_total raster_path codes force_crs_match index time_col
   = (Raise raise_of_str, {| heap := collections; calls := [] |})).
Proof. by repeat split. Qed.

End claims.


(** The sample collaborators keep to the contract; the well-behaved ones
    also give back the target table as they found it. *)
Lemma pure_primitives_contract : @Contract pure_primitives.
Proof.
  split.
  - intros s t e i a r s' t' [= <- _ _]. done.
  - intros s t e i a tb r s' t' [= <- _ _]. done.
Qed.

Lemma pure_primitives_keep_target : @keeps_target pure_primitives.
Proof. intros s t e i a tb r s' t' [= _ _ <-]. done. Qed.

Lemma clipping_primitives_contract : @Contract clipping_primitives.
Proof.
  split.
  - intros s t e i a r s' t' [= <- _ _]. done.
  - intros s t e i a tb r s' t' [= <- _ _]. done.
Qed.

Lemma reprojecting_primitives_contract : @Contract reprojecting_primitives.
Proof.
  split.
  - intros s t e i a r s' t' [= <- _ _]. done.
  - intros s t e i a tb r s' t' [= <- _ _]. done.
Qed.

Lemma warping_primitives_contract : @Contract warping_primitives.
Proof.
  split.
  - intros s t e i a r s' t' [= <- _ _]. done.
  - intros s t e i a tb r s' t' [= <- _ _]. done.
Qed.



Lemma harmonize_row_count_witness :
  land_call = (Return land_table, land_state) /\
  period_partition two_censuses "year" (Str "2010") = Return census_partition /\
  period_order (Str "2010") (times_of census_partition) = [Str "2010"; Str "2000"] /\
  nrows land_table = 3 * 2 /\
  exists r', body land_table !! (1 * 3 + 2) = Some r' /\ r'.1 = Num 2 /\
             cell_of (columns land_table) r'.2 "year" = Some (Str "2000").
Proof.
  split; [by vm_compute|]. split; [by vm_compute|]. split; [by vm_compute|].
  destruct (harmonize_row_count (P := pure_primitives) (O := distinct_objects)
              (C := pure_primitives_contract)
              two_censuses (Str "2010") "land_type_area" (Some ["pop"%string])
              (Some []) true (Some "nlcd.tif"%string) nlcd_codes true "geoid" "year"
              land_table land_state census_partition) as (Hcount & _ & Hrows).
  - intros _. exact pure_primitives_keep_target.
  - by vm_compute.
  - by vm_compute.
  - exists (Str "2010"). split; [|done]. by apply (bool_decide_unpack _).
  - split; [exact Hcount|].
    apply (Hrows 1 (Str "2000") 2
             (Num 2, [Num 42; Str "c"; Str "2010"; Num 30; Geom 202])).
    + by vm_compute.
    + by vm_compute.
Defined.

(** C1, as stated, fails under "land_type_area": the interpolation
    is handed [target_df] itself, and when it clips the table it was
    handed, the period tables built afterwards are shorter.  The arrays
    are row-aligned with the table as it was handed over; the target
    frame has three rows and there are two periods, and the combined
    table has five rows. *)
Lemma clipped_target_loses_rows :
  @Contract clipping_primitives /\
  period_partition two_censuses "year" (Str "2010") = Return census_partition /\
  period_present (Str "2010") (times_of census_partition) /\
  nrows (target_of census_partition) * length (times_of census_partition) = 6 /\
  clipped_call = (Return clipped_table, clipped_state) /\
  nrows clipped_table = 5 /\
  calls clipped_state = [ mkCall AreaTablesRaster 4 5; mkCall AreaInterpolate 4 3;
                          mkCall AreaTablesRaster 6 7; mkCall AreaInterpolate 6 3 ].
Proof.
  split; [exact clipping_primitives_contract|].
  split; [by vm_compute|]. split.
  { exists (Str "2010"). split; [|done]. by apply (bool_decide_unpack _). }
  repeat split; by vm_compute.
Qed.

Lemma harmonize_rows_carry_target_witness :
  census_call = (Return census_table, census_state) /\
  exists r',
    body census_table !! (1 * 3 + 2) = Some r' /\
    carries "geoid" "year" (columns (target_of census_partition))
      (columns census_table) (Str "2000")
      (Num 2, [Num 42; Str "c"; Str "2010"; Num 30; Geom 202]) r'.
Proof.
  split; [by vm_compute|].
  destruct (harmonize_rows_carry_target (P := pure_primitives)
              (O := distinct_objects) (C := pure_primitives_contract)
              two_censuses (Str "2010") "area" (Some ["pop"%string]) (Some []) true
              None nlcd_codes true "geoid" "year" census_table census_state
              census_partition) as (tables & h & _ & _ & _ & Hrows).
  - intros _. exact pure_primitives_keep_target.
  - done.
  - done.
  - by vm_compute.
  - by vm_compute.
  - exists (Str "2010"). split; [|done]. by apply (bool_decide_unpack _).
  - apply (Hrows 1 (Str "2000") 2
             (Num 2, [Num 42; Str "c"; Str "2010"; Num 30; Geom 202])).
    + by vm_compute.
    + by vm_compute.
Defined.

(** C2, as stated, fails under "land_type_area": the interpolation is
    handed [target_df] itself, and when it re-projects the table it was
    handed, the geometries attached afterwards are not those of the
    target frame, and they differ from one period group to the next. *)
Lemma reprojected_target_changes_geometries :
  @Contract reprojecting_primitives /\
  period_partition two_censuses "year" (Str "2010") = Return census_partition /\
  period_present (Str "2010") (times_of census_partition) /\
  geometries (Return (target_of census_partition))
  = Return [Geom 200; Geom 201; Geom 202] /\
  geometries (call_harmonize (P := reprojecting_primitives) (O := distinct_objects)
                two_censuses (Str "2010") "land_type_area" (Some ["pop"%string])
                (Some []) true (Some "nlcd.tif"%string) nlcd_codes true
                "geoid" "year").1
  = Return [Geom 2200; Geom 2201; Geom 2202; Geom 1200; Geom 1201; Geom 1202].
Proof.
  split; [exact reprojecting_primitives_contract|].
  split; [by vm_compute|]. split.
  { exists (Str "2010"). split; [|done]. by apply (bool_decide_unpack _). }
  split; by vm_compute.
Qed.

(** C4, as stated, fails: with both variable lists empty, a collection
    without coordinate reference system does not lead to a
    reference-system error; the check of the variable lists comes
    first. *)
Lemma crs_error_preempted_by_variable_check :
  Exists (fun c => crs_of c = None) unreferenced_censuses /\
  (call_harmonize (P := pure_primitives) (O := distinct_objects)
      unreferenced_censuses (Str "2010") "area"
     (Some []) (Some []) true None nlcd_codes true "geoid" "year").1
  = Raise raise_of_str /\
  raise_of_str <> MissingCRSError /\ raise_of_str <> crs_mismatch.
Proof. split; [by left | by repeat split]. Qed.

Lemma harmonize_crs_errors_witness :
  (call_harmonize (P := pure_primitives) (O := distinct_objects)
      unreferenced_censuses (Str "2010") "area"
     (Some ["pop"%string]) (Some []) true None nlcd_codes true "geoid" "year")
  = (Raise MissingCRSError, {| heap := unreferenced_censuses; calls := [] |}) /\
  (call_harmonize (P := pure_primitives) (O := distinct_objects)
      mixed_censuses (Str "2010") "area"
     (Some ["pop"%string]) (Some []) true None nlcd_codes true "geoid" "year")
  = (Raise crs_mismatch, {| heap := mixed_censuses; calls := [] |}).
Proof.
  split.
  - apply (harmonize_crs_errors (P := pure_primitives) (O := distinct_objects)
      unreferenced_censuses
             (Str "2010") "area" (Some ["pop"%string]) (Some []) true None
             nlcd_codes true "geoid" "year").
    + exists ["pop"%string]. split; [done|]. by left.
    + by left.
  - apply (harmonize_crs_errors (P := pure_primitives) (O := distinct_objects)
      mixed_censuses
             (Str "2010") "area" (Some ["pop"%string]) (Some []) true None
             nlcd_codes true "geoid" "year").
    + exists ["pop"%string]. split; [done|]. by left.
    + by repeat constructor.
    + right. by left.
Defined.

(** C5, as stated, fails: with a regression method the code has no error
    of its own.  On the scenario the run ends in the unbound-local error
    of the first iteration; on a collection without rows it returns a
    table. *)
Lemma unsupported_method_is_not_flagged :
  (call_harmonize (P := pure_primitives) (O := distinct_objects)
      two_censuses (Str "2010")
     "land_type_Poisson_regression" (Some ["pop"%string]) (Some []) true None
     nlcd_codes true "geoid" "year").1
  = Raise (UnboundLocalError "interpolation") /\
  (call_harmonize (P := pure_primitives) (O := distinct_objects)
      [no_tracts] (Str "2010")
     "land_type_Gaussian_regression" (Some ["pop"%string]) (Some []) true None
     nlcd_codes true "geoid" "year").1
  = Return {| klass := GeoFrame;
              columns := ["geoid"; "geometry"; "index"; "pop"; "year"]%string;
              index_name := None;
              body := [];
              geometry_crs := Some wgs84 |}.
Proof. split; by vm_compute. Qed.

Lemma harmonize_unsupported_method_witness :
  let r := call_harmonize (P := pure_primitives) (O := distinct_objects)
      two_censuses (Str "2010")
             "land_type_Poisson_regression" (Some ["pop"%string]) (Some []) true None
             nlcd_codes true "geoid" "year" in
  calls r.2 = [] /\ r.1 = Raise (UnboundLocalError "interpolation").
Proof.
  destruct (harmonize_unsupported_method (P := pure_primitives) (O := distinct_objects)
      two_censuses
              (Str "2010") "land_type_Poisson_regression" (Some ["pop"%string])
              (Some []) true None nlcd_codes true "geoid" "year" census_partition)
    as (Hcalls & Hraise & _).
  - done.
  - done.
  - exists ["pop"%string]. split; [done|]. by left.
  - by vm_compute.
  - by vm_compute.
  - split; [exact Hcalls|]. by apply Hraise.
Defined.

(** C10, as stated, fails: with a non-empty [extensive_variables] and
    [intensive_variables] left at [None] the first check passes; here the
    run goes on to the CRS check and ends there, with no type error. *)
Lemma none_intensive_passes_first_check :
  (call_harmonize (P := pure_primitives) (O := distinct_objects)
      unreferenced_censuses (Str "2010") "area"
     (Some ["pop"%string]) None true None nlcd_codes true "geoid" "year").1
  = Raise MissingCRSError /\
  (call_harmonize (P := pure_primitives) (O := distinct_objects)
      two_censuses (Str "2010") "area"
     (Some ["pop"%string]) None true None nlcd_codes true "geoid" "year")
  = (Raise len_of_None,
     {| heap := two_censuses ++ [dfs_of census_partition; target_of census_partition;
                                 tracts wgs84 "2000" 0 100; target_of census_partition];
        calls := [mkCall AreaInterpolateBinning 4 5] |}).
Proof. split; by vm_compute. Qed.

Section more_claims.
Context {P : Primitives} {O : Objects}.
Variables (collections : list DataFrame) (target_year : cell)
          (weights_method : string)
          (extensive_variables intensive_variables : option (list string))
          (allocate_total : bool) (raster_path : option string)
          (codes : list Z) (force_crs_match : bool)
          (index time_col : string).

Abbreviation run :=
  (call_harmonize collections target_year weights_method extensive_variables
     intensive_variables allocate_total raster_path codes force_crs_match
     index time_col).

(** C6.  The table [harmonize] returns is a geometry-aware table.  The
    coordinate reference system stored at line 128 is never used: the
    constructor of line 187 is called without it, and the table has
    the system that the geometry columns of the tables of the
    dictionary carry.  That is the system of the first collection when
    the period column is not the geometry column and, under
    "land_type_area", the interpolation gives back the target table it
    was handed at line 164.  The columns of the returned table are the
    union of the columns of the tables of the dictionary, its rows are
    their rows, table after table, and a row has a missing value in
    every column that its table lacks. *)
Theorem harmonize_result_crs df st' :
  call_harmonize collections target_year weights_method extensive_variables
    intensive_variables allocate_total raster_path codes force_crs_match
    index time_col = (Return df, st') ->
  klass df = GeoFrame /\
  (time_col <> "geometry"%string -> target_kept weights_method ->
   is_Some (first_crs collections) /\ crs_of df = first_crs collections) /\
  exists part d blocks,
    period_partition collections time_col target_year = Return part /\
    dict_inv (period_columns extensive_variables index time_col)
             target_year (target_of part) (times_of part) d /\
    (forall c, c ∈ columns df <->
               exists o, o ∈ dict_values d /\ c ∈ columns o) /\
    Forall2 (fun o b => reindex_columns (columns df) o = Return b)
            (dict_values d) blocks /\
    body df = concat blocks /\
    (forall j o b k r c,
        dict_values d !! j = Some o -> blocks !! j = Some b ->
        b !! k = Some r -> c ∈ columns df -> c ∉ columns o ->
        cell_of (columns df) r.2 c = Some NaN).
Proof.
  intros Hrun. pose proof Hrun as Hrun'.
  apply harmonize_Return_columns in Hrun
    as (part & d & h & Hpart & Hdict & Hh & ->).
  split; [done|].
  split; [intros Htime Hkeep; by eapply harmonize_Return_crs|].
  exists part, d.
  apply pd_concat_Return in Hh as (Hcols & blocks & Hblocks & Hbody).
  exists blocks. cbn [columns body GeoDataFrame].
  split; [done|]. split; [done|].
  split; [intros c; rewrite Hcols; apply elem_of_combined_columns|].
  split; [done|]. split; [done|].
  intros j o b k r c Ho Hb Hr Hc Hnc.
  destruct (Forall2_lookup_l _ _ _ _ _ Hblocks Ho) as (b' & Hb' & Hre).
  rewrite Hb in Hb'. injection Hb' as <-.
  by eapply reindex_columns_missing.
Qed.

(** C8 (amended).  The target frame has a fresh 0-based row index; its
    original row index is kept, row by row, as a new first column,
    which is named after the index of the concatenated collections, or
    "index" when that index has no name ("level_0" when there is a
    column "index" already); and when the target period occurs among
    the period values, the combined table has no column beyond the
    extensive variable names, "geometry", the identifier column and the
    period column. *)
Theorem target_frame_keeps_old_index part :
  period_partition collections time_col target_year = Return part ->
  let t := target_of part in
  row_index t = RangeIndex (nrows t) /\
  (exists s,
      columns t = index_label (dfs_of part) :: columns (dfs_of part) /\
      index_label (dfs_of part)
      = match index_name (dfs_of part) with
        | Some n => n
        | None => if bool_decide ("index"%string ∈ columns (dfs_of part))
                  then "level_0"%string else "index"%string
        end /\
      (index_label (dfs_of part) ∉ columns (dfs_of part)) /\
      getitem no_unique
        (dfs_of part) time_col = Return s /\
      forall k r,
        body (select_rows (dfs_of part) (eq_mask s target_year)) !! k = Some r ->
        body t !! k = Some (Num (Z.of_nat k), r.1 :: r.2)) /\
  (forall df st',
      run = (Return df, st') -> period_present target_year (times_of part) ->
      forall c, c ∈ columns df ->
        (c ∈ names extensive_variables) \/ c = "geometry"%string \/
        c = index \/ c = time_col).
Proof.
  intros Hpart. pose proof Hpart as Hpart'. unfold period_partition in Hpart'.
  apply obind_Return in Hpart' as (d & Hd & Hpart').
  apply obind_Return in Hpart' as (s & Hs & Hpart').
  apply obind_Return in Hpart' as (t & Ht & [= <-]). cbn.
  apply reset_index_Return in Ht as (_ & Hidx & _ & (Hcols & Hname) & Hrows).
  split; [done|]. split; [by exists s|].
  intros df st' Hrun Hpresent c Hc.
  apply harmonize_Return_columns in Hrun
    as (part' & dict & h & Hpart' & Hdict & Hh & ->).
  rewrite Hpart in Hpart'. injection Hpart' as <-.
  pose proof (dict_inv_final _ _ _ _ _ Hdict Hpresent) as Htables.
  apply pd_concat_Return in Hh as (Hcolsh & _).
  cbn in Hc. rewrite Hcolsh in Hc.
  apply elem_of_combined_columns in Hc as (o & Ho & Hc).
  apply list_elem_of_lookup in Ho as [j Hj].
  destruct (Forall2_lookup_r _ _ _ _ _ Htables Hj) as (p & _ & Hp).
  by apply Hp.
Qed.

End more_claims.

Lemma harmonize_result_crs_witness :
  census_call = (Return census_table, census_state) /\
  first_crs two_censuses = Some "EPSG:4326"%string /\
  klass census_table = GeoFrame /\
  crs_of census_table = first_crs two_censuses.
Proof.
  split; [by vm_compute|]. split; [done|].
  destruct (harmonize_result_crs (P := pure_primitives) (O := distinct_objects)
              two_censuses (Str "2010") "area" (Some ["pop"%string]) (Some []) true
              None nlcd_codes true "geoid" "year" census_table census_state)
    as (Hklass & Hcrs & _); [by vm_compute|].
  split; [exact Hklass|]. apply Hcrs; [done|]. intros Hl. discriminate Hl.
Defined.

(** C6, as stated, fails under "land_type_area": the interpolation is
    handed [target_df] itself, and when it brings the table it was handed
    to the coordinate reference system of the raster, the geometry
    columns attached afterwards carry that system, and so does the
    returned table; nothing restores the system of the collections. *)
Lemma result_crs_is_not_restored :
  @Contract warping_primitives /\
  validate_outcome two_censuses = Return tt /\
  first_crs two_censuses = Some "EPSG:4326"%string /\
  warped_call = (Return warped_table, warped_state) /\
  klass warped_table = GeoFrame /\
  crs_of warped_table = Some "EPSG:3857"%string.
Proof.
  split; [exact warping_primitives_contract|]. repeat split; by vm_compute.
Qed.

(** C8, as stated, fails: the row labels 40, 41, 42 of the 2010
    collection are the column "index" of the target frame; and when the
    identifier column is that column, they are in the combined table
    too. *)
Lemma old_index_is_a_column_of_the_target_frame :
  row_index (tracts wgs84 "2010" 40 200) = [Num 40; Num 41; Num 42] /\
  period_partition two_censuses "year" (Str "2010") = Return census_partition /\
  columns (target_of census_partition)
  = ["index"; "geoid"; "year"; "pop"; "geometry"]%string /\
  getitem (KeyError "index") (target_of census_partition) "index"
  = Return [(Num 0, Num 40); (Num 1, Num 41); (Num 2, Num 42)] /\
  (let? df := (call_harmonize (P := pure_primitives) (O := distinct_objects)
      two_censuses (Str "2010") "area"
                 (Some ["pop"%string]) (Some []) true None nlcd_codes true
                 "index" "year").1 in
   let? s := getitem (KeyError "index") df "index" in Return (snd <$> s))
  = Return [Num 40; Num 41; Num 42; Num 40; Num 41; Num 42].
Proof. repeat split; by vm_compute. Qed.

Lemma target_frame_keeps_old_index_witness :
  period_partition two_censuses "year" (Str "2010") = Return census_partition /\
  row_index (target_of census_partition) = [Num 0; Num 1; Num 2] /\
  columns (target_of census_partition)
  = "index"%string :: columns (dfs_of census_partition) /\
  columns census_table = ["geoid"; "geometry"; "pop"; "year"]%string.
Proof.
  split; [by vm_compute|].
  destruct (target_frame_keeps_old_index (P := pure_primitives)
              (O := distinct_objects) two_censuses
              (Str "2010") "area" (Some ["pop"%string]) (Some []) true None nlcd_codes
              true "geoid" "year" census_partition)
    as (Hidx & (s & Hcols & _) & _).
  - by vm_compute.
  - split; [exact Hidx|]. split; [exact Hcols | by vm_compute].
Defined.

(** C9.  Under "land_type_area" the interpolation primitive is handed
    [target_df] itself (object 3, in both iterations), while the raster
    primitive gets fresh copies (objects 5 and 7).  With collaborators
    that re-project the target table they are handed, the geometries
    attached to the period tables are the re-projected ones: once for
    "2000", the period the loop meets first, twice for "2010", whose rows
    come first in the combined table; under "area", where only copies are
    handed out, they are the geometries of the target frame.  The
    collections themselves are as they were. *)
Theorem land_type_area_shares_target_df :
  let land := call_harmonize (P := reprojecting_primitives) (O := distinct_objects)
      two_censuses (Str "2010")
                "land_type_area" (Some ["pop"%string]) (Some []) true
                (Some "nlcd.tif"%string) nlcd_codes true "geoid" "year" in
  let area := call_harmonize (P := reprojecting_primitives) (O := distinct_objects)
      two_censuses (Str "2010")
                "area" (Some ["pop"%string]) (Some []) true None nlcd_codes true
                "geoid" "year" in
  calls land.2 = [ mkCall AreaTablesRaster 4 5; mkCall AreaInterpolate 4 3;
                   mkCall AreaTablesRaster 6 7; mkCall AreaInterpolate 6 3 ] /\
  geometries land.1 = Return [ Geom 2200; Geom 2201; Geom 2202;
                               Geom 1200; Geom 1201; Geom 1202 ] /\
  calls area.2 = [ mkCall AreaInterpolateBinning 4 5;
                   mkCall AreaInterpolateBinning 6 7 ] /\
  geometries area.1 = Return [ Geom 200; Geom 201; Geom 202;
                               Geom 200; Geom 201; Geom 202 ] /\
  take 2 (heap land.2) = two_censuses.
Proof. repeat split; by vm_compute. Qed.

End Claims.

(** * Runs of [harmonize], forward *)

Module RunFacts.
Import Pandas Py Harmonize Samples PandasFacts ProfileFacts PyFacts LoopFacts DictFacts ConcatFacts PrologueFacts HarmonizeFacts ErrorFacts FrameFacts Claims.

(** ** The order of labels *)

Lemma leb_spec s1 s2 :
  String.leb s1 s2 = true <-> String_as_OT.lt s1 s2 \/ s1 = s2.
Proof.
  unfold String.leb. rewrite <- String_as_OT.cmp_lt, <- String_as_OT.cmp_eq.
  change String_as_OT.cmp with String.compare.
  destruct (String.compare s1 s2); split; try done; try tauto.
  by intros [?|?].
Qed.

Lemma leb_trans s1 s2 s3 :
  String.leb s1 s2 = true -> String.leb s2 s3 = true -> String.leb s1 s3 = true.
Proof.
  rewrite !leb_spec. intros [H12| ->] [H23| ->]; try tauto.
  left. by eapply String_as_OT.lt_trans.
Qed.

Lemma insert_sorted_sorted x l :
  StronglySorted (fun a b => String.leb a b = true) l ->
  StronglySorted (fun a b => String.leb a b = true) (insert_sorted x l).
Proof.
  induction 1 as [|y l Hl IH Hy]; simpl.
  - by repeat constructor.
  - destruct (String.leb x y) eqn:Hxy.
    + constructor; [by constructor|]. constructor; [done|].
      eapply Forall_impl; [exact Hy|]. intros z Hz. simpl in Hz.
      by eapply leb_trans.
    + constructor; [done|].
      apply Forall_forall. intros z Hz.
      rewrite insert_sorted_perm in Hz. apply elem_of_cons in Hz as [->|Hz].
      * destruct (String.leb_total x y) as [?|?]; congruence.
      * by eapply Forall_forall in Hy.
Qed.

Lemma sort_labels_sorted l :
  StronglySorted (fun a b => String.leb a b = true) (sort_labels l).
Proof.
  induction l as [|x l IH]; simpl; [constructor|]. by apply insert_sorted_sorted.
Qed.

(** ** Columns and periods *)

Lemma getitem_missing dup df c :
  c ∉ columns df -> getitem dup df c = Raise (KeyError c).
Proof.
  intros Hc%find_col_None. unfold getitem. rewrite Hc.
  by destruct (count_col c (columns df)) as [|[|?]].
Qed.

Lemma getitem_is_column dup df c s : getitem dup df c = Return s -> c ∈ columns df.
Proof.
  intros (k & Hk & _)%getitem_Return. apply find_col_is_Some. by eexists.
Qed.

Lemma elem_of_unique s p : p ∈ unique s <-> p ∈ snd <$> s.
Proof.
  unfold unique. destruct (first_occurrences_spec [] (snd <$> s)) as [_ ->].
  rewrite elem_of_nil. tauto.
Qed.

Lemma cell_eqb_true a b : cell_eqb a b = true <-> a = b /\ a <> NaN.
Proof.
  split.
  - intros H. pose proof (cell_eqb_eq _ _ H) as ->. by destruct b.
  - intros [-> Hb]. destruct b; simpl; try done; by apply bool_decide_eq_true.
Qed.

(** A period that is no period value of the table selects no row. *)
Lemma select_rows_absent df s p :
  ~ period_present p (unique s) -> nrows (select_rows df (eq_mask s p)) = 0.
Proof.
  intros Habs. unfold nrows, select_rows, eq_mask. cbn [body].
  rewrite length_fmap.
  match goal with |- length ?l = 0 => destruct l as [|[b r] l'] eqn:Hf end; [done|].
  exfalso.
  assert ((b, r) ∈ (b, r) :: l') as Hbr by left.
  rewrite <- Hf in Hbr. apply list_elem_of_filter in Hbr as [Hb Hbr].
  simpl in Hb. subst b. apply elem_of_zip_l in Hbr.
  apply list_elem_of_fmap in Hbr as (q & Hq & Hin). symmetry in Hq.
  apply Habs. exists q.2. split; [|done].
  apply elem_of_unique. by apply list_elem_of_fmap_2.
Qed.

Lemma with_column_prefix c cols : exists tl, with_column c cols = cols ++ tl.
Proof.
  unfold with_column. case_bool_decide; [exists []; by rewrite app_nil_r | by eexists].
Qed.

Lemma DataFrame_of_width a cols df :
  DataFrame_of a cols = Return df -> shape1 a = length cols.
Proof. unfold DataFrame_of. by case_bool_decide. Qed.

(** The columns of the table of one period when both groups of variables
    are asked for: the extensive names twice, then what lines 181-183
    add. *)
Lemma both_groups_columns ev iv index time_col interp p0 t i v :
  ev <> [] -> iv <> [] ->
  build_profile (Some ev) (Some iv) interp = Return p0 ->
  attach index time_col p0 t i = Return v ->
  columns v
  = with_column time_col (with_column index (with_column "geometry" (ev ++ ev))).
Proof.
  intros Hev Hiv Hp0 Hv. rewrite (attach_columns _ _ _ _ _ _ Hv). do 3 f_equal.
  apply build_profile_Return in Hp0
    as (ev' & iv' & a0 & a1 & [= <-] & [= <-] & _ & Hcase).
  destruct Hcase as [(_ & ? & _)|[(? & _)|(_ & _ & e & w & He & Hw & Hp)]]; [done..|].
  apply DataFrame_of_Return in He as (_ & Hec & _).
  apply DataFrame_of_Return in Hw as (_ & Hwc & _).
  apply concat_axis1_Return in Hp as (-> & _). simpl.
  by rewrite app_nil_r, Hec, Hwc.
Qed.

(** These columns have a duplicate, and they are not in ascending order
    when the identifier sorts before "geometry". *)
Lemma both_groups_columns_dup ev index time_col :
  ev <> [] ->
  ~ NoDup (with_column time_col (with_column index (with_column "geometry" (ev ++ ev)))).
Proof.
  intros Hev Hnd.
  destruct (with_column_prefix "geometry" (ev ++ ev)) as [tl1 H1].
  destruct (with_column_prefix index (with_column "geometry" (ev ++ ev))) as [tl2 H2].
  destruct (with_column_prefix time_col
              (with_column index (with_column "geometry" (ev ++ ev)))) as [tl3 H3].
  rewrite H3, H2, H1 in Hnd.
  apply NoDup_app in Hnd as [Hnd _]. apply NoDup_app in Hnd as [Hnd _].
  apply NoDup_app in Hnd as [Hnd _]. apply NoDup_app in Hnd as (_ & Hdisj & _).
  destruct ev as [|x ev]; [done|]. apply (Hdisj x); left.
Qed.

Lemma both_groups_columns_unsorted ev index time_col :
  index ∉ ev -> String.leb "geometry" index = false ->
  ~ StronglySorted (fun a b => String.leb a b = true)
      (with_column time_col (with_column index (with_column "geometry" (ev ++ ev)))).
Proof.
  intros Hidx Hleb Hsorted.
  assert ("geometry"%string ∈ with_column "geometry" (ev ++ ev)) as Hg
    by (apply elem_of_with_column; tauto).
  assert (index ∉ with_column "geometry" (ev ++ ev)) as Hi.
  { rewrite elem_of_with_column, elem_of_app. intros [->|[?|?]]; [|done..].
    assert (String.leb "geometry" "geometry" = true) by done. congruence. }
  destruct (with_column_prefix time_col
              (with_column index (with_column "geometry" (ev ++ ev)))) as [tl3 H3].
  rewrite H3 in Hsorted. apply StronglySorted_app_1_l in Hsorted.
  unfold with_column at 1 in Hsorted. rewrite bool_decide_eq_false_2 in Hsorted by done.
  pose proof (StronglySorted_app_1_elem_of _ _ _ "geometry"%string index Hsorted Hg) as H.
  rewrite H in Hleb; [done|]. left.
Qed.

(** ** Tables that can be built *)

Lemma NoDup_RangeIndex n : NoDup (RangeIndex n).
Proof.
  unfold RangeIndex. apply NoDup_fmap_2; [|apply NoDup_seq].
  intros j k [= H]. lia.
Qed.

Lemma NoDup_with_column c cols : NoDup cols -> NoDup (with_column c cols).
Proof.
  intros Hnd. unfold with_column. case_bool_decide as Hc; [done|].
  apply NoDup_app. repeat split; [done| |apply NoDup_singleton].
  intros x Hx ->%list_elem_of_singleton. done.
Qed.

(** Assigning a series whose labels are all different never fails. *)
Lemma setitem_series_unique df c s tag :
  NoDup (fst <$> s) -> exists df', setitem_series df c s tag = Return df'.
Proof.
  intros Hnd. unfold setitem_series, align.
  case_bool_decide; [by eexists|]. rewrite bool_decide_eq_true_2 by done.
  by eexists.
Qed.

(** The table of one period for extensive variables only. *)
Lemma build_profile_extensive ev a0 a1 :
  ev <> [] -> shape1 a0 = length ev ->
  exists p0,
    build_profile (Some ev) (Some []) (Some (a0, a1)) = Return p0 /\
    columns p0 = ev /\ row_index p0 = RangeIndex (shape0 a0).
Proof.
  intros Hev Hw. unfold build_profile. cbn [len obind length local fst snd].
  change (names (Some ev)) with ev.
  rewrite bool_decide_eq_true_2 by (destruct ev; [done | simpl; lia]).
  rewrite bool_decide_eq_false_2 by lia.
  destruct (DataFrame_of a0 ev) as [e|err] eqn:He.
  2: { unfold DataFrame_of in He. by rewrite bool_decide_eq_true_2 in He. }
  cbn [obind]. eexists. split; [done|].
  apply DataFrame_of_Return in He as (_ & Hc & Hn & _).
  unfold row_index. cbn. rewrite app_nil_r, Nat.max_0_r, Hn.
  split; [done|]. by rewrite <- list_fmap_compose.
Qed.

(** Lines 181-183 succeed on a table that has the row labels of the
    target table, when the target table has one geometry and one
    identifier column. *)
Lemma attach_returns index time_col p0 t i g ident :
  row_index p0 = row_index t ->
  getitem not_one_column t "geometry" = Return g ->
  getitem not_one_column t index = Return ident ->
  exists v, attach index time_col p0 t i = Return v.
Proof.
  intros Hidx Hg Hident. unfold attach. rewrite Hg. cbn [obind].
  unfold setitem_series at 1.
  rewrite ensure_valid_index_same, align_same
    by (by rewrite (getitem_index _ _ _ _ Hg)).
  cbn [obind]. rewrite Hident. cbn [obind].
  assert (length (snd <$> g) = nrows p0) as Hlen.
  { rewrite length_fmap, (getitem_length _ _ _ _ Hg).
    symmetry. by apply same_index_nrows. }
  unfold setitem_series. rewrite retag_with_tag.
  rewrite ensure_valid_index_same, align_same
    by (by rewrite (getitem_index _ _ _ _ Hident), row_index_with_tag,
          row_index_set_column).
  cbn [obind]. by eexists.
Qed.

(** Tables with the same duplicate-free columns can be concatenated. *)
Lemma concat_bodies_same_columns cols new_cols objs :
  NoDup cols -> Forall (fun o => columns o = cols) objs ->
  exists b, concat_bodies new_cols objs = Return b.
Proof.
  intros Hnd. induction 1 as [|o objs Ho _ [b IH]]; simpl; [by eexists|].
  unfold reindex_columns. case_bool_decide; [|rewrite bool_decide_eq_true_2 by congruence];
    cbn [obind]; rewrite IH; by eexists.
Qed.

Lemma geometry_tags_replicate tag objs :
  Forall (fun o => geometry_crs o = tag) objs ->
  exists n, geometry_tags objs = replicate n tag.
Proof.
  unfold geometry_tags. induction 1 as [|o objs Ho _ [n IH]]; [by exists 0|].
  destruct (decide ("geometry"%string ∈ columns o)) as [Hin|Hin].
  - rewrite filter_cons_True by done. exists (S n).
    by rewrite fmap_cons, IH, Ho.
  - rewrite filter_cons_False by done. by exists n.
Qed.

Lemma pd_concat_same_columns cols tag objs sort :
  objs <> [] -> NoDup cols ->
  Forall (fun o => columns o = cols) objs ->
  Forall (fun o => geometry_crs o = tag) objs ->
  exists h, pd_concat objs sort = Return h.
Proof.
  intros Hne Hnd Hall Htags. unfold pd_concat. destruct objs as [|o rest]; [done|].
  destruct (concat_bodies_same_columns cols (combined_columns (o :: rest) sort)
              (o :: rest) Hnd Hall) as [b ->].
  destruct (geometry_tags_replicate _ _ Htags) as [n ->].
  rewrite (common_crs_same tag) by (by apply Forall_replicate).
  cbn [obind]. by eexists.
Qed.

(** ** Cells of the table of one period *)

Lemma cell_of_is_column cols row c v : cell_of cols row c = Some v -> c ∈ cols.
Proof.
  unfold cell_of. destruct (find_col c cols) eqn:Hk; [|done].
  intros _. apply find_col_is_Some. by eexists.
Qed.

(** Under the first column that is labelled with an extensive name, row
    [k] of the table built by lines 171-180 holds the cell of the first
    array in row [k] and in the column of the name. *)
Lemma build_profile_cell ext int a0 a1 p0 c k0 k :
  build_profile ext int (Some (a0, a1)) = Return p0 ->
  find_col c (names ext) = Some k0 -> k < shape0 a0 ->
  exists r0, body p0 !! k = Some r0 /\
             cell_of (columns p0) r0.2 c = Some (item a0 k k0).
Proof.
  intros Hp0 Hc Hk.
  apply build_profile_Return in Hp0
    as (ev & iv & a0' & a1' & -> & -> & [= <- <-] & Hcase).
  change (names (Some ev)) with ev in Hc.
  pose proof (find_col_lt _ _ _ Hc) as Hk0.
  assert (forall e, DataFrame_of a0 ev = Return e ->
            (item a0 k <$> seq 0 (shape1 a0)) !! k0 = Some (item a0 k k0)) as Hcell.
  { intros e He%DataFrame_of_width.
    rewrite list_lookup_fmap, lookup_seq_lt by lia. done. }
  destruct Hcase as [(_ & _ & e & He & Hp)|[(-> & _)|(_ & _ & e & w & He & Hw & Hp)]];
    [|done|].
  - destruct (DataFrame_of_lookup _ _ _ k He Hk) as [Hw Hek].
    pose proof (DataFrame_of_Return _ _ _ He) as (_ & Hec & Hen & _).
    pose proof (concat_axis1_Return _ _ Hp) as (Hpc & _).
    eexists. split.
    + apply (concat_axis1_lookup _ _ k Hp). cbn. lia.
    + cbn. rewrite Hpc. cbn. rewrite !app_nil_r, Hec.
      unfold row_or_nan, cell_of. rewrite Hek, Hc. cbn. f_equal.
      apply nth_lookup_Some with (d := NaN). by eapply Hcell.
  - destruct (DataFrame_of_lookup _ _ _ k He Hk) as [Hw' Hek].
    pose proof (DataFrame_of_Return _ _ _ He) as (_ & Hec & Hen & _).
    pose proof (DataFrame_of_Return _ _ _ Hw) as (_ & Hwc & _).
    pose proof (concat_axis1_Return _ _ Hp) as (Hpc & _).
    eexists. split.
    + apply (concat_axis1_lookup _ _ k Hp). cbn. lia.
    + cbn. rewrite Hpc. cbn. rewrite !app_nil_r, Hec, Hwc.
      unfold cell_of. rewrite (find_col_app_l _ _ _ _ Hc). f_equal.
      apply nth_lookup_Some with (d := NaN).
      unfold row_or_nan at 1. rewrite Hek. cbn [snd].
      rewrite lookup_app_l by (rewrite length_fmap, length_seq; lia).
      by eapply Hcell.
Qed.

(** Lines 181-183 leave the other columns as they are. *)
Lemma attach_other index time_col p0 t i v k r0 c :
  row_index p0 = row_index t -> rectangular p0 ->
  attach index time_col p0 t i = Return v ->
  body p0 !! k = Some r0 ->
  c <> "geometry"%string -> c <> index -> c <> time_col ->
  exists r', body v !! k = Some r' /\
             cell_of (columns v) r'.2 c = cell_of (columns p0) r0.2 c.
Proof.
  intros Hidx Hrect Hv Hr0 Hn1 Hn2 Hn3.
  destruct (attach_Return _ _ _ _ _ _ Hidx Hv) as (dup & g & ident & Hg & Hident & ->).
  assert (nrows p0 = nrows t) as Hn by (by apply same_index_nrows).
  pose proof (lookup_lt_Some _ _ _ Hr0) as Hk. fold (nrows p0) in Hk.
  destruct (lookup_lt_is_Some_2 (snd <$> g) k) as [vg Hvg].
  { by rewrite length_fmap, (getitem_length _ _ _ _ Hg), <- Hn. }
  destruct (lookup_lt_is_Some_2 (snd <$> ident) k) as [vi Hvi].
  { by rewrite length_fmap, (getitem_length _ _ _ _ Hident), <- Hn. }
  assert (length r0.2 = length (columns p0)) as Hlen0
    by (by eapply (Forall_lookup_1 _ _ _ _ Hrect)).
  set (c1 := with_column "geometry" (columns p0)).
  set (c2 := with_column index c1).
  set (row1 := set_cell "geometry" vg (columns p0) r0.2).
  set (row2 := set_cell index vi c1 row1).
  set (row3 := set_cell time_col i c2 row2).
  assert (length row1 = length c1) as Hlen1 by (by apply set_cell_length).
  assert (length row2 = length c2) as Hlen2 by (by apply set_cell_length).
  exists (r0.1, row3). split.
  { rewrite body_with_tag.
    apply lookup_set_column. exists (r0.1, row2), i. split; [|split; [|done]].
    - apply lookup_set_column. exists (r0.1, row1), vi. split; [|done].
      apply lookup_set_column. exists r0, vg. done.
    - by apply lookup_replicate_2. }
  rewrite columns_with_tag, !columns_set_column. fold c1 c2. cbn [snd].
  subst row3 row2 row1 c2 c1.
  by rewrite !cell_of_set_cell_ne.
Qed.

(** The cells of a concatenation of period tables. *)
Lemma tables_values ext int index time_col t (Φ : cell -> ndarray -> Prop)
    periods tables h :
  row_index t = RangeIndex (nrows t) ->
  Forall2 (fun p v => exists a0 a1 p0,
               aligned ext int t (Some (a0, a1)) /\
               build_profile ext int (Some (a0, a1)) = Return p0 /\
               attach index time_col p0 t p = Return v /\ Φ p a0)
          periods tables ->
  pd_concat tables true = Return h ->
  forall j p k,
    periods !! j = Some p -> k < nrows t ->
    exists a0 r',
      Φ p a0 /\ body h !! (j * nrows t + k) = Some r' /\
      forall c k0,
        find_col c (names ext) = Some k0 ->
        c <> "geometry"%string -> c <> index -> c <> time_col ->
        cell_of (columns h) r'.2 c = Some (item a0 k k0).
Proof.
  intros Hidx Htables Hh j p k Hj Hk.
  pose proof Hh as Hcols.
  apply pd_concat_Return in Hcols as (Hcols & bs & Hbs & Hbody).
  destruct (Forall2_lookup_l _ _ _ _ _ Htables Hj)
    as (v & Hv & a0 & a1 & p0 & Hal & Hp0 & Hat & HΦ).
  destruct (Forall2_lookup_l _ _ _ _ _ Hbs Hv) as (b & Hb & Hre).
  exists a0.
  destruct (period_table_index ext int t Hidx p0 (Some (a0, a1)) Hal Hp0)
    as [Hrect Hidx0].
  assert (nrows p0 = nrows t) as Hn0 by (by apply same_index_nrows).
  destruct (lookup_lt_is_Some_2 (body p0) k) as [r0 Hr0]; [change (k < nrows p0); lia|].
  destruct (attach_shape _ _ _ _ _ _ Hidx0 Hat) as (Hnv & _ & _ & Hcv & _).
  apply reindex_columns_Return in Hre as [Hlen Hre].
  destruct (lookup_lt_is_Some_2 (body v) k) as [r1 Hr1]; [change (k < nrows v); lia|].
  assert (forall c, c <> "geometry"%string -> c <> index -> c <> time_col ->
            cell_of (columns v) r1.2 c = cell_of (columns p0) r0.2 c) as Hkeep.
  { intros c Hc1 Hc2 Hc3.
    destruct (attach_other index time_col p0 t p v k r0 c Hidx0 Hrect Hat Hr0)
      as (r1' & Hr1' & Hc); try done.
    rewrite Hr1 in Hr1'. by injection Hr1' as <-. }
  destruct (Hre _ _ Hr1) as (r' & Hr' & _ & Hcells).
  exists r'. split; [done|]. split.
  - rewrite Hbody.
    rewrite (lookup_concat_uniform bs (nrows t) j k b); try done.
    apply Forall_forall. intros b' Hb'.
    apply list_elem_of_lookup in Hb' as [j' Hj'].
    destruct (Forall2_lookup_r _ _ _ _ _ Hbs Hj') as (v' & Hv' & Hre').
    destruct (Forall2_lookup_r _ _ _ _ _ Htables Hv')
      as (p' & Hp' & a0' & a1' & p0' & Hal' & Hp0' & Hat' & _).
    apply reindex_columns_Return in Hre' as [-> _].
    eapply (period_table_nrows ext int index time_col t Hidx p').
    by exists (Some (a0', a1')), p0'.
  - intros c k0 Hc Hc1 Hc2 Hc3.
    destruct (build_profile_cell _ _ _ _ _ _ _ k Hp0 Hc) as (r0' & Hr0' & Hcell).
    { destruct Hal as [Ha _]. cbn [fst] in Ha. rewrite Ha; [done|].
      intros Hnil. by rewrite Hnil in Hc. }
    rewrite Hr0 in Hr0'. injection Hr0' as <-.
    assert (c ∈ columns v) as Hcin.
    { rewrite Hcv, !elem_of_with_column. do 3 right.
      by eapply cell_of_is_column. }
    rewrite Hcells, Hkeep, Hcell; try done.
    rewrite Hcols. apply elem_of_combined_columns. exists v. split; [|done].
    by eapply list_elem_of_lookup_2.
Qed.

(** ** The rows of the periods *)

Lemma concat_nil_fmap {A B} (l : list A) : concat ((fun _ => @nil B) <$> l) = [].
Proof. induction l as [|x l IH]; [done|]. rewrite fmap_cons. simpl. exact IH. Qed.

Lemma concat_app_fmap {A B} (f g : A -> list B) (l : list A) :
  concat ((fun x => f x ++ g x) <$> l) ≡ₚ concat (f <$> l) ++ concat (g <$> l).
Proof.
  induction l as [|x l IH]; [done|].
  rewrite !fmap_cons. simpl. rewrite IH, <- !app_assoc.
  apply Permutation_app_head. rewrite !app_assoc.
  apply Permutation_app_tail, Permutation_app_comm.
Qed.

(** Among different period values a value is matched once if it is one of
    them and not missing, and not at all otherwise. *)
Lemma concat_matches {B} (v : cell) (r : B) (ps : list cell) :
  NoDup ps -> (v <> NaN -> v ∈ ps) ->
  concat ((fun p => if cell_eqb v p then [r] else []) <$> ps)
  = if bool_decide (v = NaN) then [] else [r].
Proof.
  intros Hnd Hin. case_bool_decide as Hv.
  - subst v. simpl. apply concat_nil_fmap.
  - specialize (Hin Hv). induction Hnd as [|p ps Hp Hnd IH]; [by apply elem_of_nil in Hin|].
    rewrite fmap_cons. cbn [concat]. destruct (cell_eqb v p) eqn:Hvp.
    + apply cell_eqb_eq in Hvp as <-. cbn [app]. f_equal.
      erewrite list_fmap_ext; [apply (concat_nil_fmap (B := B))|].
      intros _ q Hq%list_elem_of_lookup_2. cbv beta.
      destruct (cell_eqb v q) eqn:Hvq; [|done].
      by apply cell_eqb_eq in Hvq as <-.
    + cbn [app]. apply IH. apply elem_of_cons in Hin as [->|?]; [|done].
      assert (cell_eqb p p = true) by (apply cell_eqb_true; done). congruence.
Qed.

(** The rows selected period by period are the rows whose period is not
    missing, each once. *)
Lemma rows_partition (s : Series) (b : list (cell * list cell)) (ps : list cell) :
  NoDup ps -> (forall q, q ∈ s -> q.2 <> NaN -> q.2 ∈ ps) ->
  concat ((fun p => snd <$> filter (fun x => x.1 = true) (zip (eq_mask s p) b)) <$> ps)
  ≡ₚ snd <$> filter (fun x => x.1 = true)
               (zip ((fun q => negb (bool_decide (q.2 = NaN))) <$> s) b).
Proof.
  intros Hnd. revert b. induction s as [|q s IH]; intros b Hin.
  { simpl. by rewrite concat_nil_fmap. }
  destruct b as [|r b].
  { simpl. by rewrite concat_nil_fmap. }
  erewrite (list_fmap_ext _
              (fun p => (if cell_eqb q.2 p then [r] else [])
                        ++ (snd <$> filter (fun x => x.1 = true)
                                      (zip (eq_mask s p) b)))).
  2: { intros _ p _. unfold eq_mask. rewrite fmap_cons. cbn [zip zip_with].
       destruct (cell_eqb q.2 p).
       - by rewrite filter_cons_True by done.
       - by rewrite filter_cons_False by done. }
  rewrite concat_app_fmap, concat_matches; [|done|].
  2: { intros Hq. apply Hin; [left|done]. }
  rewrite IH by (intros q' Hq'; apply Hin; by right).
  rewrite fmap_cons. cbn [zip zip_with]. case_bool_decide.
  - by rewrite filter_cons_False by done.
  - by rewrite filter_cons_True by done.
Qed.

(** ** Calls, forward *)

Lemma invoke_eq {A} who
    (f : DataFrame -> DataFrame -> outcome A * DataFrame * DataFrame)
    source target s t r s' t' st :
  heap st !! source = Some s -> heap st !! target = Some t ->
  f s t = (r, s', t') ->
  invoke who f source target st
  = (r, {| heap := <[target := t']> (<[source := s']> (heap st));
           calls := calls st ++ [mkCall who source target] |}).
Proof. unfold invoke. by intros -> -> ->. Qed.

Lemma insert_two_fresh {A} (h : list A) (s t s' t' : A) :
  <[S (length h) := t']> (<[length h := s']> ((h ++ [s]) ++ [t])) = h ++ [s'; t'].
Proof.
  rewrite <- app_assoc. simpl.
  rewrite (insert_app_r_alt h _ (length h)) by lia.
  rewrite Nat.sub_diag. simpl.
  rewrite (insert_app_r_alt h _ (S (length h))) by lia.
  by replace (S (length h) - length h) with 1 by lia.
Qed.

Section run.
Context {P : Primitives} {O : Objects}.
Variables (collections : list DataFrame) (target_year : cell)
          (weights_method : string)
          (extensive_variables intensive_variables : option (list string))
          (allocate_total : bool) (raster_path : option string)
          (codes : list Z) (force_crs_match : bool)
          (index time_col : string).

Abbreviation run :=
  (call_harmonize collections target_year weights_method extensive_variables
     intensive_variables allocate_total raster_path codes force_crs_match
     index time_col).

Abbreviation iteration :=
  (interpolate_period weights_method extensive_variables intensive_variables
     allocate_total raster_path codes force_crs_match index time_col).

(** The run after validation and partition: the loop and the final
    concatenation, on a heap that holds the collections, [dfs] and
    [target_df]. *)
Lemma harmonize_after_prologue part :
  variables_given extensive_variables intensive_variables ->
  validate_outcome collections = Return tt ->
  period_partition collections time_col target_year = Return part ->
  run
  = bind (for_in (times_of part)
            (iteration (length collections) (S (length collections)))
            {| interpolation := None;
               interpolated_dfs := dict_set target_year (target_of part) [] |})
         assemble
         {| heap := collections ++ [dfs_of part; target_of part]; calls := [] |}.
Proof.
  intros Hvars Hval Hpart. unfold call_harmonize, harmonize.
  erewrite bind_Return_eq
    by (rewrite validate_collections, Hval by done; reflexivity).
  erewrite bind_Return_eq
    by (apply partition_collections;
        [by apply validate_outcome_Return | done]).
  done.
Qed.

(** A partition that fails has called no primitive and has left the
    collections alone. *)
Lemma harmonize_partition_raises e :
  variables_given extensive_variables intensive_variables ->
  validate_outcome collections = Return tt -> collections <> [] ->
  period_partition collections time_col target_year = Raise e ->
  run.1 = Raise e /\ calls run.2 = [] /\
  take (length collections) (heap run.2) = collections.
Proof.
  intros Hvars Hval Hne Hpart. unfold call_harmonize, harmonize.
  erewrite bind_Return_eq
    by (rewrite validate_collections, Hval by done; reflexivity).
  apply validate_outcome_Return in Hval.
  destruct collections as [|f0 rest] eqn:Hcoll; [done|]. rewrite <- Hcoll in *.
  assert (has_crs f0 = true) as Hf0.
  { rewrite Hcoll in Hval. simpl in Hval. by apply andb_true_iff in Hval as [? _]. }
  destruct (has_crs_geometry _ Hf0) as (Hkl0 & Hcrs0 & _).
  assert (crs_attr 0 {| heap := collections; calls := [] |}
          = (Return (crs_of f0), {| heap := collections; calls := [] |})) as Hcrs.
  { unfold crs_attr. forward ltac:(apply read_eq; by rewrite Hcoll).
    by rewrite Hkl0, Hcrs0. }
  assert (list_item (seq 0 (length collections)) 0
            {| heap := collections; calls := [] |}
          = (Return 0, {| heap := collections; calls := [] |})) as Hfirst
    by (by rewrite Hcoll).
  unfold partition, period_partition in *.
  destruct (pd_concat collections false) as [d|e1] eqn:Hd; simpl in Hpart.
  2: { injection Hpart as ->.
       erewrite bind_Raise_eq.
       2: { forward ltac:(apply Hfirst). forward ltac:(apply Hcrs).
            forward ltac:(apply read_all_collections).
            apply bind_Raise_eq. by rewrite lift_eq, Hd. }
       simpl. by rewrite firstn_all. }
  destruct (getitem no_unique d time_col) as [s|e1] eqn:Hs; simpl in Hpart.
  2: { injection Hpart as ->.
       erewrite bind_Raise_eq.
       2: { forward ltac:(apply Hfirst). forward ltac:(apply Hcrs).
            forward ltac:(apply read_all_collections).
            forward ltac:(rewrite lift_eq, Hd; reflexivity).
            forward ltac:(apply new_eq).
            apply bind_Raise_eq. by rewrite lift_eq, Hs. }
       simpl. by rewrite take_app_length. }
  destruct (reset_index (select_rows d (eq_mask s target_year))) as [t|e1] eqn:Ht;
    simpl in Hpart; [done|].
  injection Hpart as ->.
  erewrite bind_Raise_eq.
  2: { forward ltac:(apply Hfirst). forward ltac:(apply Hcrs).
       forward ltac:(apply read_all_collections).
       forward ltac:(rewrite lift_eq, Hd; reflexivity).
       forward ltac:(apply new_eq).
       forward ltac:(rewrite lift_eq, Hs; reflexivity).
       apply bind_Raise_eq. by rewrite lift_eq, Ht. }
  simpl. by rewrite take_app_length.
Qed.

(** One iteration under "area": the primitive is called on two new
    objects, the rows of the period and a copy of the target table. *)
Lemma iteration_area dfs target_df d t i loc st loc' st' :
  weights_method = "area"%string ->
  heap st !! dfs = Some d -> heap st !! target_df = Some t ->
  iteration dfs target_df i loc st = (Return loc', st') ->
  exists s r src' tgt' p0 v,
    getitem no_unique d time_col = Return s /\
    area_interpolate_binning (select_rows d (eq_mask s i)) t
      extensive_variables intensive_variables allocate_total
    = (Return r, src', tgt') /\
    st' = {| heap := heap st ++ [src'; tgt'];
             calls := calls st ++ [mkCall AreaInterpolateBinning (length (heap st))
                                     (S (length (heap st)))] |} /\
    interpolation loc' = Some r /\
    build_profile extensive_variables intensive_variables (Some r) = Return p0 /\
    attach index time_col p0 t i = Return v /\
    interpolated_dfs loc' = dict_set i v (interpolated_dfs loc).
Proof.
  intros Ha Hd Ht. unfold interpolate_period. intros Hrun.
  pose proof (lookup_lt_Some _ _ _ Hd) as Hdlt.
  pose proof (lookup_lt_Some _ _ _ Ht) as Htlt.
  assert (weights_method <> "land_type_area"%string) as Hl by (by rewrite Ha).
  rewrite (bool_decide_eq_true_2 _ Ha), (bool_decide_eq_false_2 _ Hl) in Hrun.
  steps. simpl in *. heap_norm. same_lookups.
  rewrite length_app in *. simpl in *. rewrite Nat.add_1_r in *.
  rewrite insert_two_fresh in *. heap_norm. same_lookups.
  eauto 15.
Qed.

(** One iteration under "land_type_area": the raster primitive is called
    on two new objects, the interpolation on the rows of the period as the
    raster primitive left them and on [target_df] itself. *)
Lemma iteration_land dfs target_df d t i loc st loc' st' :
  weights_method = "land_type_area"%string ->
  heap st !! dfs = Some d -> heap st !! target_df = Some t ->
  iteration dfs target_df i loc st = (Return loc', st') ->
  exists s tb src1 tgt1 r src2 tgt2 p0 v,
    getitem no_unique d time_col = Return s /\
    area_tables_raster (select_rows d (eq_mask s i)) t raster_path codes
      force_crs_match = (Return tb, src1, tgt1) /\
    area_interpolate src1 t extensive_variables intensive_variables
      allocate_total tb = (Return r, src2, tgt2) /\
    st' = {| heap := <[target_df := tgt2]> (heap st) ++ [src2; tgt1];
             calls := calls st ++
               [mkCall AreaTablesRaster (length (heap st)) (S (length (heap st)));
                mkCall AreaInterpolate (length (heap st)) target_df] |} /\
    interpolation loc' = Some r /\
    build_profile extensive_variables intensive_variables (Some r) = Return p0 /\
    attach index time_col p0 tgt2 i = Return v /\
    interpolated_dfs loc' = dict_set i v (interpolated_dfs loc).
Proof.
  intros Hl Hd Ht. unfold interpolate_period. intros Hrun.
  pose proof (lookup_lt_Some _ _ _ Hd) as Hdlt.
  pose proof (lookup_lt_Some _ _ _ Ht) as Htlt.
  assert (weights_method <> "area"%string) as Ha by (by rewrite Hl).
  rewrite (bool_decide_eq_false_2 _ Ha), (bool_decide_eq_true_2 _ Hl) in Hrun.
  steps. simpl in *. heap_norm. same_lookups.
  rewrite length_app in *. simpl in *. rewrite Nat.add_1_r in *.
  rewrite insert_two_fresh in *. heap_norm. same_lookups.
  do 9 eexists. repeat split; try done.
  f_equal.
  - rewrite (insert_app_r_alt (heap st) _ (length (heap st))) by lia.
    rewrite Nat.sub_diag. simpl.
    by rewrite insert_app_l by done.
  - by rewrite <- app_assoc.
Qed.

(** The run that returned under "area". *)
Lemma harmonize_Return_area df st' :
  weights_method = "area"%string ->
  run = (Return df, st') ->
  exists part d h,
    period_partition collections time_col target_year = Return part /\
    dict_inv (area_table extensive_variables intensive_variables allocate_total
                index time_col (dfs_of part) (target_of part))
             target_year (target_of part) (times_of part) d /\
    pd_concat (dict_values d) true = Return h /\
    df = GeoDataFrame h None /\
    calls st' = area_calls (length collections) (length (times_of part)).
Proof.
  intros Ha. unfold call_harmonize, harmonize. intros Hrun.
  apply bind_Return in Hrun as ([] & st0 & Hval & Hrun).
  pose proof (readonly_Return _ _ _ _ (readonly_validate _ _ _) Hval) as ->.
  apply bind_Return in Hrun as ([[[dfs times] target_df] loc] & st1 & Hpart & Hrun).
  apply partition_Return in Hpart as (part & Hpart & -> & -> & -> & -> & ->).
  apply bind_Return in Hrun as (loc' & st2 & Hloop & Hrun).
  exists part, (interpolated_dfs loc').
  set (t := target_of part) in *. set (d := dfs_of part) in *.
  set (n := length collections) in *.
  set (Q := area_table extensive_variables intensive_variables allocate_total
              index time_col d t).
  assert (NoDup (times_of part)) as Hnd.
  { unfold period_partition in Hpart.
    apply obind_Return in Hpart as (? & _ & Hpart).
    apply obind_Return in Hpart as (? & _ & Hpart).
    apply obind_Return in Hpart as (? & _ & [= <-]). apply NoDup_unique. }
  pose (I := fun (done : list cell) (loc : locals) (st : state) =>
    heap st !! n = Some d /\ heap st !! S n = Some t /\
    length (heap st) = n + 2 + 2 * length done /\
    calls st = area_calls n (length done) /\
    dict_inv Q target_year t done (interpolated_dfs loc)).
  assert (I (times_of part) loc' st2) as (_ & _ & _ & Hcalls & Hdict).
  { eapply (for_in_invariant I _ (times_of part)) with (done := []); [|done| |done].
    - intros done x rest loc0 st loc1 st1 Htot (Hd & Ht & Hlen & Hcalls & Hdict) Hbody.
      destruct (iteration_area _ _ _ _ _ _ _ _ _ Ha Hd Ht Hbody)
        as (s & r & src' & tgt' & p0 & v & Hs & Hcall & -> & Hr & Hp0 & Hv & Hset).
      pose proof (lookup_lt_Some _ _ _ Hd). pose proof (lookup_lt_Some _ _ _ Ht).
      unfold I. cbn [heap calls]. rewrite !lookup_app_l by done.
      rewrite !length_app. cbn [length]. repeat split; try done.
      + lia.
      + rewrite Hcalls, Hlen. unfold area_calls.
        rewrite seq_app, fmap_app. simpl. do 3 f_equal; lia.
      + rewrite Hset. apply dict_inv_step; [|done|].
        * rewrite Htot, (cons_middle x), app_assoc in Hnd.
          by apply NoDup_app in Hnd as (? & _).
        * by exists s, r, src', tgt', p0.
    - unfold I. cbn [heap calls length]. rewrite length_app. cbn [length].
      repeat split.
      + by rewrite lookup_app_r, Nat.sub_diag by lia.
      + rewrite lookup_app_r by lia.
        by replace (S n - length collections) with 1 by (unfold n; lia).
      + lia.
      + apply dict_inv_init. }
  unfold assemble in Hrun. steps. eauto 10.
Qed.

(** The calls of a run that returned under "land_type_area". *)
Lemma harmonize_Return_land df st' :
  weights_method = "land_type_area"%string ->
  run = (Return df, st') ->
  exists part,
    period_partition collections time_col target_year = Return part /\
    calls st' = land_type_area_calls (length collections) (length (times_of part)).
Proof.
  intros Hl. unfold call_harmonize, harmonize. intros Hrun.
  apply bind_Return in Hrun as ([] & st0 & Hval & Hrun).
  pose proof (readonly_Return _ _ _ _ (readonly_validate _ _ _) Hval) as ->.
  apply bind_Return in Hrun as ([[[dfs times] target_df] loc] & st1 & Hpart & Hrun).
  apply partition_Return in Hpart as (part & Hpart & -> & -> & -> & -> & ->).
  apply bind_Return in Hrun as (loc' & st2 & Hloop & Hrun).
  exists part. split; [done|].
  set (n := length collections) in *.
  pose (I := fun (done : list cell) (loc : locals) (st : state) =>
    is_Some (heap st !! n) /\ is_Some (heap st !! S n) /\
    length (heap st) = n + 2 + 2 * length done /\
    calls st = land_type_area_calls n (length done)).
  assert (I (times_of part) loc' st2) as (_ & _ & _ & Hcalls).
  { eapply (for_in_invariant I _ (times_of part)) with (done := []); [|done| |done].
    - intros done x rest loc0 st loc1 st1 Htot ([d Hd] & [t Ht] & Hlen & Hcalls) Hbody.
      destruct (iteration_land _ _ _ _ _ _ _ _ _ Hl Hd Ht Hbody)
        as (s & tb & src1 & tgt1 & r & src2 & tgt2 & p0 & v
            & Hs & Hcall1 & Hcall2 & -> & Hr & Hp0 & Hv & Hset).
      pose proof (lookup_lt_Some _ _ _ Hd). pose proof (lookup_lt_Some _ _ _ Ht).
      unfold I. cbn [heap calls].
      rewrite !lookup_app_l by (by rewrite length_insert).
      rewrite !length_app, length_insert. cbn [length]. repeat split.
      + rewrite list_lookup_insert_ne by lia. by eexists.
      + rewrite list_lookup_insert_eq by done. by eexists.
      + lia.
      + rewrite Hcalls, Hlen. unfold land_type_area_calls.
        rewrite seq_app, fmap_app, concat_app. simpl. rewrite ?app_nil_r.
        f_equal. repeat f_equal; lia.
    - unfold I. cbn [heap calls length]. rewrite length_app. cbn [length].
      repeat split.
      + rewrite lookup_app_r, Nat.sub_diag by lia. by eexists.
      + rewrite lookup_app_r by lia.
        replace (S n - length collections) with 1 by (unfold n; lia). by eexists.
      + lia. }
  unfold assemble in Hrun. steps. done.
Qed.

(** The run that returned, with any collaborators: the dictionary holds
    the seed or a table built by lines 171-183 under the target period,
    and such a table for every other period. *)
Lemma harmonize_Return_tables (Q : cell -> DataFrame -> Prop) df st' :
  (forall i interp p0 t v,
      build_profile extensive_variables intensive_variables interp = Return p0 ->
      attach index time_col p0 t i = Return v -> Q i v) ->
  run = (Return df, st') ->
  exists part d h,
    period_partition collections time_col target_year = Return part /\
    dict_inv Q target_year (target_of part) (times_of part) d /\
    pd_concat (dict_values d) true = Return h /\
    df = GeoDataFrame h None.
Proof.
  intros HQ. unfold call_harmonize, harmonize. intros Hrun.
  apply bind_Return in Hrun as ([] & st0 & Hval & Hrun).
  pose proof (readonly_Return _ _ _ _ (readonly_validate _ _ _) Hval) as ->.
  apply bind_Return in Hrun as ([[[dfs times] target_df] loc] & st1 & Hpart & Hrun).
  apply partition_Return in Hpart as (part & Hpart & -> & -> & -> & -> & ->).
  apply bind_Return in Hrun as (loc' & st2 & Hloop & Hrun).
  exists part, (interpolated_dfs loc').
  assert (NoDup (times_of part)) as Hnd.
  { unfold period_partition in Hpart.
    apply obind_Return in Hpart as (? & _ & Hpart).
    apply obind_Return in Hpart as (? & _ & Hpart).
    apply obind_Return in Hpart as (? & _ & [= <-]). apply NoDup_unique. }
  pose (I := fun (done : list cell) (loc : locals) (st : state) =>
    dict_inv Q target_year (target_of part) done (interpolated_dfs loc)).
  assert (I (times_of part) loc' st2) as Hdict.
  { eapply (for_in_invariant I _ (times_of part)) with (done := []); [|done| |done].
    - intros done x rest loc0 st loc1 st1 Htot Hdict Hbody.
      apply interpolate_period_Return in Hbody as (t' & p0 & v & _ & Hp0 & Hv & Hset).
      unfold I. rewrite Hset. apply dict_inv_step; [|done|].
      + rewrite Htot, (cons_middle x), app_assoc in Hnd.
        by apply NoDup_app in Hnd as (? & _).
      + by eapply HQ.
    - apply dict_inv_init. }
  unfold assemble in Hrun. steps. eauto 10.
Qed.

(** The first iteration of a run that returned. *)
Lemma harmonize_Return_first df st' :
  run = (Return df, st') ->
  exists part,
    period_partition collections time_col target_year = Return part /\
    forall p rest, times_of part = p :: rest ->
      exists loc1 st1,
        iteration (length collections) (S (length collections)) p
          {| interpolation := None;
             interpolated_dfs := dict_set target_year (target_of part) [] |}
          {| heap := collections ++ [dfs_of part; target_of part]; calls := [] |}
        = (Return loc1, st1).
Proof.
  unfold call_harmonize, harmonize. intros Hrun.
  apply bind_Return in Hrun as ([] & st0 & Hval & Hrun).
  pose proof (readonly_Return _ _ _ _ (readonly_validate _ _ _) Hval) as ->.
  apply bind_Return in Hrun as ([[[dfs times] target_df] loc] & st1 & Hpart & Hrun).
  apply partition_Return in Hpart as (part & Hpart & -> & -> & -> & -> & ->).
  apply bind_Return in Hrun as (loc' & st2 & Hloop & Hrun).
  exists part. split; [done|]. intros p rest Htimes.
  rewrite Htimes in Hloop. simpl in Hloop.
  apply bind_Return in Hloop as (loc1 & st1 & Hfirst & _). eauto.
Qed.

(** One iteration under "area", forward: what it gives is a function of
    what the primitive answers. *)
Lemma iteration_area_eq dfs target_df d t s i loc st r src' tgt' :
  weights_method = "area"%string ->
  heap st !! dfs = Some d -> heap st !! target_df = Some t ->
  getitem no_unique d time_col = Return s ->
  area_interpolate_binning (select_rows d (eq_mask s i)) t
    extensive_variables intensive_variables allocate_total = (r, src', tgt') ->
  iteration dfs target_df i loc st
  = (let? r := r in
     let? p0 := build_profile extensive_variables intensive_variables (Some r) in
     let? v := attach index time_col p0 t i in
     Return {| interpolation := Some r;
               interpolated_dfs := dict_set i v (interpolated_dfs loc) |},
     {| heap := heap st ++ [src'; tgt'];
        calls := calls st ++ [mkCall AreaInterpolateBinning (length (heap st))
                                (S (length (heap st)))] |}).
Proof.
  intros Ha Hd Ht Hs Hcall. unfold interpolate_period.
  pose proof (lookup_lt_Some _ _ _ Hd) as Hdlt.
  pose proof (lookup_lt_Some _ _ _ Ht) as Htlt.
  assert (weights_method <> "land_type_area"%string) as Hl by (by rewrite Ha).
  rewrite (bool_decide_eq_true_2 _ Ha), (bool_decide_eq_false_2 _ Hl).
  forward ltac:(by apply read_eq).
  forward ltac:(rewrite lift_eq, Hs; reflexivity).
  forward ltac:(apply new_eq).
  set (sel := select_rows d (eq_mask s i)) in *.
  assert (invoke AreaInterpolateBinning
            (fun src tgt => area_interpolate_binning src tgt extensive_variables
                              intensive_variables allocate_total)
            (length (heap st)) (S (length (heap st)))
            {| heap := (heap st ++ [sel]) ++ [t]; calls := calls st |}
          = (r, {| heap := heap st ++ [src'; tgt'];
                   calls := calls st ++ [mkCall AreaInterpolateBinning
                                           (length (heap st))
                                           (S (length (heap st)))] |})) as Hinv.
  { erewrite invoke_eq; [| |  |exact Hcall].
    - cbn [heap calls]. by rewrite insert_two_fresh.
    - cbn [heap]. rewrite lookup_app_l by (rewrite length_app; simpl; lia).
      by apply list_lookup_middle.
    - cbn [heap]. apply list_lookup_middle. rewrite length_app. simpl. lia. }
  assert (read target_df {| heap := heap st ++ [sel]; calls := calls st |}
          = (Return t, {| heap := heap st ++ [sel]; calls := calls st |})) as Hread.
  { apply read_eq. cbn [heap]. by rewrite lookup_app_l. }
  destruct r as [r0|e].
  - erewrite bind_Return_eq.
    2: { forward ltac:(apply Hread). forward ltac:(apply new_eq).
         cbn [heap calls]. rewrite length_app. cbn [length]. rewrite Nat.add_1_r.
         forward ltac:(apply Hinv). reflexivity. }
    forward ltac:(reflexivity). cbn [obind].
    unfold bind at 1. rewrite lift_eq.
    destruct (build_profile _ _ (Some r0)) as [p0|e]; cbn [obind]; [|done].
    forward ltac:(apply read_eq; cbn [heap]; by rewrite lookup_app_l).
    unfold bind. rewrite lift_eq.
    by destruct (attach index time_col p0 t i).
  - erewrite bind_Raise_eq; [done|].
    forward ltac:(apply Hread). forward ltac:(apply new_eq).
    cbn [heap calls]. rewrite length_app. cbn [length]. rewrite Nat.add_1_r.
    by apply bind_Raise_eq.
Qed.

(** The loop, forward: an invariant that every iteration re-establishes
    carries it to a result. *)
Lemma for_in_progress {A S} (I : list A -> S -> state -> Prop)
    (body : A -> S -> M S) total :
  (forall done x rest s st,
      total = done ++ x :: rest -> I done s st ->
      exists s' st', body x s st = (Return s', st') /\ I (done ++ [x]) s' st') ->
  forall l done s st,
    total = done ++ l -> I done s st ->
    exists s' st', for_in l body s st = (Return s', st') /\ I total s' st'.
Proof.
  intros Hbody. induction l as [|x l IH]; intros done s st Htot HI; simpl.
  - exists s, st. by rewrite Htot, app_nil_r.
  - destruct (Hbody done x l s st Htot HI) as (s1 & st1 & Hx & HI1).
    destruct (IH (done ++ [x]) s1 st1) as (s' & st' & Hl & HI'); [|done|].
    { by rewrite Htot, <- app_assoc. }
    exists s', st'. split; [|done]. by erewrite bind_Return_eq.
Qed.

(** The run that returned under "land_type_area" with an interpolation
    that gives back the target table it was handed. *)
Lemma harmonize_Return_land_tables df st' :
  keeps_target ->
  weights_method = "land_type_area"%string ->
  run = (Return df, st') ->
  exists part d h,
    period_partition collections time_col target_year = Return part /\
    dict_inv (land_type_area_table extensive_variables intensive_variables
                allocate_total raster_path codes force_crs_match index time_col
                (dfs_of part) (target_of part))
             target_year (target_of part) (times_of part) d /\
    pd_concat (dict_values d) true = Return h /\
    df = GeoDataFrame h None.
Proof.
  intros Hkeep Hl. unfold call_harmonize, harmonize. intros Hrun.
  apply bind_Return in Hrun as ([] & st0 & Hval & Hrun).
  pose proof (readonly_Return _ _ _ _ (readonly_validate _ _ _) Hval) as ->.
  apply bind_Return in Hrun as ([[[dfs times] target_df] loc] & st1 & Hpart & Hrun).
  apply partition_Return in Hpart as (part & Hpart & -> & -> & -> & -> & ->).
  apply bind_Return in Hrun as (loc' & st2 & Hloop & Hrun).
  exists part, (interpolated_dfs loc').
  set (t := target_of part) in *. set (d := dfs_of part) in *.
  set (n := length collections) in *.
  set (Q := land_type_area_table extensive_variables intensive_variables
              allocate_total raster_path codes force_crs_match index time_col d t).
  assert (NoDup (times_of part)) as Hnd.
  { unfold period_partition in Hpart.
    apply obind_Return in Hpart as (? & _ & Hpart).
    apply obind_Return in Hpart as (? & _ & Hpart).
    apply obind_Return in Hpart as (? & _ & [= <-]). apply NoDup_unique. }
  pose (I := fun (done : list cell) (loc : locals) (st : state) =>
    heap st !! n = Some d /\ heap st !! S n = Some t /\
    dict_inv Q target_year t done (interpolated_dfs loc)).
  assert (I (times_of part) loc' st2) as (_ & _ & Hdict).
  { eapply (for_in_invariant I _ (times_of part)) with (done := []); [|done| |done].
    - intros done x rest loc0 st loc1 st1 Htot (Hd & Ht & Hdict) Hbody.
      destruct (iteration_land _ _ _ _ _ _ _ _ _ Hl Hd Ht Hbody)
        as (s & tb & src1 & tgt1 & r & src2 & tgt2 & p0 & v
            & Hs & Hcall1 & Hcall2 & -> & Hr & Hp0 & Hv & Hset).
      pose proof (Hkeep _ _ _ _ _ _ _ _ _ Hcall2) as Hsame.
      pose proof (lookup_lt_Some _ _ _ Hd). pose proof (lookup_lt_Some _ _ _ Ht).
      unfold I. cbn [heap calls].
      rewrite !lookup_app_l by (by rewrite length_insert).
      repeat split.
      + by rewrite list_lookup_insert_ne by lia.
      + rewrite list_lookup_insert_eq by done. by rewrite Hsame.
      + rewrite Hset. apply dict_inv_step; [|done|].
        * rewrite Htot, (cons_middle x), app_assoc in Hnd.
          by apply NoDup_app in Hnd as (? & _).
        * by exists s, tb, src1, tgt1, r, src2, tgt2, p0.
    - unfold I. cbn [heap calls]. repeat split.
      + by rewrite lookup_app_r, Nat.sub_diag by lia.
      + rewrite lookup_app_r by lia.
        by replace (S n - length collections) with 1 by (unfold n; lia).
      + apply dict_inv_init. }
  unfold assemble in Hrun. steps. eauto 10.
Qed.

End run.

(** With a period in the loop the dictionary holds a period table. *)
Lemma dict_inv_table {O : Objects} {V} (Q : cell -> V -> Prop) target_year seed
    times d :
  dict_inv Q target_year seed times d -> times <> [] ->
  exists i v, v ∈ dict_values d /\ Q i v.
Proof.
  intros (v0 & rest & -> & Hkeys & Hrest & Hv0) Hne.
  destruct (existsb (key_eqb target_year) times) eqn:Hex.
  - exists target_year, v0. split; [left|done].
  - assert (filter (fun p => key_eqb target_year p = false) times = times) as Hall.
    { clear -Hex. induction times as [|p times IH]; [done|].
      simpl in Hex. apply orb_false_iff in Hex as [Hp Hex].
      rewrite filter_cons_True by done. f_equal. by apply IH. }
    rewrite Hall in Hkeys. destruct rest as [|[k v] rest]; [by destruct times|].
    apply Forall_cons in Hrest as [Hkv _]. exists k, v. split; [|done].
    right. left.
Qed.

End RunFacts.

(** * Further properties of [harmonize] *)

Module Properties.
Import Pandas Py Harmonize Samples PandasFacts ProfileFacts PyFacts LoopFacts DictFacts ConcatFacts PrologueFacts HarmonizeFacts ErrorFacts FrameFacts Claims RunFacts.

Section properties.
Context {P : Primitives} {O : Objects}.
Variables (collections : list DataFrame) (target_year : cell)
          (weights_method : string)
          (extensive_variables intensive_variables : option (list string))
          (allocate_total : bool) (raster_path : option string)
          (codes : list Z) (force_crs_match : bool)
          (index time_col : string).

(** X1.  Without any collection, and with variable lists that pass the
    first check, [harmonize] fails at line 128 with the index error of
    [raw_community[0]]: the loop of lines 118-119 and the [all] of line
    121 have nothing to look at, and the concatenation of line 129 is
    not reached. *)
Theorem harmonize_no_collections :
  variables_given extensive_variables intensive_variables ->
  call_harmonize [] target_year weights_method extensive_variables
    intensive_variables allocate_total raster_path codes force_crs_match
    index time_col
  = (Raise (IndexError "list index out of range"), {| heap := []; calls := [] |}).
Proof.
  intros Hvars. unfold call_harmonize, harmonize.
  erewrite bind_Return_eq
    by (rewrite (validate_collections [] []) by done; reflexivity).
  reflexivity.
Qed.

(** X2.  When the collections can be concatenated and none of them has
    the period column, [harmonize] fails with the key error of
    [dfs[time_col]] (line 130), and no primitive has been called. *)
Theorem harmonize_missing_time_column d :
  variables_given extensive_variables intensive_variables ->
  validate_outcome collections = Return tt ->
  pd_concat collections false = Return d ->
  (forall c, c ∈ collections -> time_col ∉ columns c) ->
  let run := call_harmonize collections target_year weights_method
               extensive_variables intensive_variables allocate_total
               raster_path codes force_crs_match index time_col in
  run.1 = Raise (KeyError time_col) /\ calls run.2 = [].
Proof.
  intros Hvars Hval Hd Hcols run.
  destruct (harmonize_partition_raises collections target_year weights_method
              extensive_variables intensive_variables allocate_total raster_path
              codes force_crs_match index time_col (KeyError time_col))
    as (H1 & H2 & _); try done.
  - by eapply pd_concat_nonempty.
  - unfold period_partition. rewrite Hd. simpl.
    rewrite getitem_missing; [done|].
    apply pd_concat_Return in Hd as [-> _].
    rewrite elem_of_combined_columns. intros (c & Hc & Hin). by eapply Hcols.
Qed.

(** X3.  When the row index of the concatenated collections has a name
    that is also one of the columns, or has no name while the columns
    "index" and "level_0" both exist, [reset_index] (line 132) cannot
    insert the old index as a column: [harmonize] fails with a value
    error, and no primitive has been called. *)
Theorem harmonize_index_name_clash d s :
  variables_given extensive_variables intensive_variables ->
  validate_outcome collections = Return tt ->
  pd_concat collections false = Return d ->
  getitem no_unique d time_col = Return s ->
  (exists name, index_name d = Some name /\ name ∈ columns d) \/
  (index_name d = None /\ "index"%string ∈ columns d /\
   "level_0"%string ∈ columns d) ->
  let run := call_harmonize collections target_year weights_method
               extensive_variables intensive_variables allocate_total
               raster_path codes force_crs_match index time_col in
  run.1 = Raise (ValueError "cannot insert, already exists") /\ calls run.2 = [].
Proof.
  intros Hvars Hval Hd Hs Hclash run.
  destruct (harmonize_partition_raises collections target_year weights_method
              extensive_variables intensive_variables allocate_total raster_path
              codes force_crs_match index time_col
              (ValueError "cannot insert, already exists"))
    as (H1 & H2 & _); try done.
  - by eapply pd_concat_nonempty.
  - unfold period_partition. rewrite Hd. simpl. rewrite Hs. simpl.
    unfold reset_index, index_label. cbn [index_name columns select_rows].
    destruct Hclash as [(name & -> & Hname)|(-> & Hi & Hl)].
    + by rewrite bool_decide_eq_true_2.
    + rewrite (bool_decide_eq_true_2 _ Hi). by rewrite bool_decide_eq_true_2.
Qed.

(** X4.  A target period that is no period value of the collections is
    not an error: with row-aligned collaborators, and under
    "land_type_area" with an interpolation that gives back the target
    table it was handed at line 164, the target frame has no rows, and
    neither has the table that [harmonize] returns.  Unless the target
    period is a missing value that the dictionary finds again among
    the periods, the empty target frame stays in the dictionary (line
    135), so the table has every column of the target frame, the
    column of the old row labels among them. *)
Theorem harmonize_unknown_target_period {C : Contract} df st' part :
  target_kept weights_method ->
  call_harmonize collections target_year weights_method extensive_variables
    intensive_variables allocate_total raster_path codes force_crs_match
    index time_col = (Return df, st') ->
  period_partition collections time_col target_year = Return part ->
  ~ period_present target_year (times_of part) ->
  nrows (target_of part) = 0 /\ nrows df = 0 /\
  ((forall p, p ∈ times_of part -> key_eqb target_year p = false) ->
   forall c, c ∈ columns (target_of part) -> c ∈ columns df).
Proof.
  intros Hkeep Hrun Hpart Habs.
  destruct (period_partition_Return _ _ _ _ Hpart) as [Hnd Hidx].
  assert (nrows (target_of part) = 0) as Hn.
  { unfold period_partition in Hpart.
    apply obind_Return in Hpart as (d & Hd & Hpart).
    apply obind_Return in Hpart as (s & Hs & Hpart).
    apply obind_Return in Hpart as (t & Ht & [= <-]). cbn in *.
    apply reset_index_Return in Ht as (-> & _). by apply select_rows_absent. }
  split; [done|].
  apply harmonize_Return_contract in Hrun
    as (part' & d & h & Hpart' & Hdict & Hh & ->); [|done].
  rewrite Hpart in Hpart'. injection Hpart' as <-.
  destruct Hdict as (v0 & rest & -> & Hkeys & Hrest & Hv0).
  apply pd_concat_Return in Hh as (Hcols & bs & Hbs & Hbody).
  split.
  2: { intros Hkeys' c Hc.
       assert (existsb (key_eqb target_year) (times_of part) = false) as Hex.
       { apply not_true_is_false. intros (p & Hp & Heq)%existsb_exists.
         apply list_elem_of_In, Hkeys' in Hp. congruence. }
       rewrite Hex in Hv0. subst v0.
       cbn [columns GeoDataFrame]. rewrite Hcols.
       apply elem_of_combined_columns. exists (target_of part).
       split; [left | done]. }
  unfold nrows. cbn [body GeoDataFrame]. rewrite Hbody.
  rewrite (length_concat_uniform bs 0); [lia|].
  apply Forall_forall. intros b Hb.
  apply list_elem_of_lookup in Hb as [j Hj].
  destruct (Forall2_lookup_r _ _ _ _ _ Hbs Hj) as (v & Hv & Hre).
  apply reindex_columns_Return in Hre as [-> _].
  unfold dict_values in Hv. rewrite fmap_cons in Hv. cbn [snd] in Hv.
  destruct j as [|j]; simpl in Hv.
  - injection Hv as <-.
    destruct (existsb (key_eqb target_year) (times_of part)); [|by subst v0].
    rewrite <- Hn. by eapply period_table_nrows.
  - rewrite list_lookup_fmap in Hv.
    destruct (rest !! j) as [[k w]|] eqn:Hw; [|done]. injection Hv as <-.
    eapply Forall_lookup_1 in Hrest; [|done]. simpl in Hrest.
    rewrite <- Hn. by eapply period_table_nrows.
Qed.

(** X5.  A run under "area" that returns has called the binning
    primitive once for every period value, in the order of the loop,
    each time on two objects made for that call, and has called no other
    primitive. *)
Theorem area_call_log df st' part :
  call_harmonize collections target_year "area" extensive_variables
    intensive_variables allocate_total raster_path codes force_crs_match
    index time_col = (Return df, st') ->
  period_partition collections time_col target_year = Return part ->
  calls st' = area_calls (length collections) (length (times_of part)).
Proof.
  intros Hrun Hpart.
  apply harmonize_Return_area in Hrun as (part' & _ & _ & Hpart' & _ & _ & _ & ->);
    [|done].
  rewrite Hpart in Hpart'. by injection Hpart' as <-.
Qed.

(** X6.  A run under "land_type_area" that returns has called, for every
    period value, the raster primitive on two objects made for that call
    and then the interpolation on the rows of the period and on
    [target_df] itself, the same object in every iteration; the binning
    primitive is not called. *)
Theorem land_type_area_call_log df st' part :
  call_harmonize collections target_year "land_type_area" extensive_variables
    intensive_variables allocate_total raster_path codes force_crs_match
    index time_col = (Return df, st') ->
  period_partition collections time_col target_year = Return part ->
  calls st' = land_type_area_calls (length collections) (length (times_of part)).
Proof.
  intros Hrun Hpart.
  apply harmonize_Return_land in Hrun as (part' & Hpart' & ->); [|done].
  rewrite Hpart in Hpart'. by injection Hpart' as <-.
Qed.

(** X8.  The column labels of the table that [harmonize] returns are in
    ascending order ([sort=True], line 188), whatever the order of the
    variable lists and of the columns of the collections. *)
Theorem harmonize_columns_sorted df st' :
  call_harmonize collections target_year weights_method extensive_variables
    intensive_variables allocate_total raster_path codes force_crs_match
    index time_col = (Return df, st') ->
  StronglySorted (fun a b => String.leb a b = true) (columns df).
Proof.
  intros Hrun.
  apply harmonize_Return_columns in Hrun as (part & d & h & _ & _ & Hh & ->).
  apply pd_concat_Return in Hh as [Hcols _]. cbn [columns GeoDataFrame].
  rewrite Hcols. apply sort_labels_sorted.
Qed.

(** X9.  With the identifier column of the default, or any that sorts
    before "geometry" and is not an extensive name, a request for both
    extensive and intensive variables ends in an exception when the input
    has a period value: the table of a period has the extensive names twice
    (line 177), so the concatenation of line 188, which has to put the
    columns in order, cannot re-index it. *)
Theorem harmonize_both_groups_raises ev iv part :
  ev <> [] -> iv <> [] -> index ∉ ev -> String.leb "geometry" index = false ->
  period_partition collections time_col target_year = Return part ->
  times_of part <> [] ->
  exists e,
    (call_harmonize collections target_year weights_method (Some ev) (Some iv)
       allocate_total raster_path codes force_crs_match index time_col).1
    = Raise e.
Proof.
  intros Hev Hiv Hidx Hleb Hpart Htimes.
  destruct (call_harmonize collections target_year weights_method (Some ev)
              (Some iv) allocate_total raster_path codes force_crs_match index
              time_col) as [[df|e] st'] eqn:Hrun; [exfalso | by exists e].
  apply (harmonize_Return_tables _ _ _ _ _ _ _ _ _ _ _
           (fun _ v => columns v = with_column time_col (with_column index
                                     (with_column "geometry" (ev ++ ev)))))
    in Hrun as (part' & d & h & Hpart' & Hdict & Hh & ->).
  2: { intros i interp p0 t v Hp0 Hv. by eapply both_groups_columns. }
  rewrite Hpart in Hpart'. injection Hpart' as <-.
  destruct (dict_inv_table _ _ _ _ _ Hdict Htimes) as (i & v & Hv & Hcols).
  apply pd_concat_Return in Hh as (Hcolsh & bs & Hbs & _).
  apply list_elem_of_lookup in Hv as [j Hj].
  destruct (Forall2_lookup_l _ _ _ _ _ Hbs Hj) as (b & _ & Hre).
  unfold reindex_columns in Hre. case_bool_decide as Hsame.
  - apply (both_groups_columns_unsorted ev index time_col Hidx Hleb).
    rewrite <- Hcols, Hsame, Hcolsh. apply sort_labels_sorted.
  - case_bool_decide as Hnd; [|done].
    apply (both_groups_columns_dup ev index time_col Hev). by rewrite <- Hcols.
Qed.

(** X10.  With collaborators that return one array column for every
    variable, a request whose intensive variables are not as many as its
    extensive variables (in particular one for intensive variables only)
    ends in an exception when the input has a period value: line 177
    gives the second array the extensive names as headers. *)
Theorem harmonize_unequal_groups_raises ev iv part :
  column_per_variable -> iv <> [] -> length iv <> length ev ->
  period_partition collections time_col target_year = Return part ->
  times_of part <> [] ->
  exists e,
    (call_harmonize collections target_year weights_method (Some ev) (Some iv)
       allocate_total raster_path codes force_crs_match index time_col).1
    = Raise e.
Proof.
  intros [Hbin Hint] Hiv Hlen Hpart Htimes.
  destruct (call_harmonize collections target_year weights_method (Some ev)
              (Some iv) allocate_total raster_path codes force_crs_match index
              time_col) as [[df|e] st'] eqn:Hrun; [exfalso | by exists e].
  apply harmonize_Return_first in Hrun as (part' & Hpart' & Hfirst).
  rewrite Hpart in Hpart'. injection Hpart' as <-.
  destruct (times_of part) as [|p rest] eqn:Hp; [done|].
  destruct (Hfirst p rest eq_refl) as (loc1 & st1 & Hit).
  assert (forall r p0,
             shape1 r.2 = length iv ->
             build_profile (Some ev) (Some iv) (Some r) = Return p0 -> False)
    as Hwidth.
  { intros r p0 Hr Hp0.
    apply build_profile_Return in Hp0
      as (ev' & iv' & a0 & a1 & [= <-] & [= <-] & [= ->] & Hcase).
    destruct Hcase as [(_ & ? & _)|[(_ & _ & w & Hw & _)|(_ & _ & e & w & _ & Hw & _)]];
      [done| |]; apply DataFrame_of_width in Hw; simpl in Hr; congruence. }
  set (n := length collections) in *.
  assert ((collections ++ [dfs_of part; target_of part]) !! n = Some (dfs_of part))
    as Hd by (by apply list_lookup_middle).
  assert ((collections ++ [dfs_of part; target_of part]) !! S n
          = Some (target_of part)) as Ht.
  { rewrite (lookup_app_r collections) by (unfold n; lia).
    by replace (S n - length collections) with 1 by (unfold n; lia). }
  destruct (decide (weights_method = "area"%string)) as [Ha|Ha];
    [|destruct (decide (weights_method = "land_type_area"%string)) as [Hl|Hl]].
  - apply (iteration_area _ _ _ _ _ _ _ _ _ _ _ (dfs_of part) (target_of part))
      in Hit as (s & r & src' & tgt' & p0 & v & _ & Hcall & _ & _ & Hp0 & _);
      [|done..].
    apply Hbin in Hcall as [_ Hw]. by eapply Hwidth.
  - apply (iteration_land _ _ _ _ _ _ _ _ _ _ _ (dfs_of part) (target_of part))
      in Hit as (s & tb & src1 & tgt1 & r & src2 & tgt2 & p0 & v
                 & _ & _ & Hcall & _ & _ & Hp0 & _); [|done..].
    apply Hint in Hcall as [_ Hw]. by eapply Hwidth.
  - unfold interpolate_period in Hit.
    rewrite (bool_decide_eq_false_2 _ Ha), (bool_decide_eq_false_2 _ Hl) in Hit.
    steps. simpl in *.
    match goal with
    | H : build_profile _ _ None = Return _ |- _ =>
        apply build_profile_Return in H as (? & ? & ? & ? & _ & _ & ? & _); done
    end.
Qed.

(** X11.  A target frame without the identifier column is noticed late:
    under "area", when the rows of the first period have been
    interpolated and the table of that period has been built and given
    its geometry, [harmonize] fails with the key error of
    [target_df[index]] (line 182), one call of the primitive behind it. *)
Theorem harmonize_missing_identifier part p rest s r src' tgt' p0 g :
  variables_given extensive_variables intensive_variables ->
  validate_outcome collections = Return tt ->
  period_partition collections time_col target_year = Return part ->
  times_of part = p :: rest ->
  getitem no_unique (dfs_of part) time_col = Return s ->
  area_interpolate_binning (select_rows (dfs_of part) (eq_mask s p)) (target_of part)
    extensive_variables intensive_variables allocate_total
  = (Return r, src', tgt') ->
  build_profile extensive_variables intensive_variables (Some r) = Return p0 ->
  getitem not_one_column (target_of part) "geometry" = Return g ->
  index ∉ columns (target_of part) ->
  call_harmonize collections target_year "area" extensive_variables
    intensive_variables allocate_total raster_path codes force_crs_match
    index time_col
  = (Raise (KeyError index),
     {| heap := collections ++ [dfs_of part; target_of part; src'; tgt'];
        calls := area_calls (length collections) 1 |}).
Proof.
  intros Hvars Hval Hpart Htimes Hs Hcall Hp0 Hg Hidx.
  rewrite (harmonize_after_prologue _ _ _ _ _ _ _ _ _ _ _ part) by done.
  rewrite Htimes. cbn [for_in].
  assert ((collections ++ [dfs_of part; target_of part]) !! length collections
          = Some (dfs_of part)) as Hd by (by apply list_lookup_middle).
  assert ((collections ++ [dfs_of part; target_of part]) !! S (length collections)
          = Some (target_of part)) as Ht.
  { rewrite (lookup_app_r collections) by lia.
    by replace (S (length collections) - length collections) with 1 by lia. }
  erewrite bind_Raise_eq; [reflexivity|].
  apply bind_Raise_eq.
  erewrite iteration_area_eq; [|done|exact Hd|exact Ht|exact Hs|exact Hcall].
  cbn [obind heap calls]. rewrite Hp0. cbn [obind].
  destruct (period_partition_Return _ _ _ _ Hpart) as [_ Hrange].
  destruct (setitem_series_unique p0 "geometry" g
              (column_crs (target_of part) "geometry")) as [p1 Hp1].
  { rewrite (getitem_index _ _ _ _ Hg), Hrange. apply NoDup_RangeIndex. }
  unfold attach. rewrite Hg. cbn [obind]. rewrite Hp1. cbn [obind].
  rewrite getitem_missing by done. cbn [obind].
  rewrite <- app_assoc, length_app. cbn [length app].
  unfold area_calls. cbn. do 4 f_equal; lia.
Qed.

(** X12.  A request for extensive variables under "area" returns a
    table: when the names asked for are all different, the collections
    pass validation and partition, the target period is one of the
    period values, the target frame has one geometry and one identifier
    column, and the binning primitive answers every call with an array
    of one row per target polygon and one column per name. *)
Theorem harmonize_extensive_returns ev part :
  ev <> [] -> NoDup ev ->
  validate_outcome collections = Return tt ->
  period_partition collections time_col target_year = Return part ->
  period_present target_year (times_of part) ->
  (exists g, getitem not_one_column (target_of part) "geometry" = Return g) ->
  (exists ident, getitem not_one_column (target_of part) index = Return ident) ->
  (forall src t, exists a0 a1 src' tgt',
      area_interpolate_binning src t (Some ev) (Some []) allocate_total
      = (Return (a0, a1), src', tgt') /\
      shape0 a0 = nrows t /\ shape1 a0 = length ev) ->
  exists df st',
    call_harmonize collections target_year "area" (Some ev) (Some [])
      allocate_total raster_path codes force_crs_match index time_col
    = (Return df, st').
Proof.
  intros Hev Hnd Hval Hpart Hpresent [g Hg] [ident Hident] Hbin.
  rewrite (harmonize_after_prologue _ _ _ _ _ _ _ _ _ _ _ part); try done.
  2: { exists ev. split; [done|]. by left. }
  destruct (period_partition_Return _ _ _ _ Hpart) as [Hndt Hrange].
  set (n := length collections). set (t := target_of part) in *.
  set (d := dfs_of part) in *.
  set (cols := with_column time_col (with_column index (with_column "geometry" ev))).
  assert (exists s, getitem no_unique d time_col = Return s) as [s Hs].
  { unfold period_partition in Hpart.
    apply obind_Return in Hpart as (d' & Hd' & Hpart).
    apply obind_Return in Hpart as (s & Hs & Hpart).
    apply obind_Return in Hpart as (t' & Ht' & [= <-]). by exists s. }
  pose (I := fun (done : list cell) (loc : locals) (st : state) =>
    heap st !! n = Some d /\ heap st !! S n = Some t /\
    dict_inv (fun _ v => columns v = cols /\ geometry_crs v = period_tag time_col t)
             target_year t done (interpolated_dfs loc)).
  set (body := interpolate_period "area" (Some ev) (Some []) allocate_total
                 raster_path codes force_crs_match index time_col n (S n)).
  set (loc0 := {| interpolation := None;
                  interpolated_dfs := dict_set target_year t [] |}).
  set (st0 := {| heap := collections ++ [d; t]; calls := [] |}).
  assert (forall done x rest loc st,
             times_of part = done ++ x :: rest -> I done loc st ->
             exists loc1 st1, body x loc st = (Return loc1, st1) /\
                              I (done ++ [x]) loc1 st1) as Hstep.
  { intros done x rest loc st Htot (Hd & Ht & Hdict).
    destruct (Hbin (select_rows d (eq_mask s x)) t)
      as (a0 & a1 & src' & tgt' & Hcall & Hrows & Hwidth).
    destruct (build_profile_extensive ev a0 a1 Hev Hwidth) as (p0 & Hp0 & Hc0 & Hi0).
    destruct (attach_returns index time_col p0 t x g ident) as [v Hv]; try done.
    { rewrite Hi0, Hrows. done. }
    pose proof (lookup_lt_Some _ _ _ Hd). pose proof (lookup_lt_Some _ _ _ Ht).
    do 2 eexists. split.
    + unfold body.
      erewrite iteration_area_eq; [|done|exact Hd|exact Ht|exact Hs|exact Hcall].
      cbn [obind]. rewrite Hp0. cbn [obind]. rewrite Hv. cbn [obind]. reflexivity.
    + unfold I. cbn [heap interpolated_dfs]. rewrite !lookup_app_l by done.
      repeat split; try done.
      apply dict_inv_step; [|done|].
      * rewrite Htot, (cons_middle x), app_assoc in Hndt.
        by apply NoDup_app in Hndt as (? & _).
      * rewrite (attach_columns _ _ _ _ _ _ Hv), Hc0.
        by rewrite (attach_tag _ _ _ _ _ _ Hv). }
  assert (I [] loc0 st0) as Hinit.
  { unfold I, st0, loc0. cbn [heap interpolated_dfs]. repeat split.
    + by apply list_lookup_middle.
    + rewrite (lookup_app_r collections) by lia.
      by replace (S n - length collections) with 1 by (unfold n; lia).
    + apply dict_inv_init. }
  destruct (for_in_progress I body (times_of part) Hstep (times_of part) [] loc0 st0
              eq_refl Hinit) as (loc' & st2 & Hloop & _ & _ & Hdict).
  fold body loc0 st0.
  erewrite bind_Return_eq by exact Hloop.
  pose proof (dict_inv_final _ _ _ _ _ Hdict Hpresent) as Htables.
  destruct (pd_concat_same_columns cols (period_tag time_col t)
              (dict_values (interpolated_dfs loc')) true)
    as [h Hh].
  - intros Hnil. rewrite Hnil in Htables. by apply Forall2_nil_inv_r in Htables.
  - by do 3 apply NoDup_with_column.
  - apply Forall_forall. intros v Hv.
    apply list_elem_of_lookup in Hv as [j Hj].
    by destruct (Forall2_lookup_r _ _ _ _ _ Htables Hj) as (? & _ & ? & _).
  - apply Forall_forall. intros v Hv.
    apply list_elem_of_lookup in Hv as [j Hj].
    by destruct (Forall2_lookup_r _ _ _ _ _ Htables Hj) as (? & _ & _ & ?).
  - unfold assemble. erewrite bind_Return_eq by (rewrite lift_eq, Hh; reflexivity).
    by do 2 eexists.
Qed.

(** X13.  The values of a run under "area" with row-aligned
    collaborators: row [k] of the group of period [p] holds, under every
    extensive name that is not the name of a column added by lines
    181-183, the cell in row [k] of the first array that the binning
    primitive returned for the rows of period [p] and the target
    frame. *)
Theorem area_values {C : Contract} df st' part :
  call_harmonize collections target_year "area" extensive_variables
    intensive_variables allocate_total raster_path codes force_crs_match
    index time_col = (Return df, st') ->
  period_partition collections time_col target_year = Return part ->
  period_present target_year (times_of part) ->
  let d := dfs_of part in
  let t := target_of part in
  forall j p k,
    period_order target_year (times_of part) !! j = Some p -> k < nrows t ->
    exists s a0 a1 src' tgt' r',
      getitem no_unique d time_col = Return s /\
      area_interpolate_binning (select_rows d (eq_mask s p)) t
        extensive_variables intensive_variables allocate_total
      = (Return (a0, a1), src', tgt') /\
      body df !! (j * nrows t + k) = Some r' /\
      forall c k0,
        find_col c (names extensive_variables) = Some k0 ->
        c <> "geometry"%string -> c <> index -> c <> time_col ->
        cell_of (columns df) r'.2 c = Some (item a0 k k0).
Proof.
  intros Hrun Hpart Hpresent d t j p k Hj Hk.
  apply harmonize_Return_area in Hrun
    as (part' & dict & h & Hpart' & Hdict & Hh & -> & _); [|done].
  rewrite Hpart in Hpart'. injection Hpart' as <-. fold d t in Hdict.
  destruct (period_partition_Return _ _ _ _ Hpart) as [Hnd Hidx]. fold t in Hidx.
  pose proof (dict_inv_final _ _ _ _ _ Hdict Hpresent) as Htables.
  destruct (tables_values extensive_variables intensive_variables index time_col t
              (fun p a0 => exists s a1 src' tgt',
                   getitem no_unique d time_col = Return s /\
                   area_interpolate_binning (select_rows d (eq_mask s p)) t
                     extensive_variables intensive_variables allocate_total
                   = (Return (a0, a1), src', tgt'))
              (period_order target_year (times_of part)) (dict_values dict) h Hidx)
    with (j := j) (p := p) (k := k)
    as (a0 & r' & (s & a1 & src' & tgt' & Hs & Hcall) & Hr' & Hcells); try done.
  - eapply Forall2_impl; [exact Htables|].
    intros i v (s & [a0 a1] & src' & tgt' & p0 & Hs & Hcall & Hp0 & Hv).
    exists a0, a1, p0. repeat split; try done.
    + by apply binning_aligned in Hcall as [? _].
    + by apply binning_aligned in Hcall as [_ ?].
    + by exists s, a1, src', tgt'.
  - by exists s, a0, a1, src', tgt', r'.
Qed.

(** X14.  The rows that the loop selects period by period (line 138),
    taken over all the period values (line 130), are the rows of the
    concatenated collections whose period is not missing, each of them
    once; a row whose period is missing is selected for no period. *)
Theorem periods_partition_rows part :
  period_partition collections time_col target_year = Return part ->
  exists s,
    getitem no_unique (dfs_of part) time_col = Return s /\
    concat ((fun p => body (select_rows (dfs_of part) (eq_mask s p)))
            <$> times_of part)
    ≡ₚ body (select_rows (dfs_of part)
               ((fun q => negb (bool_decide (q.2 = NaN))) <$> s)).
Proof.
  unfold period_partition. intros Hpart.
  apply obind_Return in Hpart as (d & Hd & Hpart).
  apply obind_Return in Hpart as (s & Hs & Hpart).
  apply obind_Return in Hpart as (t & Ht & [= <-]). cbn [dfs_of times_of].
  exists s. split; [done|]. unfold select_rows. cbn [body].
  apply rows_partition; [apply NoDup_unique|].
  intros q Hq _. apply elem_of_unique. by apply list_elem_of_fmap_2.
Qed.

(** X15.  Under a method other than "land_type_area" no primitive is
    handed [dfs] or [target_df]: whatever the primitives do to the tables
    they get, and whether the run returns or not, the two objects are at
    the end as the partition made them. *)
Theorem other_methods_keep_target_frame part :
  weights_method <> "land_type_area"%string ->
  variables_given extensive_variables intensive_variables ->
  validate_outcome collections = Return tt ->
  period_partition collections time_col target_year = Return part ->
  take (length collections + 2)
    (heap (call_harmonize collections target_year weights_method
             extensive_variables intensive_variables allocate_total raster_path
             codes force_crs_match index time_col).2)
  = collections ++ [dfs_of part; target_of part].
Proof.
  intros Hl Hvars Hval Hpart.
  rewrite (harmonize_after_prologue _ _ _ _ _ _ _ _ _ _ _ part) by done.
  match goal with
  | |- take _ (heap (?m ?st).2) = _ =>
      assert (keeps_older (length collections + 2) m (fun _ => True)) as Hk
  end.
  { eapply keeps_older_bind.
    - apply keeps_older_for_in. intros x s'.
      by apply interpolate_period_keeps_older.
    - intros loc' _. unfold assemble.
      eapply keeps_older_bind; [apply keeps_older_readonly, readonly_lift|].
      intros h _. by apply keeps_older_ret. }
  destruct (Hk {| heap := collections ++ [dfs_of part; target_of part];
                  calls := [] |}) as (_ & Htake & _).
  { cbn [heap]. rewrite length_app. simpl. lia. }
  rewrite Htake. cbn [heap]. apply firstn_all2. rewrite length_app. simpl. lia.
Qed.

(** X16.  The values of a run under "land_type_area" with row-aligned
    collaborators and an interpolation that gives back the target table
    it was handed at line 164: row [k] of the group of period [p] holds,
    under every extensive name that is not the name of a column added by
    lines 181-183, the cell in row [k] of the first array that the
    interpolation returned for period [p]; the interpolation was called
    on the rows of the period as the raster primitive left them, on the
    target frame, and on the tables that the raster primitive returned
    for the rows of the period, the target frame, [raster_path], [codes]
    and [force_crs_match]. *)
Theorem land_type_area_values {C : Contract} df st' part :
  keeps_target ->
  call_harmonize collections target_year "land_type_area" extensive_variables
    intensive_variables allocate_total raster_path codes force_crs_match
    index time_col = (Return df, st') ->
  period_partition collections time_col target_year = Return part ->
  period_present target_year (times_of part) ->
  let d := dfs_of part in
  let t := target_of part in
  forall j p k,
    period_order target_year (times_of part) !! j = Some p -> k < nrows t ->
    exists s tb src1 tgt1 a0 a1 src2 tgt2 r',
      getitem no_unique d time_col = Return s /\
      area_tables_raster (select_rows d (eq_mask s p)) t raster_path codes
        force_crs_match = (Return tb, src1, tgt1) /\
      area_interpolate src1 t extensive_variables intensive_variables
        allocate_total tb = (Return (a0, a1), src2, tgt2) /\
      body df !! (j * nrows t + k) = Some r' /\
      forall c k0,
        find_col c (names extensive_variables) = Some k0 ->
        c <> "geometry"%string -> c <> index -> c <> time_col ->
        cell_of (columns df) r'.2 c = Some (item a0 k k0).
Proof.
  intros Hkeep Hrun Hpart Hpresent d t j p k Hj Hk.
  apply harmonize_Return_land_tables in Hrun
    as (part' & dict & h & Hpart' & Hdict & Hh & ->); [|done..].
  rewrite Hpart in Hpart'. injection Hpart' as <-. fold d t in Hdict.
  destruct (period_partition_Return _ _ _ _ Hpart) as [Hnd Hidx]. fold t in Hidx.
  pose proof (dict_inv_final _ _ _ _ _ Hdict Hpresent) as Htables.
  destruct (tables_values extensive_variables intensive_variables index time_col t
              (fun p a0 => exists s tb src1 tgt1 a1 src2 tgt2,
                   getitem no_unique d time_col = Return s /\
                   area_tables_raster (select_rows d (eq_mask s p)) t raster_path
                     codes force_crs_match = (Return tb, src1, tgt1) /\
                   area_interpolate src1 t extensive_variables intensive_variables
                     allocate_total tb = (Return (a0, a1), src2, tgt2))
              (period_order target_year (times_of part)) (dict_values dict) h Hidx)
    with (j := j) (p := p) (k := k)
    as (a0 & r' & (s & tb & src1 & tgt1 & a1 & src2 & tgt2 & Hs & Hc1 & Hc2)
        & Hr' & Hcells); try done.
  - eapply Forall2_impl; [exact Htables|].
    intros i v (s & tb & src1 & tgt1 & [a0 a1] & src2 & tgt2 & p0
                & Hs & Hc1 & Hc2 & Hp0 & Hv).
    pose proof (Hkeep _ _ _ _ _ _ _ _ _ Hc2) as ->.
    exists a0, a1, p0. repeat split; try done.
    + by apply interpolate_aligned in Hc2 as [? _].
    + by apply interpolate_aligned in Hc2 as [_ ?].
    + by exists s, tb, src1, tgt1, a1, src2, t.
  - by exists s, tb, src1, tgt1, a0, a1, src2, tgt2, r'.
Qed.

(** X17.  Collections without any period value (no rows at all) make no
    iteration: whatever the method, no primitive is called, and the
    result is what the concatenation of line 188 makes of the empty
    target frame alone. *)
Theorem harmonize_no_periods part :
  variables_given extensive_variables intensive_variables ->
  validate_outcome collections = Return tt ->
  period_partition collections time_col target_year = Return part ->
  times_of part = [] ->
  nrows (dfs_of part) = 0 /\
  call_harmonize collections target_year weights_method extensive_variables
    intensive_variables allocate_total raster_path codes force_crs_match
    index time_col
  = (let? h := pd_concat [target_of part] true in Return (GeoDataFrame h None),
     {| heap := collections ++ [dfs_of part; target_of part]; calls := [] |}).
Proof.
  intros Hvars Hval Hpart Htimes. split.
  - unfold period_partition in Hpart.
    apply obind_Return in Hpart as (d & Hd & Hpart).
    apply obind_Return in Hpart as (s & Hs & Hpart).
    apply obind_Return in Hpart as (t & Ht & [= <-]). cbn [dfs_of times_of] in *.
    rewrite <- (getitem_length _ _ _ _ Hs).
    destruct s as [|q s]; [done|]. exfalso.
    assert (q.2 ∈ unique (q :: s)) as Hq
      by (apply elem_of_unique; rewrite fmap_cons; left).
    rewrite Htimes in Hq. by apply elem_of_nil in Hq.
  - rewrite (harmonize_after_prologue _ _ _ _ _ _ _ _ _ _ _ part) by done.
    rewrite Htimes. cbn [for_in]. erewrite bind_Return_eq by reflexivity.
    unfold assemble. cbn [interpolated_dfs dict_set].
    change (dict_values [(target_year, target_of part)]) with [target_of part].
    unfold bind, lift. by destruct (pd_concat [target_of part] true).
Qed.

End properties.

(** ** The properties at work on the sample collections *)

Lemma harmonize_no_collections_witness :
  call_harmonize (P := pure_primitives) (O := distinct_objects)
      [] (Str "2010") "area" (Some ["pop"%string])
    (Some []) true None nlcd_codes true "geoid" "year"
  = (Raise (IndexError "list index out of range"), {| heap := []; calls := [] |}).
Proof.
  apply (harmonize_no_collections (P := pure_primitives) (O := distinct_objects)).
  exists ["pop"%string]. split; [reflexivity|]. left. discriminate.
Defined.

Lemma harmonize_missing_time_column_witness :
  (call_harmonize (P := pure_primitives) (O := distinct_objects)
      two_censuses (Str "2010") "area"
     (Some ["pop"%string]) (Some []) true None nlcd_codes true "geoid" "period").1
  = Raise (KeyError "period").
Proof.
  destruct (harmonize_missing_time_column (P := pure_primitives) (O := distinct_objects)
      two_censuses
              (Str "2010") "area" (Some ["pop"%string]) (Some []) true None nlcd_codes
              true "geoid" "period" (dfs_of census_partition)) as [H _].
  - exists ["pop"%string]. split; [reflexivity|]. left. discriminate.
  - vm_compute. reflexivity.
  - vm_compute. reflexivity.
  - intros c Hc. apply (bool_decide_unpack _).
    apply elem_of_cons in Hc as [->|Hc]; [vm_compute; exact I|].
    apply elem_of_cons in Hc as [->|Hc]; [vm_compute; exact I|].
    by apply elem_of_nil in Hc.
  - exact H.
Defined.

Lemma harmonize_index_name_clash_witness :
  (call_harmonize (P := pure_primitives) (O := distinct_objects)
      geoid_censuses (Str "2010") "area"
     (Some ["pop"%string]) (Some []) true None nlcd_codes true "geoid" "year").1
  = Raise (ValueError "cannot insert, already exists").
Proof.
  edestruct (harmonize_index_name_clash (P := pure_primitives) (O := distinct_objects)
      geoid_censuses
               (Str "2010") "area" (Some ["pop"%string]) (Some []) true None nlcd_codes
               true "geoid" "year") as [H _].
  - exists ["pop"%string]. split; [reflexivity|]. left. discriminate.
  - vm_compute. reflexivity.
  - vm_compute. reflexivity.
  - vm_compute. reflexivity.
  - left. exists "geoid"%string. split; [reflexivity|].
    apply (bool_decide_unpack _). vm_compute. exact I.
  - exact H.
Defined.

Lemma harmonize_unknown_target_period_witness :
  call_1990 = (Return table_1990, state_1990) /\
  times_of partition_1990 = [Str "2000"; Str "2010"] /\
  columns table_1990 = ["geoid"; "geometry"; "index"; "pop"; "year"]%string /\
  nrows table_1990 = 0.
Proof.
  split; [vm_compute; reflexivity|]. split; [reflexivity|]. split; [reflexivity|].
  destruct (harmonize_unknown_target_period (P := pure_primitives) (O := distinct_objects)
              (C := pure_primitives_contract) two_censuses (Str "1990") "area"
              (Some ["pop"%string]) (Some []) true None nlcd_codes true "geoid" "year"
              table_1990 state_1990 partition_1990) as (_ & H & _).
  - intros Hl. discriminate Hl.
  - vm_compute. reflexivity.
  - vm_compute. reflexivity.
  - intros (p & Hp & Heq).
    apply elem_of_cons in Hp as [->|Hp]; [discriminate Heq|].
    apply elem_of_cons in Hp as [->|Hp]; [discriminate Heq|].
    by apply elem_of_nil in Hp.
  - exact H.
Defined.

Lemma area_call_log_witness :
  calls census_state = [mkCall AreaInterpolateBinning 4 5;
                        mkCall AreaInterpolateBinning 6 7].
Proof.
  apply (area_call_log (P := pure_primitives) (O := distinct_objects)
      two_censuses (Str "2010")
           (Some ["pop"%string]) (Some []) true None nlcd_codes true "geoid" "year"
           census_table census_state census_partition).
  - vm_compute. reflexivity.
  - vm_compute. reflexivity.
Defined.

Lemma land_type_area_call_log_witness :
  calls land_state = [mkCall AreaTablesRaster 4 5; mkCall AreaInterpolate 4 3;
                      mkCall AreaTablesRaster 6 7; mkCall AreaInterpolate 6 3].
Proof.
  apply (land_type_area_call_log (P := pure_primitives) (O := distinct_objects)
      two_censuses (Str "2010")
           (Some ["pop"%string]) (Some []) true (Some "nlcd.tif"%string) nlcd_codes
           true "geoid" "year" land_table land_state census_partition).
  - vm_compute. reflexivity.
  - vm_compute. reflexivity.
Defined.

Lemma harmonize_columns_sorted_witness :
  columns census_table = ["geoid"; "geometry"; "pop"; "year"]%string /\
  StronglySorted (fun a b => String.leb a b = true) (columns census_table).
Proof.
  split; [reflexivity|].
  apply (harmonize_columns_sorted (P := pure_primitives) (O := distinct_objects)
      two_censuses (Str "2010")
           "area" (Some ["pop"%string]) (Some []) true None nlcd_codes true
           "geoid" "year" census_table census_state).
  vm_compute. reflexivity.
Defined.

Lemma harmonize_both_groups_raises_witness :
  exists e,
    (call_harmonize (P := pure_primitives) (O := distinct_objects)
        two_censuses (Str "2010") "area"
       (Some ["pop"%string]) (Some ["income"%string]) true None nlcd_codes true
       "geoid" "year").1 = Raise e.
Proof.
  apply (harmonize_both_groups_raises (P := pure_primitives) (O := distinct_objects)
      two_censuses (Str "2010")
           "area" true None nlcd_codes true "geoid" "year"
           ["pop"%string] ["income"%string] census_partition).
  - discriminate.
  - discriminate.
  - apply (bool_decide_unpack _). vm_compute. exact I.
  - reflexivity.
  - vm_compute. reflexivity.
  - discriminate.
Defined.

(** The sample collaborators return one column for every variable. *)
Lemma pure_primitives_widths : @column_per_variable pure_primitives.
Proof.
  split.
  - intros s t e i a r s' t' [= <- _ _]. done.
  - intros s t e i a tb r s' t' [= <- _ _]. done.
Qed.

Lemma harmonize_unequal_groups_raises_witness :
  exists e,
    (call_harmonize (P := pure_primitives) (O := distinct_objects)
        two_censuses (Str "2010") "area"
       (Some []) (Some ["income"%string]) true None nlcd_codes true
       "geoid" "year").1 = Raise e.
Proof.
  apply (harmonize_unequal_groups_raises (P := pure_primitives) (O := distinct_objects)
      two_censuses
           (Str "2010") "area" true None nlcd_codes true "geoid" "year"
           [] ["income"%string] census_partition).
  - exact pure_primitives_widths.
  - discriminate.
  - discriminate.
  - vm_compute. reflexivity.
  - discriminate.
Defined.

Lemma harmonize_missing_identifier_witness :
  (call_harmonize (P := pure_primitives) (O := distinct_objects)
      two_censuses (Str "2010") "area"
     (Some ["pop"%string]) (Some []) true None nlcd_codes true "tract" "year").1
  = Raise (KeyError "tract").
Proof.
  erewrite (harmonize_missing_identifier (P := pure_primitives) (O := distinct_objects)
      two_censuses
              (Str "2010") (Some ["pop"%string]) (Some []) true None nlcd_codes true
              "tract" "year" census_partition).
  - reflexivity.
  - exists ["pop"%string]. split; [reflexivity|]. left. discriminate.
  - vm_compute. reflexivity.
  - vm_compute. reflexivity.
  - vm_compute. reflexivity.
  - vm_compute. reflexivity.
  - vm_compute. reflexivity.
  - vm_compute. reflexivity.
  - vm_compute. reflexivity.
  - apply (bool_decide_unpack _). vm_compute. exact I.
Defined.

Lemma harmonize_extensive_returns_witness :
  exists df st',
    call_harmonize (P := pure_primitives) (O := distinct_objects)
        two_censuses (Str "2010") "area"
      (Some ["pop"%string]) (Some []) true None nlcd_codes true "geoid" "year"
    = (Return df, st').
Proof.
  apply (harmonize_extensive_returns (P := pure_primitives) (O := distinct_objects)
      two_censuses (Str "2010")
           true None nlcd_codes true "geoid" "year" ["pop"%string] census_partition).
  - discriminate.
  - apply (bool_decide_unpack _). vm_compute. exact I.
  - vm_compute. reflexivity.
  - vm_compute. reflexivity.
  - exists (Str "2010"). split; [|reflexivity].
    apply (bool_decide_unpack _). vm_compute. exact I.
  - eexists. vm_compute. reflexivity.
  - eexists. vm_compute. reflexivity.
  - intros src t. do 4 eexists. split; [reflexivity|]. split; reflexivity.
Defined.

Lemma area_values_witness :
  exists s a0 a1 src' tgt' r',
    getitem no_unique (dfs_of census_partition) "year" = Return s /\
    area_interpolate_binning (Primitives := pure_primitives)
      (select_rows (dfs_of census_partition) (eq_mask s (Str "2000")))
      (target_of census_partition) (Some ["pop"%string]) (Some []) true
    = (Return (a0, a1), src', tgt') /\
    body census_table !! (1 * nrows (target_of census_partition) + 2) = Some r' /\
    forall c k0,
      find_col c ["pop"%string] = Some k0 ->
      c <> "geometry"%string -> c <> "geoid"%string -> c <> "year"%string ->
      cell_of (columns census_table) r'.2 c = Some (item a0 2 k0).
Proof.
  apply (area_values (P := pure_primitives) (O := distinct_objects)
      (C := pure_primitives_contract)
           two_censuses (Str "2010") (Some ["pop"%string]) (Some []) true None
           nlcd_codes true "geoid" "year" census_table census_state census_partition).
  - vm_compute. reflexivity.
  - vm_compute. reflexivity.
  - exists (Str "2010"). split; [|reflexivity].
    apply (bool_decide_unpack _). vm_compute. exact I.
  - vm_compute. reflexivity.
  - vm_compute. lia.
Defined.

Lemma periods_partition_rows_witness :
  times_of census_partition = [Str "2000"; Str "2010"] /\
  exists s,
    getitem no_unique (dfs_of census_partition) "year" = Return s /\
    concat ((fun p => body (select_rows (dfs_of census_partition) (eq_mask s p)))
            <$> times_of census_partition)
    ≡ₚ body (select_rows (dfs_of census_partition)
               ((fun q => negb (bool_decide (q.2 = NaN))) <$> s)).
Proof.
  split; [reflexivity|].
  apply (periods_partition_rows two_censuses (Str "2010") "year" census_partition).
  vm_compute. reflexivity.
Defined.

Lemma other_methods_keep_target_frame_witness :
  take 4 (heap (call_harmonize (P := reprojecting_primitives) (O := distinct_objects)
      two_censuses
                  (Str "2010") "area" (Some ["pop"%string]) (Some []) true None
                  nlcd_codes true "geoid" "year").2)
  = two_censuses ++ [dfs_of census_partition; target_of census_partition].
Proof.
  apply (other_methods_keep_target_frame (P := reprojecting_primitives) (O := distinct_objects)
      two_censuses
           (Str "2010") "area" (Some ["pop"%string]) (Some []) true None nlcd_codes
           true "geoid" "year" census_partition).
  - discriminate.
  - exists ["pop"%string]. split; [reflexivity|]. left. discriminate.
  - vm_compute. reflexivity.
  - vm_compute. reflexivity.
Defined.

Lemma land_type_area_values_witness :
  exists s tb src1 tgt1 a0 a1 src2 tgt2 r',
    getitem no_unique (dfs_of census_partition) "year" = Return s /\
    area_tables_raster (Primitives := pure_primitives)
      (select_rows (dfs_of census_partition) (eq_mask s (Str "2000")))
      (target_of census_partition) (Some "nlcd.tif"%string) nlcd_codes true
    = (Return tb, src1, tgt1) /\
    area_interpolate (Primitives := pure_primitives) src1 (target_of census_partition)
      (Some ["pop"%string]) (Some []) true tb
    = (Return (a0, a1), src2, tgt2) /\
    body land_table !! (1 * nrows (target_of census_partition) + 2) = Some r' /\
    forall c k0,
      find_col c ["pop"%string] = Some k0 ->
      c <> "geometry"%string -> c <> "geoid"%string -> c <> "year"%string ->
      cell_of (columns land_table) r'.2 c = Some (item a0 2 k0).
Proof.
  apply (land_type_area_values (P := pure_primitives) (O := distinct_objects)
      (C := pure_primitives_contract)
           two_censuses (Str "2010") (Some ["pop"%string]) (Some []) true
           (Some "nlcd.tif"%string) nlcd_codes true "geoid" "year" land_table
           land_state census_partition).
  - exact pure_primitives_keep_target.
  - vm_compute. reflexivity.
  - vm_compute. reflexivity.
  - exists (Str "2010"). split; [|reflexivity].
    apply (bool_decide_unpack _). vm_compute. exact I.
  - vm_compute. reflexivity.
  - vm_compute. lia.
Defined.

Lemma harmonize_no_periods_witness :
  nrows (dfs_of empty_partition) = 0 /\
  calls (call_harmonize (P := pure_primitives) (O := distinct_objects)
      [no_tracts] (Str "2010")
           "land_type_area" (Some ["pop"%string]) (Some []) true
           (Some "nlcd.tif"%string) nlcd_codes true "geoid" "year").2 = [].
Proof.
  destruct (harmonize_no_periods (P := pure_primitives) (O := distinct_objects)
      [no_tracts] (Str "2010")
              "land_type_area" (Some ["pop"%string]) (Some []) true
              (Some "nlcd.tif"%string) nlcd_codes true "geoid" "year" empty_partition)
    as [Hn Hrun].
  - exists ["pop"%string]. split; [reflexivity|]. left. discriminate.
  - vm_compute. reflexivity.
  - vm_compute. reflexivity.
  - reflexivity.
  - split; [exact Hn|]. rewrite Hrun. reflexivity.
Defined.

End Properties.
